(** * Voice agent server: the streaming session controller

    A shallow embedding of
      - [voice_agent_server/utils/audio_utils.py] (message classifier,
        audio decoding, [Workflow], [WebsocketHelper]),
      - [voice_agent_server/api/websocket_handler.py]
        ([WebSocketManager], [websocket_endpoint]),
      - [voice_agent_server/services/database.py]
        ([find_application_by_reference], the write path, [get_time_range]),
      - [voice_agent_server/services/agent_config.py] (the function tools
        that write to the store),
      - [voice_agent_server/utils/language_detection.py]
        ([detect_language]),
    and the properties of the session controller proved over it.

    Conventions.
      - Python values that come off the wire are [json] values; a [dict] is
        an association list read by its first entry for a key.
      - A method of [WebsocketHelper] is a computation in the monad [M]:
        it threads the helper, and it may raise.  The helper survives a
        raise, as the Python object does.
      - [websocket.send_text(json.dumps(d))] appends [d] to the transcript
        of the socket.  The socket is taken to be open: sends succeed.
      - The agent runner, the speech pipeline and the regular expression
        engine of the document store are outside the repository; they are
        inputs of the model.

    Layout: the embedding of the source, module by module; the vocabulary
    of the properties and the sample data; then the properties. *)

From Stdlib Require Import ZArith NArith QArith List String Ascii Bool Lia.
From Stdlib.Strings Require Import Byte.
From stdpp Require Import base option list strings gmap.

Import ListNotations.
Set Warnings "-register-all".
Local Open Scope string_scope.
Local Open Scope list_scope.

(** ** Python values *)

Module Py.

Inductive json : Type :=
| JNull
| JBool (b : bool)
| JNum (n : Z)
| JStr (s : string)
| JArr (xs : list json)
| JObj (fields : list (string * json)).

Inductive exn : Type :=
| KeyError
| IndexError
| TypeError
| AttributeError
| ValueError
| BinasciiError
| RuntimeError
| OperationFailure.

Inductive result (A : Type) : Type :=
| Ok (a : A)
| Raise (e : exn).
Arguments Ok {A} a.
Arguments Raise {A} e.

Definition is_ok {A} (r : result A) : bool :=
  match r with Ok _ => true | Raise _ => false end.

(** [bool(v)] *)
Definition truthy (v : json) : bool :=
  match v with
  | JNull => false
  | JBool b => b
  | JNum n => negb (n =? 0)%Z
  | JStr s => negb (String.eqb s "")
  | JArr xs => match xs with [] => false | _ => true end
  | JObj fs => match fs with [] => false | _ => true end
  end.

(** [v == "s"] for a string literal [s] *)
Definition eq_str (v : json) (s : string) : bool :=
  match v with
  | JStr t => String.eqb t s
  | _ => false
  end.

Fixpoint assoc (k : string) (fs : list (string * json)) : option json :=
  match fs with
  | [] => None
  | (k', v) :: fs' => if String.eqb k' k then Some v else assoc k fs'
  end.

(** [d[k]] for a string key [k] *)
Definition getitem (d : json) (k : string) : result json :=
  match d with
  | JObj fs => match assoc k fs with Some v => Ok v | None => Raise KeyError end
  | _ => Raise TypeError
  end.

(** [d.get(k)] *)
Definition get (d : json) (k : string) : result json :=
  match d with
  | JObj fs => Ok (default JNull (assoc k fs))
  | _ => Raise AttributeError
  end.

(** [d.get(k, dflt)] *)
Definition get_default (d : json) (k : string) (dflt : json) : result json :=
  match d with
  | JObj fs => Ok (default dflt (assoc k fs))
  | _ => Raise AttributeError
  end.

Fixpoint last_char (s : string) : option ascii :=
  match s with
  | EmptyString => None
  | String c EmptyString => Some c
  | String _ s' => last_char s'
  end.

(** [v[-1]] *)
Definition getitem_last (v : json) : result json :=
  match v with
  | JArr xs => match last xs with Some x => Ok x | None => Raise IndexError end
  | JStr s => match last_char s with
              | Some c => Ok (JStr (String c EmptyString))
              | None => Raise IndexError
              end
  | JObj _ => Raise KeyError
  | _ => Raise TypeError
  end.

Fixpoint string_init (s : string) : string :=
  match s with
  | EmptyString => EmptyString
  | String c EmptyString => EmptyString
  | String c s' => String c (string_init s')
  end.

(** [v[:-1]] *)
Definition slice_init (v : json) : result json :=
  match v with
  | JArr xs => Ok (JArr (removelast xs))
  | JStr s => Ok (JStr (string_init s))
  | _ => Raise TypeError
  end.

(** [v.append(x)] *)
Definition append (v x : json) : result json :=
  match v with
  | JArr xs => Ok (JArr (xs ++ [x]))
  | _ => Raise AttributeError
  end.

(** [v + [x]] *)
Definition add_list (v : json) (ys : list json) : result json :=
  match v with
  | JArr xs => Ok (JArr (xs ++ ys))
  | _ => Raise TypeError
  end.

End Py.
Export Py.

(** ** Bytes, base64 and sample arrays

    [base64] and [numpy] are libraries; what the handlers use of them is
    written out here.  [b64decode] follows CPython's [binascii.a2b_base64]
    with [strict_mode] off: characters outside the alphabet are skipped,
    a pad that completes a quad ends the input, and a quad left open at
    the end is an error. *)

Module Codec.

Definition byte_of_N (n : N) : byte :=
  default x00 (Byte.of_N (N.land n 255)).

Definition b64_value (c : ascii) : option N :=
  let n := N_of_ascii c in
  if (65 <=? n)%N && (n <=? 90)%N then Some (n - 65)%N
  else if (97 <=? n)%N && (n <=? 122)%N then Some (n - 71)%N
  else if (48 <=? n)%N && (n <=? 57)%N then Some (n + 4)%N
  else if (n =? 43)%N then Some 62%N
  else if (n =? 47)%N then Some 63%N
  else None.

Definition b64_char (v : N) : ascii :=
  if (v <? 26)%N then ascii_of_N (v + 65)
  else if (v <? 52)%N then ascii_of_N (v + 71)
  else if (v <? 62)%N then ascii_of_N (v - 4)
  else if (v =? 62)%N then "+"%char
  else "/"%char.

Definition is_ascii (c : ascii) : bool := (N_of_ascii c <? 128)%N.

Fixpoint all_ascii (s : string) : bool :=
  match s with
  | EmptyString => true
  | String c s' => is_ascii c && all_ascii s'
  end.

(** The loop of [a2b_base64]: [quad_pos] counts the sextets of the open
    quad, [leftchar] holds its pending bits, [pads] the pads seen since
    the last sextet, [out] the bytes produced. *)
Fixpoint a2b_loop (s : string) (quad_pos : nat) (leftchar : N) (pads : nat)
    (out : list byte) : result (list byte) :=
  match s with
  | EmptyString =>
      match quad_pos with
      | O => Ok out
      | _ => Raise BinasciiError
      end
  | String c s' =>
      if Ascii.eqb c "="%char then
        if (2 <=? quad_pos)%nat then
          if (4 <=? quad_pos + S pads)%nat then Ok out
          else a2b_loop s' quad_pos leftchar (S pads) out
        else a2b_loop s' quad_pos leftchar pads out
      else
        match b64_value c with
        | None => a2b_loop s' quad_pos leftchar pads out
        | Some this_ch =>
            match quad_pos with
            | 0%nat => a2b_loop s' 1%nat this_ch 0%nat out
            | 1%nat =>
                a2b_loop s' 2%nat (N.land this_ch 15) 0%nat
                  (out ++ [byte_of_N (N.lor (N.shiftl leftchar 2) (N.shiftr this_ch 4))])
            | 2%nat =>
                a2b_loop s' 3%nat (N.land this_ch 3) 0%nat
                  (out ++ [byte_of_N (N.lor (N.shiftl leftchar 4) (N.shiftr this_ch 2))])
            | _ =>
                a2b_loop s' 0%nat 0%N 0%nat
                  (out ++ [byte_of_N (N.lor (N.shiftl leftchar 6) this_ch)])
            end
        end
  end.

(** [base64.b64decode(s)] for a [str] argument *)
Definition b64decode (s : string) : result (list byte) :=
  if all_ascii s then a2b_loop s 0 0 0 [] else Raise ValueError.

Definition sextets3 (a b c : byte) : list N :=
  let x := (N.lor (N.shiftl (Byte.to_N a) 16)
             (N.lor (N.shiftl (Byte.to_N b) 8) (Byte.to_N c))) in
  [N.land (N.shiftr x 18) 63; N.land (N.shiftr x 12) 63;
   N.land (N.shiftr x 6) 63; N.land x 63].

(** [base64.b64encode(bs).decode("utf-8")] *)
Fixpoint b64encode (bs : list byte) : string :=
  match bs with
  | [] => EmptyString
  | [a] =>
      match sextets3 a x00 x00 with
      | [s0; s1; _; _] =>
          String (b64_char s0) (String (b64_char s1) "==")
      | _ => EmptyString
      end
  | [a; b] =>
      match sextets3 a b x00 with
      | [s0; s1; s2; _] =>
          String (b64_char s0) (String (b64_char s1) (String (b64_char s2) "="))
      | _ => EmptyString
      end
  | a :: b :: c :: rest =>
      match sextets3 a b c with
      | [s0; s1; s2; s3] =>
          String (b64_char s0) (String (b64_char s1)
            (String (b64_char s2) (String (b64_char s3) (b64encode rest))))
      | _ => EmptyString
      end
  end.

(** A one-dimensional [numpy] array of the two element types the audio
    path produces.  A [float32] sample is given by the rational it
    denotes: the only [float32] values computed here are [v / 32768.0] for
    a 16-bit integer [v], which [float32] represents exactly. *)
Inductive ndarray : Type :=
| Int16Array (samples : list Z)
| Float32Array (samples : list Q).

Definition int16_of_bytes (lo hi : byte) : Z :=
  let u := (Z.of_N (Byte.to_N lo) + 256 * Z.of_N (Byte.to_N hi))%Z in
  if (u <? 32768)%Z then u else (u - 65536)%Z.

Fixpoint int16_samples (bs : list byte) : option (list Z) :=
  match bs with
  | [] => Some []
  | [_] => None
  | lo :: hi :: rest =>
      match int16_samples rest with
      | Some l => Some (int16_of_bytes lo hi :: l)
      | None => None
      end
  end.

(** [np.frombuffer(bs, dtype=np.int16)] *)
Definition frombuffer_int16 (bs : list byte) : result ndarray :=
  match int16_samples bs with
  | Some l => Ok (Int16Array l)
  | None => Raise ValueError
  end.

(** [a.astype(np.float32)] *)
Definition astype_float32 (a : ndarray) : list Q :=
  match a with
  | Int16Array l => map inject_Z l
  | Float32Array l => l
  end.

(** [a.astype(np.float32) / 32768.0] *)
Definition normalize (a : ndarray) : ndarray :=
  Float32Array (map (fun x => (x / 32768)%Q) (astype_float32 a)).

Definition is_int16 (a : ndarray) : bool :=
  match a with Int16Array _ => true | Float32Array _ => false end.

Definition int16_values (a : ndarray) : list Z :=
  match a with Int16Array l => l | Float32Array _ => [] end.

(** [np.concatenate(chunks)]: an empty list is an error; the result is
    [int16] when every chunk is, [float32] otherwise. *)
Definition np_concatenate (chunks : list ndarray) : result ndarray :=
  match chunks with
  | [] => Raise ValueError
  | _ =>
      if forallb is_int16 chunks
      then Ok (Int16Array (concat (map int16_values chunks)))
      else Ok (Float32Array (concat (map astype_float32 chunks)))
  end.

Record AudioInput : Type := mkAudioInput { buffer : ndarray }.

End Codec.
Export Codec.

(** ** State and exceptions

    A computation over a mutable object of type [S] that may raise.  The
    object is returned in both cases: what was assigned before a raise
    stays assigned. *)

Module StateExn.

Definition ST (S A : Type) : Type := S -> result A * S.

Definition ret {S A} (a : A) : ST S A := fun s => (Ok a, s).

Definition bind {S A B} (m : ST S A) (k : A -> ST S B) : ST S B :=
  fun s =>
    match m s with
    | (Ok a, s') => k a s'
    | (Raise e, s') => (Raise e, s')
    end.

Definition raise {S A} (e : exn) : ST S A := fun s => (Raise e, s).

(** Lift a pure Python expression that may raise. *)
Definition lift {S A} (r : result A) : ST S A := fun s => (r, s).

Definition gets {S A} (f : S -> A) : ST S A := fun s => (Ok (f s), s).

Definition modify {S} (f : S -> S) : ST S unit := fun s => (Ok tt, f s).

(** [try: m  except Exception: h] *)
Definition try_except {S A} (m : ST S A) (h : exn -> ST S A) : ST S A :=
  fun s =>
    match m s with
    | (Ok a, s') => (Ok a, s')
    | (Raise e, s') => h e s'
    end.

(** [for x in xs: body(x)] *)
Fixpoint for_each {S A} (xs : list A) (body : A -> ST S unit) : ST S unit :=
  match xs with
  | [] => ret tt
  | x :: xs' => bind (body x) (fun _ => for_each xs' body)
  end.

(** Run a computation on a component of a larger state. *)
Definition zoom {S T A} (proj : T -> S) (inj : S -> T -> T) (m : ST S A) : ST T A :=
  fun t =>
    match m (proj t) with
    | (r, s') => (r, inj s' t)
    end.

Definition exec {S A} (m : ST S A) (s : S) : S := snd (m s).
Definition eval {S A} (m : ST S A) (s : S) : result A := fst (m s).

End StateExn.
Export StateExn.

Declare Scope st_scope.
Delimit Scope st_scope with st.
Notation "'do' x <- m ; k" := (bind m (fun x => k))
  (at level 10, x name, m at level 100, k at level 200,
   format "'[v' 'do'  x  <-  m ; '/' k ']'") : st_scope.
Notation "'do' ' p <- m ; k" := (bind m (fun x => match x with p => k end))
  (at level 10, p pattern, m at level 100, k at level 200) : st_scope.
Notation "m >> k" := (bind m (fun _ => k))
  (at level 100, k at level 200, right associativity) : st_scope.
Local Open Scope st_scope.

(** ** The message classifier ([audio_utils.py], lines 40-72) *)

Module Classifier.

Definition is_sync_message (data : json) : result bool :=
  match getitem data "type" with
  | Raise e => Raise e
  | Ok ty =>
      if eq_str ty "history.update" then
        match getitem data "inputs" with
        | Raise e => Raise e
        | Ok inputs =>
            if negb (truthy inputs) then Ok true
            else
              match getitem_last inputs with
              | Raise e => Raise e
              | Ok item =>
                  match get item "role" with
                  | Raise e => Raise e
                  | Ok role => Ok (negb (eq_str role "user"))
                  end
              end
        end
      else Ok false
  end.

(** The value of the [and] expression: [False], the falsy [inputs], or
    the comparison of the role. *)
Definition is_new_text_message (data : json) : result json :=
  match getitem data "type" with
  | Raise e => Raise e
  | Ok ty =>
      if eq_str ty "history.update" then
        match getitem data "inputs" with
        | Raise e => Raise e
        | Ok inputs =>
            if negb (truthy inputs) then Ok inputs
            else
              match getitem_last inputs with
              | Raise e => Raise e
              | Ok item =>
                  match get item "role" with
                  | Raise e => Raise e
                  | Ok role => Ok (JBool (eq_str role "user"))
                  end
              end
        end
      else Ok (JBool false)
  end.

Definition is_new_audio_chunk (data : json) : result bool :=
  match getitem data "type" with
  | Raise e => Raise e
  | Ok ty => Ok (eq_str ty "input_audio_buffer.append")
  end.

Definition is_audio_complete (data : json) : result bool :=
  match getitem data "type" with
  | Raise e => Raise e
  | Ok ty => Ok (eq_str ty "input_audio_buffer.commit")
  end.

(** [extract_audio_chunk] *)
Definition extract_audio_chunk (data : json) : result ndarray :=
  match getitem data "delta" with
  | Raise e => Raise e
  | Ok (JStr delta) =>
      match b64decode delta with
      | Raise e => Raise e
      | Ok decoded_bytes =>
          match frombuffer_int16 decoded_bytes with
          | Raise e => Raise e
          | Ok audio_int16 => Ok (normalize audio_int16)
          end
      end
  | Ok _ => Raise TypeError
  end.

(** [concat_audio_chunks] *)
Definition concat_audio_chunks (chunks : list ndarray) : result AudioInput :=
  match np_concatenate chunks with
  | Raise e => Raise e
  | Ok a => Ok (mkAudioInput a)
  end.

End Classifier.
Export Classifier.

(** ** The session: [WebsocketHelper] and [Workflow] ([audio_utils.py]) *)

Module Session.

(** An agent definition.  The session reads its [name] only; the
    instructions and tools are the runner's business. *)
Record Agent : Type := mkAgent { name : string }.

Definition job_tracking_agent : Agent := mkAgent "Job Application Tracker".

(** The payload of a raw response event: a text delta, or any other
    response event, given by its type string. *)
Inductive response_event : Type :=
| ResponseTextDeltaEvent (delta : string)
| ResponseOtherEvent (kind : string).

(** The events of [output.stream_events()].  A [RunItemStreamEvent] is
    given by the input item that [event.item.to_input_item()] returns. *)
Inductive StreamEvent : Type :=
| RawResponsesStreamEvent (data : response_event)
| RunItemStreamEvent (item : json)
| AgentUpdatedStreamEvent (new_agent : Agent).

(** What a streamed run of the agent runner shows to the session: the
    events it streams, the exception (if any) that ends the stream after
    them, and, once the stream is exhausted, [last_agent] and
    [to_input_list()]. *)
Record RunResultStreaming : Type := mkRun {
  stream_events : list StreamEvent;
  stream_failure : option exn;
  last_agent : Agent;
  to_input_list : list json;
}.

(** [Runner.run_streamed(agent, input)] *)
Definition Runner : Type := Agent -> json -> RunResultStreaming.

(** The events of [output.stream()] of the speech pipeline.  An audio
    event is given by the bytes of its array, [event.data.tobytes()]. *)
Inductive VoiceStreamEvent : Type :=
| VoiceStreamEventAudio (data : list byte)
| VoiceStreamEventLifecycle (event : string)
| VoiceStreamEventError (error : exn).

(** A socket, as the transcript of the frames sent on it, oldest first. *)
Definition WebSocket : Type := list json.

Record WebsocketHelper : Type := mkHelper {
  websocket : WebSocket;
  history : json;
  latest_agent : Agent;
  partial_response : string;
  audio_buffer : option (list ndarray) (* [None]: the attribute is not set *)
}.

Definition M : Type -> Type := ST WebsocketHelper.

Definition set_websocket (w : WebSocket) (c : WebsocketHelper) : WebsocketHelper :=
  mkHelper w (history c) (latest_agent c) (partial_response c) (audio_buffer c).
Definition set_history (h : json) (c : WebsocketHelper) : WebsocketHelper :=
  mkHelper (websocket c) h (latest_agent c) (partial_response c) (audio_buffer c).
Definition set_latest_agent (a : Agent) (c : WebsocketHelper) : WebsocketHelper :=
  mkHelper (websocket c) (history c) a (partial_response c) (audio_buffer c).
Definition set_partial_response (p : string) (c : WebsocketHelper) : WebsocketHelper :=
  mkHelper (websocket c) (history c) (latest_agent c) p (audio_buffer c).
Definition set_audio_buffer (b : option (list ndarray)) (c : WebsocketHelper) : WebsocketHelper :=
  mkHelper (websocket c) (history c) (latest_agent c) (partial_response c) b.

(** [WebsocketHelper.__init__]: [history or []], no audio buffer yet. *)
Definition new_helper (ws : WebSocket) (hist : json) (initial_agent : Agent) : WebsocketHelper :=
  mkHelper ws (if truthy hist then hist else JArr []) initial_agent "" None.

(** [await self.websocket.send_text(json.dumps(frame))] *)
Definition send_text (frame : json) : M unit :=
  modify (fun c => set_websocket (websocket c ++ [frame]) c).

Definition message_item (role : string) (content : json) : json :=
  JObj [("type", JStr "message"); ("role", JStr role); ("content", content)].

Definition history_updated (reason : string) (inputs : json) (agent : Agent) : json :=
  JObj [("type", JStr "history.updated"); ("reason", JStr reason);
        ("inputs", inputs); ("agent_name", JStr (name agent))].

(** [transform_data_to_events], on the bytes of the array *)
Definition transform_data_to_events (audio_bytes : list byte) : json :=
  JObj [("type", JStr "response.audio.delta");
        ("delta", JStr (b64encode audio_bytes));
        ("output_index", JNum 0); ("content_index", JNum 0);
        ("item_id", JStr ""); ("response_id", JStr ""); ("event_id", JStr "")].

Definition audio_done : json := JObj [("type", JStr "audio.done")].

Definition is_new_output_item (event : StreamEvent) : bool :=
  match event with RunItemStreamEvent _ => true | _ => false end.

Definition is_text_output (event : StreamEvent) : bool :=
  match event with
  | RawResponsesStreamEvent (ResponseTextDeltaEvent _) => true
  | _ => false
  end.

(** [event.item.to_input_item()] and [event.data.delta], read only after
    the tests above have passed. *)
Definition event_item (event : StreamEvent) : json :=
  match event with RunItemStreamEvent item => item | _ => JNull end.

Definition event_delta (event : StreamEvent) : string :=
  match event with
  | RawResponsesStreamEvent (ResponseTextDeltaEvent delta) => delta
  | _ => ""
  end.

Definition show_user_input (user_input : json) : M (json * Agent) :=
  do h <- gets history;
  do h' <- lift (append h (message_item "user" user_input));
  modify (set_history h') >>
  do agent <- gets latest_agent;
  send_text (history_updated "user.input" h' agent) >>
  ret (h', agent).

Definition stream_response (new_tokens : string) (is_text : bool) : M unit :=
  if is_text then ret tt
  else
    modify (fun c => set_partial_response (partial_response c ++ new_tokens) c) >>
    do h <- gets history;
    do partial <- gets partial_response;
    do inputs <- lift (add_list h [message_item "assistant" (JStr partial)]);
    do agent <- gets latest_agent;
    send_text (history_updated "response.text.delta" inputs agent).

Definition handle_new_item (event : StreamEvent) : M unit :=
  if is_new_output_item event then
    do h <- gets history;
    do h' <- lift (append h (event_item event));
    modify (set_history h') >>
    do agent <- gets latest_agent;
    send_text (history_updated "response.input_item" h' agent)
  else if is_text_output event then
    stream_response (event_delta event) false
  else ret tt.

Definition text_output_complete (output : RunResultStreaming) (is_done : bool) : M unit :=
  if negb is_done then
    do h <- gets history;
    do agent <- gets latest_agent;
    send_text (JObj [("type", JStr "history.updated"); ("inputs", h);
                     ("sync", JBool true); ("agent_name", JStr (name agent))])
  else
    modify (set_partial_response "") >>
    modify (set_latest_agent (last_agent output)) >>
    modify (set_history (JArr (to_input_list output))) >>
    do h <- gets history;
    do agent <- gets latest_agent;
    send_text (JObj [("type", JStr "history.updated"); ("inputs", h);
                     ("reason", JStr "response.done");
                     ("agent_name", JStr (name agent))]).

Definition send_audio_chunk (event : VoiceStreamEvent) : M unit :=
  match event with
  | VoiceStreamEventAudio data => send_text (transform_data_to_events data)
  | _ => ret tt
  end.

Definition send_audio_done : M unit := send_text audio_done.

(** [Workflow.run] is a generator.  [Workflow_run] is the loop
    [async for token in workflow.run(input_text): consume(token)]: the body
    [consume] runs at each [yield]; when it raises, the generator is not
    resumed. *)
Definition Workflow_run (runner : Runner) (consume : string -> M unit)
    (input_text : json) : M unit :=
  do '(conversation_history, agent) <- show_user_input input_text;
  let output := runner agent conversation_history in
  for_each (stream_events output) (fun event =>
    handle_new_item event >>
    if is_text_output event then consume (event_delta event) else ret tt) >>
  match stream_failure output with
  | Some e => raise e
  | None => text_output_complete output true
  end.

(** The same generator, resumed one [yield] at a time by a caller that is
    not a plain loop (the speech pipeline). *)
Inductive Workflow_state : Type :=
| Created (input_text : json)
| Streaming (output : RunResultStreaming) (pending : list StreamEvent)
| Exhausted.

Fixpoint Workflow_resume (output : RunResultStreaming) (pending : list StreamEvent)
    : M (option string * Workflow_state) :=
  match pending with
  | [] =>
      match stream_failure output with
      | Some e => raise e
      | None => text_output_complete output true >> ret (None, Exhausted)
      end
  | event :: rest =>
      handle_new_item event >>
      if is_text_output event
      then ret (Some (event_delta event), Streaming output rest)
      else Workflow_resume output rest
  end.

(** [await anext(generator)]: the token yielded, or [None] at the end. *)
Definition Workflow_next (runner : Runner) (g : Workflow_state)
    : M (option string * Workflow_state) :=
  match g with
  | Created input_text =>
      do '(conversation_history, agent) <- show_user_input input_text;
      let output := runner agent conversation_history in
      Workflow_resume output (stream_events output)
  | Streaming output pending => Workflow_resume output pending
  | Exhausted => ret (None, Exhausted)
  end.

(** *** Audio *)

(** [generate_audio_response], over the text-to-speech call
    [openai.audio.speech.create(...).content]. *)
Definition generate_audio_response (speech : string -> result (list byte))
    (text : string) : M unit :=
  try_except
    (do audio_data <- lift (speech text);
     send_text (transform_data_to_events audio_data) >>
     send_audio_done)
    (fun _ => send_audio_done).

Definition append_audio (delta : string) : M unit :=
  try_except
    (do audio_bytes <- lift (b64decode delta);
     do audio_np <- lift (frombuffer_int16 audio_bytes);
     modify (fun c => match audio_buffer c with
                      | None => set_audio_buffer (Some []) c
                      | Some _ => c
                      end) >>
     modify (fun c => set_audio_buffer
                        (Some (default [] (audio_buffer c) ++ [audio_np])) c))
    (fun _ => ret tt).

(** What the speech pipeline does with the session during one run.  It
    owns two activities: [output.stream()] hands events to the loop of
    [commit_audio] ([Deliver]), and a task of the pipeline resumes the
    generator [workflow.run(input_text)] on this same helper ([Resume]).
    The order of the two is the pipeline's; a schedule lists it. *)
Inductive pipeline_step : Type :=
| Deliver (event : VoiceStreamEvent)
| Resume.

Inductive PipelineRun : Type :=
| RunRaises (e : exn)
| RunStreams (input_text : string) (schedule : list pipeline_step)
             (failure : option exn).

(** [VoicePipeline(workflow, config).run(audio_input)] *)
Definition VoicePipeline : Type := AudioInput -> PipelineRun.

(** The state of [commit_audio]: the helper, and the inputs on which the
    pipeline has been run (a log kept for the proofs). *)
Definition Commit : Type -> Type := ST (WebsocketHelper * list AudioInput).

Definition on_helper {A} (m : M A) : Commit A :=
  zoom fst (fun c w => (c, snd w)) m.

Definition log_run (audio_input : AudioInput) : Commit unit :=
  modify (fun w => (fst w, snd w ++ [audio_input])).

(** [async for event in output.stream(): await self.send_audio_chunk(event)],
    with the pipeline's task running in between. *)
Fixpoint stream_loop (runner : Runner) (schedule : list pipeline_step)
    (g : Workflow_state) : M unit :=
  match schedule with
  | [] => ret tt
  | Deliver event :: rest =>
      send_audio_chunk event >> stream_loop runner rest g
  | Resume :: rest =>
      do '(_, g') <- Workflow_next runner g;
      stream_loop runner rest g'
  end.

Definition commit_audio_body (runner : Runner) (pipeline : VoicePipeline) : Commit unit :=
  do buf <- on_helper (gets audio_buffer);
  match buf with
  | None => ret tt
  | Some [] => ret tt
  | Some chunks =>
      try_except
        (do full_audio <- lift (np_concatenate chunks);
         let audio_input := mkAudioInput full_audio in
         log_run audio_input >>
         match pipeline audio_input with
         | RunRaises e => raise e
         | RunStreams input_text schedule failure =>
             on_helper (stream_loop runner schedule (Created (JStr input_text))) >>
             match failure with
             | Some e => raise e
             | None => on_helper (modify (set_audio_buffer (Some [])))
             end
         end)
        (fun _ =>
           on_helper (modify (fun c => match audio_buffer c with
                                       | Some _ => set_audio_buffer (Some []) c
                                       | None => c
                                       end)))
  end.

(** [commit_audio]; the value returned is the log of pipeline runs. *)
Definition commit_audio (runner : Runner) (pipeline : VoicePipeline)
    : M (list AudioInput) :=
  fun c =>
    match commit_audio_body runner pipeline (c, []) with
    | (Ok _, (c', runs)) => (Ok runs, c')
    | (Raise e, (c', _)) => (Raise e, c')
    end.

Definition update_history (inputs : json) (reset_agent : bool) : M unit :=
  try_except
    (modify (set_history inputs) >>
     (if reset_agent then modify (set_latest_agent job_tracking_agent) else ret tt) >>
     do h <- gets history;
     do agent <- gets latest_agent;
     send_text (history_updated "history.update" h agent))
    (fun _ => ret tt).

(** [process_inputs(data, connection)] *)
Definition process_inputs (data : json) : M json :=
  do inputs <- lift (getitem data "inputs");
  do preceding <- lift (slice_init inputs);
  modify (set_history preceding) >>
  do inputs <- lift (getitem data "inputs");
  do item <- lift (getitem_last inputs);
  lift (getitem item "content").

End Session.
Export Session.

(** ** The endpoint loop ([websocket_handler.py], lines 122-168) *)

Module Endpoint.

(** The locals of [websocket_endpoint]: the helper and the list of
    decoded chunks. *)
Record Endpoint : Type := mkEndpoint {
  connection : WebsocketHelper;
  endpoint_audio_buffer : list ndarray;
}.

Definition on_connection {A} (m : M A) : ST Endpoint A :=
  zoom connection (fun c st => mkEndpoint c (endpoint_audio_buffer st)) m.

Definition set_endpoint_audio_buffer (b : list ndarray) (st : Endpoint) : Endpoint :=
  mkEndpoint (connection st) b.

(** One turn of the [while True] loop, on the message received.  A raise
    leaves the loop: the handler logs it and returns. *)
Definition websocket_endpoint_step (runner : Runner) (pipeline : VoicePipeline)
    (message : json) : ST Endpoint unit :=
  do sync <- lift (is_sync_message message);
  if (sync : bool) then
    do inputs <- lift (getitem message "inputs");
    on_connection (modify (set_history inputs)) >>
    do reset <- lift (get_default message "reset_agent" (JBool false));
    if truthy reset
    then on_connection (modify (set_latest_agent job_tracking_agent))
    else ret tt
  else
    do new_text <- lift (is_new_text_message message);
    if truthy new_text then
      do user_input <- on_connection (process_inputs message);
      on_connection
        (Workflow_run runner
           (fun new_output_tokens => stream_response new_output_tokens true)
           user_input)
    else
      do new_chunk <- lift (is_new_audio_chunk message);
      if (new_chunk : bool) then
        do chunk <- lift (extract_audio_chunk message);
        modify (fun st => set_endpoint_audio_buffer (endpoint_audio_buffer st ++ [chunk]) st)
      else
        do complete <- lift (is_audio_complete message);
        if (complete : bool) then
          do buf <- gets endpoint_audio_buffer;
          on_connection (modify (set_audio_buffer (Some buf))) >>
          on_connection (commit_audio runner pipeline) >>
          modify (set_endpoint_audio_buffer [])
        else ret tt.

(** [websocket_endpoint] on the messages received before the client
    disconnects. *)
Definition websocket_endpoint (runner : Runner) (pipeline : VoicePipeline)
    (messages : list json) : result unit * Endpoint :=
  for_each messages (websocket_endpoint_step runner pipeline)
    (mkEndpoint (new_helper [] (JArr []) job_tracking_agent) []).

End Endpoint.
Export Endpoint.

(** ** [WebSocketManager] ([websocket_handler.py], lines 24-115)

    Logging is not modelled. *)

Module Manager.

Record WebSocketManager : Type := mkManager {
  active_connections : gmap string WebSocket;
  voice_pipelines : gmap string WebsocketHelper;
}.

(** [WebSocketManager.__init__] *)
Definition new_manager : WebSocketManager := mkManager ∅ ∅.

Definition set_active_connections (t : gmap string WebSocket) (m : WebSocketManager) :=
  mkManager t (voice_pipelines m).
Definition set_voice_pipelines (t : gmap string WebsocketHelper) (m : WebSocketManager) :=
  mkManager (active_connections m) t.

(** [connect]; [accept] is the outcome of [await websocket.accept()]. *)
Definition connect (accept : result unit) (websocket : WebSocket) (client_id : string)
    : ST WebSocketManager WebsocketHelper :=
  lift accept >>
  modify (fun m => set_active_connections (<[client_id := websocket]> (active_connections m)) m) >>
  let helper := new_helper websocket (JArr []) job_tracking_agent in
  modify (fun m => set_voice_pipelines (<[client_id := helper]> (voice_pipelines m)) m) >>
  ret helper.

Definition disconnect (client_id : string) : ST WebSocketManager unit :=
  modify (fun m =>
    if bool_decide (client_id ∈ dom (active_connections m))
    then set_active_connections (delete client_id (active_connections m)) m
    else m) >>
  modify (fun m =>
    if bool_decide (client_id ∈ dom (voice_pipelines m))
    then set_voice_pipelines (delete client_id (voice_pipelines m)) m
    else m).

(** [if client_id in self.voice_pipelines: helper = ...; await helper.m()]:
    the helper in the table is the object the method mutates. *)
Definition with_helper {A} (client_id : string) (m : M A) : ST WebSocketManager unit :=
  fun mgr =>
    match voice_pipelines mgr !! client_id with
    | None => (Ok tt, mgr)
    | Some helper =>
        match m helper with
        | (r, helper') =>
            (match r with Ok _ => Ok tt | Raise e => Raise e end,
             set_voice_pipelines (<[client_id := helper']> (voice_pipelines mgr)) mgr)
        end
    end.

(** [len(v)], as the log lines take it *)
Definition len (v : json) : result nat :=
  match v with
  | JStr s => Ok (String.length s)
  | JArr xs => Ok (length xs)
  | JObj fs => Ok (length fs)
  | _ => Raise TypeError
  end.

Definition _handle_history_update (client_id : string) (data : json)
    : ST WebSocketManager unit :=
  do inputs <- lift (get_default data "inputs" (JArr []));
  do reset_agent <- lift (get_default data "reset_agent" (JBool false));
  do _ <- lift (len inputs);
  with_helper client_id (update_history inputs (truthy reset_agent)).

Definition _handle_audio_append (client_id : string) (data : json)
    : ST WebSocketManager unit :=
  do delta <- lift (get_default data "delta" (JStr ""));
  do _ <- lift (len delta);
  match delta with
  | JStr s => with_helper client_id (append_audio s)
  | _ => ret tt   (* [b64decode] raises [TypeError] inside [append_audio] *)
  end.

Definition _handle_audio_commit (runner : Runner) (pipeline : VoicePipeline)
    (client_id : string) (data : json) : ST WebSocketManager unit :=
  with_helper client_id (commit_audio runner pipeline).

(** [handle_message], on the value of [json.loads(message)]; every
    exception is caught and logged. *)
Definition handle_message (runner : Runner) (pipeline : VoicePipeline)
    (client_id : string) (data : json) : ST WebSocketManager unit :=
  try_except
    (do message_type <- lift (get data "type");
     if eq_str message_type "history.update" then
       _handle_history_update client_id data
     else if eq_str message_type "input_audio_buffer.append" then
       _handle_audio_append client_id data
     else if eq_str message_type "input_audio_buffer.commit" then
       _handle_audio_commit runner pipeline client_id data
     else ret tt)
    (fun _ => ret tt).

End Manager.
Export Manager.

(** ** Lookup of an application by reference ([database.py], lines 44-64
    and 156-175)

    The collection [db.applications] is a list of documents in storage
    order.  An application document is given by the fields the lookup
    reads and the rest of its fields as they are serialized; an [ObjectId]
    is given by its lower-case hexadecimal string. *)

Module Database.

(** A naive [datetime], by its fields. *)
Record datetime : Type := mkDatetime {
  year : N; month : N; day : N;
  hour : N; minute : N; second : N; microsecond : N;
}.

(** The place of a [datetime] on the time line: the order of the store
    and of Python on dates is the order of these numbers. *)
Definition timeline (t : datetime) : Z :=
  let date := ((Z.of_N (year t) * 100 + Z.of_N (month t)) * 100
               + Z.of_N (day t))%Z in
  let time := ((Z.of_N (hour t) * 100 + Z.of_N (minute t)) * 100
               + Z.of_N (second t))%Z in
  ((date * 1000000 + time) * 1000000 + Z.of_N (microsecond t))%Z.

(** [n] in decimal, on [width] digits *)
Fixpoint zero_padded (width : nat) (n : N) : string :=
  match width with
  | O => EmptyString
  | S w =>
      zero_padded w (n / 10)%N ++
      String (ascii_of_N (48 + n mod 10)%N) EmptyString
  end.

(** [datetime.isoformat()] *)
Definition isoformat (t : datetime) : string :=
  zero_padded 4 (year t) ++ "-" ++ zero_padded 2 (month t) ++ "-" ++
  zero_padded 2 (day t) ++ "T" ++ zero_padded 2 (hour t) ++ ":" ++
  zero_padded 2 (minute t) ++ ":" ++ zero_padded 2 (second t) ++
  (if (microsecond t =? 0)%N then EmptyString
   else "." ++ zero_padded 6 (microsecond t)).

Record application : Type := mkApplication {
  _id : string;
  user_id : string;
  company : string;
  role_title : string;
  created_at : datetime;
  other_fields : list (string * json);
}.

Definition lower_ascii (c : ascii) : ascii :=
  let n := N_of_ascii c in
  if (65 <=? n)%N && (n <=? 90)%N then ascii_of_N (n + 32) else c.

Fixpoint lower (s : string) : string :=
  match s with
  | EmptyString => EmptyString
  | String c s' => String (lower_ascii c) (lower s')
  end.

Fixpoint starts_with (p t : string) : bool :=
  match p, t with
  | EmptyString, _ => true
  | String _ _, EmptyString => false
  | String a p', String b t' => Ascii.eqb a b && starts_with p' t'
  end.

(** [p in t] *)
Fixpoint contains (p t : string) : bool :=
  starts_with p t ||
  match t with
  | EmptyString => false
  | String _ t' => contains p t'
  end.

(** Case-insensitive substring test *)
Definition icontains (p t : string) : bool := contains (lower p) (lower t).

Definition DEFAULT_USER_ID : string := "507f1f77bcf86cd799439011".

Definition is_hex_digit (c : ascii) : bool :=
  contains (String c EmptyString) "0123456789abcdef".

Fixpoint all_chars (f : ascii -> bool) (s : string) : bool :=
  match s with
  | EmptyString => true
  | String c s' => f c && all_chars f s'
  end.

(** [get_user_id]; [None] is the default argument. *)
Definition get_user_id (uid : option string) : string :=
  match uid with
  | Some u =>
      if negb (String.eqb u "") && (String.length u =? 24)%nat
         && all_chars is_hex_digit (lower u)
      then u else DEFAULT_USER_ID
  | None => DEFAULT_USER_ID
  end.

(** [ObjectId(s)] for a valid [s] *)
Definition ObjectId (s : string) : string := lower s.

(** [find_one(filter, sort=[("created_at", -1)])]: the first document, in
    storage order, among the matching ones of greatest [created_at]. *)
Definition find_one (filter : application -> bool) (coll : list application)
    : option application :=
  fold_left
    (fun best d =>
       if filter d then
         match best with
         | None => Some d
         | Some b =>
             if (timeline (created_at b) <? timeline (created_at d))%Z
             then Some d else best
         end
       else best)
    coll None.

(** A fragment of the regular expressions of the store, enough to run the
    lookup: a pattern of literal characters and [.], which matches any
    character but a newline; matching is unanchored and ignores case. *)
Fixpoint wildcard_at (p t : string) : bool :=
  match p, t with
  | EmptyString, _ => true
  | String _ _, EmptyString => false
  | String a p', String b t' =>
      (if Ascii.eqb a "."%char
       then negb (Ascii.eqb b "010"%char)
       else Ascii.eqb (lower_ascii a) (lower_ascii b))
      && wildcard_at p' t'
  end.

Fixpoint wildcard_search (p t : string) : bool :=
  wildcard_at p t ||
  match t with
  | EmptyString => false
  | String _ t' => wildcard_search p t'
  end.

(** The fragment as an engine.  A pattern with a metacharacter other
    than [.] is outside the fragment, and this engine gives no matcher
    for it.  The patterns the store rejects, [(] for one, are among
    those; on the patterns of the fragment the engine is the store's. *)
Definition is_metacharacter (c : ascii) : bool :=
  contains (String c EmptyString) "\^$*+?()[]{}|".

Definition wildcard_regex (p : string) : option (string -> bool) :=
  if all_chars (fun c => negb (is_metacharacter c)) p
  then Some (wildcard_search p) else None.

Section Lookup.

(** [regex p]: the filter [{"$regex": p, "$options": "i"}] as the store
    compiles it when it parses the query.  [Some matches]: [p] is a
    regular expression, and [matches t] tells whether a field of value
    [t] passes the filter.  [None]: [p] is not one, and the store fails
    the query, whatever the collection holds; [find_one] then raises
    [pymongo.errors.OperationFailure]. *)
Variable regex : string -> option (string -> bool).

Definition serialize_document (doc : application) : json :=
  JObj ([("_id", JStr (_id doc)); ("user_id", JStr (user_id doc));
         ("company", JStr (company doc)); ("role_title", JStr (role_title doc));
         ("created_at", JStr (isoformat (created_at doc)))]
        ++ other_fields doc).

Definition find_application_by_reference (coll : list application)
    (application_ref : string) (uid : option string) : result (option json) :=
  let valid_user_id := get_user_id uid in
  match regex application_ref with
  | None => Raise OperationFailure
  | Some matches =>
      match find_one (fun d => String.eqb (user_id d) (ObjectId valid_user_id)
                               && matches (company d)) coll with
      | Some doc => Ok (Some (serialize_document doc))
      | None =>
          match find_one (fun d => String.eqb (user_id d) (ObjectId valid_user_id)
                                   && matches (role_title d)) coll with
          | Some doc => Ok (Some (serialize_document doc))
          | None => Ok None
          end
      end
  end.

End Lookup.

End Database.
Export Database.

(** ** The text fallback ([audio_utils.py], lines 218-246) *)

Module Fallback.

Definition fallback_text (user_input : string) : string :=
  "I heard you say: '" ++ user_input ++
  "'. I'm a job application tracking assistant. How can I help you with your job search?".

(** [send_fallback_response], over the same text-to-speech call as
    [generate_audio_response]. *)
Definition send_fallback_response (speech : string -> result (list byte))
    (user_input : string) : M unit :=
  try_except
    (let response_text := fallback_text user_input in
     let assistant_message := message_item "assistant" (JStr response_text) in
     do h <- gets history;
     do h' <- lift (append h assistant_message);
     modify (set_history h') >>
     do agent <- gets latest_agent;
     send_text (history_updated "assistant.text_response" h' agent) >>
     generate_audio_response speech response_text)
    (fun _ => ret tt).

End Fallback.
Export Fallback.

(** ** The function tools of the agent and the write path of the store
    ([agent_config.py], lines 39-218; [database.py], lines 60-221)

    The document store, the clock and the libraries are outside the
    repository.  What the code asks of the store and of the clock is a
    [request]; the state of a computation is the list of the requests
    made so far, oldest first, and the answers are given by [reply], which
    may depend on all of them.  An [ObjectId] and a [datetime] are the
    values the libraries return for them.  A Python function is given
    with its parameter list, and a call binds its arguments as Python
    does.  [json.dumps(d)] is given by [d]. *)

Module Tools.

Inductive exception : Type :=
| Builtin (e : exn)
| Exception (message : string)
| LibraryError (class message : string).

Inductive outcome (A : Type) : Type :=
| Returns (a : A)
| Raises (e : exception).
Arguments Returns {A} a.
Arguments Raises {A} e.

Inductive request : Type :=
| utcnow
| find_one (collection : string) (filter : json)
| insert_one (collection : string) (document : json)
| update_one (collection : string) (filter update : json).

Record World : Type := mkWorld {
  (** the answer of the store or of the clock to a request, after the
      requests [log]: the document found or [None], the [inserted_id], the
      [modified_count], the time *)
  reply : list request -> request -> outcome json;
  (** [bson.ObjectId(v)] *)
  ObjectId : json -> outcome json;
  (** [datetime.fromisoformat(s)] *)
  fromisoformat : string -> outcome json;
  (** [t + timedelta(days=n)] *)
  plus_days : json -> Z -> json;
  (** [s.lower().strip()] *)
  lower_strip : string -> string;
  (** [str(v)] for a value that is not a string *)
  str : json -> string;
  (** [str(e)] for an exception other than [Exception(message)] *)
  describe : exception -> string;
}.

Definition Eff (A : Type) : Type := list request -> outcome A * list request.

Definition ret {A} (a : A) : Eff A := fun log => (Returns a, log).

Definition bind {A B} (m : Eff A) (k : A -> Eff B) : Eff B :=
  fun log =>
    match m log with
    | (Returns a, log') => k a log'
    | (Raises e, log') => (Raises e, log')
    end.

Definition raise {A} (e : exception) : Eff A := fun log => (Raises e, log).

(** A pure expression of the modules above *)
Definition lift {A} (r : result A) : Eff A :=
  fun log => (match r with Ok a => Returns a | Raise e => Raises (Builtin e) end, log).

(** A call into a library *)
Definition library {A} (r : outcome A) : Eff A := fun log => (r, log).

(** [try: m  except Exception as e: h(e)] *)
Definition try_except {A} (m : Eff A) (h : exception -> Eff A) : Eff A :=
  fun log =>
    match m log with
    | (Returns a, log') => (Returns a, log')
    | (Raises e, log') => h e log'
    end.

Declare Scope eff_scope.
Delimit Scope eff_scope with eff.
Notation "'do' x <- m ; k" := (bind m (fun x => k))
  (at level 10, x name, m at level 100, k at level 200) : eff_scope.
Notation "m >> k" := (bind m (fun _ => k))
  (at level 100, k at level 200, right associativity) : eff_scope.
Local Open Scope eff_scope.

(** *** Dictionaries *)

Fixpoint set_field (k : string) (v : json) (fs : list (string * json))
    : list (string * json) :=
  match fs with
  | [] => [(k, v)]
  | (k', v') :: fs' =>
      if String.eqb k' k then (k, v) :: fs' else (k', v') :: set_field k v fs'
  end.

(** [d[k] = v] *)
Definition setitem (d : json) (k : string) (v : json) : result json :=
  match d with
  | JObj fs => Ok (JObj (set_field k v fs))
  | _ => Raise TypeError
  end.

(** [k in d], for a dictionary [d] *)
Definition has_key (d : json) (k : string) : bool :=
  match d with
  | JObj fs => match assoc k fs with Some _ => true | None => false end
  | _ => false
  end.

(** *** Calls *)

Definition signature : Type := list (string * option json).

Record function : Type := def {
  parameters : signature;
  body : (string -> json) -> Eff json;
}.

(** The positional arguments go to the first parameters; more of them
    than parameters is an error. *)
Fixpoint bind_positional (params : signature) (args : list json)
    : option (list (string * json) * signature) :=
  match args, params with
  | [], _ => Some ([], params)
  | a :: args', (p, _) :: params' =>
      match bind_positional params' args' with
      | Some (bound, rest) => Some ((p, a) :: bound, rest)
      | None => None
      end
  | _ :: _, [] => None
  end.

(** The parameters left take the keyword argument of their name, or
    their default value; one with neither is an error. *)
Fixpoint bind_rest (rest : signature) (kwargs : list (string * json))
    : option (list (string * json)) :=
  match rest with
  | [] => Some []
  | (p, dflt) :: rest' =>
      match (match assoc p kwargs with Some v => Some v | None => dflt end),
            bind_rest rest' kwargs with
      | Some v, Some bound => Some ((p, v) :: bound)
      | _, _ => None
      end
  end.

(** A keyword argument must name a parameter that no positional
    argument has taken. *)
Definition bind_arguments (params : signature) (args : list json)
    (kwargs : list (string * json)) : option (list (string * json)) :=
  match bind_positional params args with
  | None => None
  | Some (bound, rest) =>
      if forallb (fun kw => existsb (String.eqb (fst kw)) (map fst rest)) kwargs
      then match bind_rest rest kwargs with
           | Some bound' => Some (bound ++ bound')
           | None => None
           end
      else None
  end.

(** A call of [f] on positional and keyword arguments, already evaluated *)
Definition call (f : function) (args : list json) (kwargs : list (string * json))
    : Eff json :=
  match bind_arguments (parameters f) args kwargs with
  | Some bound => body f (fun p => default JNull (assoc p bound))
  | None => raise (Builtin TypeError)
  end.

(** [get_user_id], on any value: [len] of a number is an error, and so
    is [lower] of a list or dictionary of 24 entries. *)
Definition get_user_id (user_id : json) : result string :=
  match user_id with
  | JNull => Ok DEFAULT_USER_ID
  | JStr s => Ok (Database.get_user_id (Some s))
  | JBool b => if b then Raise TypeError else Ok DEFAULT_USER_ID
  | JNum n => if (n =? 0)%Z then Ok DEFAULT_USER_ID else Raise TypeError
  | JArr xs => if (length xs =? 24)%nat then Raise AttributeError else Ok DEFAULT_USER_ID
  | JObj fs => if (length fs =? 24)%nat then Raise AttributeError else Ok DEFAULT_USER_ID
  end.

(** [s.replace('Z', '+00:00')] *)
Fixpoint replace_Z (s : string) : string :=
  match s with
  | EmptyString => EmptyString
  | String c s' =>
      if Ascii.eqb c "Z"%char then "+00:00" ++ replace_Z s' else String c (replace_Z s')
  end.

Section World.

Variable w : World.

Definition ask (r : request) : Eff json := fun log => (reply w log r, log ++ [r]).

(** [str(v)] *)
Definition py_str (v : json) : string :=
  match v with
  | JStr s => s
  | _ => str w v
  end.

(** [str(e)] *)
Definition str_exception (e : exception) : string :=
  match e with
  | Exception message => message
  | _ => describe w e
  end.

(** [v.lower().strip()] *)
Definition normalized (v : json) : result string :=
  match v with
  | JStr s => Ok (lower_strip w s)
  | _ => Raise AttributeError
  end.

(** [t - timedelta(days=days)] *)
Definition minus_days (t days : json) : result json :=
  match days with
  | JNum n => Ok (plus_days w t (- n))
  | JBool b => Ok (plus_days w t (if b then -1 else 0))
  | _ => Raise TypeError
  end.

(** *** [database.py] *)

Definition create_application : function :=
  def [("app_data", None)]
    (fun locals =>
       let app_data := locals "app_data" in
       do now <- ask utcnow;
       do app_data <- lift (setitem app_data "created_at" now);
       do now <- ask utcnow;
       do app_data <- lift (setitem app_data "updated_at" now);
       do app_data <-
         (if negb (has_key app_data "status_stage")
          then lift (setitem app_data "status_stage" (JStr "draft"))
          else ret app_data);
       do inserted_id <- ask (insert_one "applications" app_data);
       ret (JStr (py_str inserted_id))).

Definition find_recent_application : function :=
  def [("user_id", None); ("company_norm", None); ("role_title_norm", None);
       ("days", Some (JNum 14))]
    (fun locals =>
       do now <- ask utcnow;
       do threshold_date <- lift (minus_days now (locals "days"));
       do oid <- library (ObjectId w (locals "user_id"));
       ask (find_one "applications"
              (JObj [("user_id", oid);
                     ("company_norm", locals "company_norm");
                     ("role_title_norm", locals "role_title_norm");
                     ("created_at", JObj [("$gte", threshold_date)])]))).

Definition update_application : function :=
  def [("app_id", None); ("update_data", None); ("user_id", None)]
    (fun locals =>
       do now <- ask utcnow;
       do update_data <- lift (setitem (locals "update_data") "updated_at" now);
       do app_oid <- library (ObjectId w (locals "app_id"));
       do user_oid <- library (ObjectId w (locals "user_id"));
       do modified_count <-
         ask (update_one "applications"
                (JObj [("_id", app_oid); ("user_id", user_oid)])
                (JObj [("$set", update_data)]));
       match modified_count with
       | JNum n => ret (JBool (0 <? n)%Z)
       | JBool b => ret (JBool b)
       | _ => raise (Builtin TypeError)
       end).

Definition update_application_status : function :=
  def [("app_id", None); ("status_stage", None); ("user_id", None)]
    (fun locals =>
       call update_application
         [locals "app_id"; JObj [("status_stage", locals "status_stage")];
          locals "user_id"] []).

Definition create_application_with_dedup : function :=
  def [("application_data", None); ("user_id", Some JNull)]
    (fun locals =>
       let application_data := locals "application_data" in
       try_except
         (do valid_user_id <- lift (get_user_id (locals "user_id"));
          do company <- lift (getitem application_data "company");
          do company_norm <- lift (normalized company);
          do role_title <- lift (getitem application_data "role_title");
          do role_title_norm <- lift (normalized role_title);
          do recent_app <-
            call find_recent_application []
              [("user_id", JStr valid_user_id); ("company_norm", JStr company_norm);
               ("role_title_norm", JStr role_title_norm); ("days", JNum 14)];
          if truthy recent_app then
            do app_id <- lift (getitem recent_app "_id");
            do updated_app <-
              call update_application []
                [("app_id", app_id); ("updates", application_data);
                 ("user_id", JStr valid_user_id)];
            do app_id <- lift (getitem recent_app "_id");
            ret (JObj [("application_id", JStr (py_str app_id));
                       ("message",
                        JStr ("Updated existing " ++ role_title_norm ++
                              " position at " ++ company_norm));
                       ("updated", JBool true)])
          else
            do app_data <- lift (setitem application_data "company_norm" (JStr company_norm));
            do app_data <- lift (setitem app_data "role_title_norm" (JStr role_title_norm));
            do oid <- library (ObjectId w (JStr valid_user_id));
            do app_data <- lift (setitem app_data "user_id" oid);
            do app_id <- call create_application [app_data] [];
            ret (JObj [("application_id", JStr (py_str app_id));
                       ("message",
                        JStr ("Added " ++ role_title_norm ++ " position at " ++ company_norm));
                       ("updated", JBool false)]))
         (fun e => raise (Exception ("Failed to create application: " ++ str_exception e)))).

Definition add_note_to_application : function :=
  def [("application_id", None); ("content", None); ("user_id", Some JNull)]
    (fun locals =>
       do valid_user_id <- lift (get_user_id (locals "user_id"));
       do app_oid <- library (ObjectId w (locals "application_id"));
       do user_oid <- library (ObjectId w (JStr valid_user_id));
       do now <- ask utcnow;
       do inserted_id <-
         ask (insert_one "notes"
                (JObj [("application_id", app_oid); ("user_id", user_oid);
                       ("content", locals "content"); ("created_at", now)]));
       ret (JStr (py_str inserted_id))).

(** The [due_date] of [schedule_followup]: the date parsed, or, when
    anything in that fails, a date counted from now. *)
Definition due_date (due_at : json) : Eff json :=
  try_except
    (match due_at with
     | JStr s => library (fromisoformat w (replace_Z s))
     | _ => raise (Builtin AttributeError)
     end)
    (fun _ =>
       match due_at with
       | JStr s =>
           if contains "next" (lower s) && contains "friday" (lower s) then
             do now <- ask utcnow; ret (plus_days w now 7)
           else if contains "tomorrow" (lower s) then
             do now <- ask utcnow; ret (plus_days w now 1)
           else
             do now <- ask utcnow; ret (plus_days w now 7)
       | _ => raise (Builtin AttributeError)
       end).

Definition schedule_followup : function :=
  def [("application_id", None); ("due_at", None); ("channel", None);
       ("user_id", Some JNull); ("note", Some JNull)]
    (fun locals =>
       do valid_user_id <- lift (get_user_id (locals "user_id"));
       do due_date <- due_date (locals "due_at");
       do app_oid <- library (ObjectId w (locals "application_id"));
       do user_oid <- library (ObjectId w (JStr valid_user_id));
       do created_at <- ask utcnow;
       do updated_at <- ask utcnow;
       let followup_data :=
         [("application_id", app_oid); ("user_id", user_oid); ("due_at", due_date);
          ("channel", locals "channel"); ("status", JStr "pending");
          ("created_at", created_at); ("updated_at", updated_at)] in
       let followup_data :=
         if truthy (locals "note")
         then set_field "note" (locals "note") followup_data
         else followup_data in
       do inserted_id <- ask (insert_one "followups" (JObj followup_data));
       ret (JStr (py_str inserted_id))).

(** *** [agent_config.py] *)

(** [find_application_by_reference(application_ref)], embedded in
    [Database]; here, any computation. *)
Variable find_application_by_reference : json -> Eff json.

Definition failure (message : string) : json :=
  JObj [("success", JBool false); ("error", JStr message)].

Definition not_found (application_ref : json) : json :=
  failure ("No application found for '" ++ py_str application_ref ++ "'").

Definition add_job_application
    (company role_title location source job_post_url status_stage salary_min
     salary_max currency remote_ok skills_required job_posted_date due_at channel
     note : json) : Eff json :=
  try_except
    (let app_data :=
       JObj [("company", company); ("role_title", role_title); ("location", location);
             ("source", source); ("job_post_url", job_post_url);
             ("status_stage", status_stage); ("salary_min", salary_min);
             ("salary_max", salary_max); ("currency", currency);
             ("remote_ok", remote_ok);
             ("skills_required",
              if truthy skills_required then skills_required else JArr []);
             ("job_posted_date", job_posted_date)] in
     do result <- call create_application_with_dedup [app_data] [];
     (if truthy note then
        do application_id <- lift (getitem result "application_id");
        call add_note_to_application [application_id; note] []
      else ret JNull) >>
     (if truthy due_at && truthy channel then
        do application_id <- lift (getitem result "application_id");
        call schedule_followup [application_id; due_at; channel] []
      else ret JNull) >>
     do message <- lift (getitem result "message");
     do application_id <- lift (getitem result "application_id");
     do updated <- lift (get_default result "updated" (JBool false));
     ret (JObj [("success", JBool true); ("message", message);
                ("application_id", application_id); ("updated", updated)]))
    (fun e => ret (failure (str_exception e))).

Definition update_application_status_by_reference
    (application_ref status_stage : json) : Eff json :=
  try_except
    (do application <- find_application_by_reference application_ref;
     if negb (truthy application) then ret (not_found application_ref)
     else
       do app_id <- lift (getitem application "_id");
       do success <-
         call update_application_status [JStr (py_str app_id); status_stage] [];
       if truthy success then
         do company <- lift (getitem application "company");
         do role_title <- lift (getitem application "role_title");
         do app_id <- lift (getitem application "_id");
         ret (JObj [("success", JBool true);
                    ("message",
                     JStr ("Status updated to " ++ py_str status_stage ++ " for " ++
                           py_str company ++ " " ++ py_str role_title));
                    ("application_id", JStr (py_str app_id))])
       else ret (failure "Failed to update application status"))
    (fun e => ret (failure (str_exception e))).

Definition add_note_to_application_by_reference (application_ref note : json)
    : Eff json :=
  try_except
    (do application <- find_application_by_reference application_ref;
     if negb (truthy application) then ret (not_found application_ref)
     else
       do app_id <- lift (getitem application "_id");
       do note_id <- call add_note_to_application [JStr (py_str app_id); note] [];
       do company <- lift (getitem application "company");
       do role_title <- lift (getitem application "role_title");
       do app_id <- lift (getitem application "_id");
       ret (JObj [("success", JBool true);
                  ("message",
                   JStr ("Note added for " ++ py_str company ++ " " ++ py_str role_title));
                  ("application_id", JStr (py_str app_id));
                  ("note_id", note_id)]))
    (fun e => ret (failure (str_exception e))).

Definition schedule_followup_by_reference (application_ref due_at channel note : json)
    : Eff json :=
  try_except
    (do application <- find_application_by_reference application_ref;
     if negb (truthy application) then ret (not_found application_ref)
     else
       do app_id <- lift (getitem application "_id");
       do followup_id <-
         call schedule_followup [JStr (py_str app_id); due_at; channel; note] [];
       do company <- lift (getitem application "company");
       do app_id <- lift (getitem application "_id");
       ret (JObj [("success", JBool true);
                  ("message",
                   JStr ("Follow-up scheduled for " ++ py_str company ++ " on " ++
                         py_str due_at));
                  ("application_id", JStr (py_str app_id));
                  ("followup_id", followup_id)]))
    (fun e => ret (failure (str_exception e))).

End World.

End Tools.

(** ** Language detection ([language_detection.py], lines 11-16, 54-105
    and 128-143)

    The regular expressions of [LANGUAGE_PATTERNS] are matched by the
    library; [findall lang_code text] is the number of matches of the
    pattern of [lang_code] in [text], an input here. *)

Module Language.

(** The keys of [LANGUAGE_PATTERNS], in the order of the dictionary *)
Definition LANGUAGE_CODES : list string := ["es"; "fr"; "de"; "en"].

(** [max(d, key=d.get)]: the first key, in the order of the dictionary,
    among those of greatest value *)
Fixpoint max_key (scores : list (string * nat)) : option (string * nat) :=
  match scores with
  | [] => None
  | (k, v) :: rest =>
      match max_key rest with
      | Some (k', v') => if (v <? v')%nat then Some (k', v') else Some (k, v)
      | None => Some (k, v)
      end
  end.

Definition detect_language (findall : string -> string -> nat) (text : json) : string :=
  match text with
  | JStr s =>
      if String.eqb s "" then "en"
      else
        let language_scores :=
          map (fun lang_code => (lang_code, findall lang_code s)) LANGUAGE_CODES in
        match max_key language_scores with
        | Some (detected_language, score) =>
            if (2 <=? score)%nat then detected_language else "en"
        | None => "en"
        end
  | _ => "en"
  end.

(** [get_voice_for_language(language)] and
    [is_language_supported(language)], with no configuration given *)
Definition default_voices : list (string * string) :=
  [("en", "alloy"); ("es", "nova"); ("fr", "echo"); ("de", "onyx")].

Fixpoint lookup_voice (language : string) (voices : list (string * string))
    : option string :=
  match voices with
  | [] => None
  | (k, v) :: rest => if String.eqb k language then Some v else lookup_voice language rest
  end.

Definition get_voice_for_language (language : string) : string :=
  default "alloy" (lookup_voice language default_voices).

Definition is_language_supported (language : string) : bool :=
  existsb (String.eqb language) ["en"; "es"; "fr"; "de"].

End Language.
Export Language.

(** ** Time ranges of a search ([database.py], lines 251-278)

    [datetime] and [timedelta] are the library's; what [get_time_range]
    uses of them is written out on the fields of a [datetime].  A date
    that leaves the years 1 to 9999 is an [OverflowError], given as
    [None]. *)

Module TimeRange.

Local Open Scope N_scope.

Definition is_leap (y : N) : bool :=
  (y mod 4 =? 0) && (negb (y mod 100 =? 0) || (y mod 400 =? 0)).

Definition days_in_month (y m : N) : N :=
  if m =? 2 then (if is_leap y then 29 else 28)
  else if (m =? 4) || (m =? 6) || (m =? 9) || (m =? 11) then 30
  else 31.

Definition set_date (y m d : N) (t : datetime) : datetime :=
  mkDatetime y m d (hour t) (minute t) (second t) (microsecond t).

(** [t.replace(day=1)] *)
Definition first_of_month (t : datetime) : datetime :=
  set_date (year t) (month t) 1 t.

(** [t.replace(hour=0, minute=0, second=0, microsecond=0)] *)
Definition midnight (t : datetime) : datetime :=
  mkDatetime (year t) (month t) (day t) 0 0 0 0.

(** [t + timedelta(days=1)] and [t - timedelta(days=1)] *)
Definition next_day (t : datetime) : option datetime :=
  if day t <? days_in_month (year t) (month t)
  then Some (set_date (year t) (month t) (day t + 1) t)
  else if month t <? 12 then Some (set_date (year t) (month t + 1) 1 t)
  else if year t <? 9999 then Some (set_date (year t + 1) 1 1 t)
  else None.

Definition prev_day (t : datetime) : option datetime :=
  if 1 <? day t then Some (set_date (year t) (month t) (day t - 1) t)
  else if 1 <? month t
  then Some (set_date (year t) (month t - 1) (days_in_month (year t) (month t - 1)) t)
  else if 1 <? year t then Some (set_date (year t - 1) 12 31 t)
  else None.

(** [t + timedelta(days=n)] and [t - timedelta(days=n)], for [n >= 0] *)
Fixpoint plus_days (n : nat) (t : datetime) : option datetime :=
  match n with
  | O => Some t
  | S n' => match next_day t with Some t' => plus_days n' t' | None => None end
  end.

Fixpoint minus_days (n : nat) (t : datetime) : option datetime :=
  match n with
  | O => Some t
  | S n' => match prev_day t with Some t' => minus_days n' t' | None => None end
  end.

(** [t.toordinal()]: the days from 0001-01-01, which is day 1 *)
Definition days_before_year (y : N) : Z :=
  let y := (Z.of_N y - 1)%Z in
  (y * 365 + y / 4 - y / 100 + y / 400)%Z.

Definition days_before_month (y m : N) : Z :=
  let leap_day := if (2 <? m) && is_leap y then 1%Z else 0%Z in
  (nth (N.to_nat m) [-1; 0; 31; 59; 90; 120; 151; 181; 212; 243; 273; 304; 334] 0
   + leap_day)%Z.

Definition toordinal (t : datetime) : Z :=
  (days_before_year (year t) + days_before_month (year t) (month t) + Z.of_N (day t))%Z.

(** [t.weekday()]: Monday is 0 *)
Definition weekday (t : datetime) : nat := Z.to_nat ((toordinal t + 6) mod 7).

(** [get_time_range(time_range)], at the time [now] that [utcnow()]
    returns *)
Definition get_time_range (time_range : json) (now : datetime)
    : option (datetime * datetime) :=
  if eq_str time_range "last_week" then
    match minus_days (weekday now + 7) now with
    | Some start =>
        let start := midnight start in
        match plus_days 7 start with
        | Some end_ => Some (start, end_)
        | None => None
        end
    | None => None
    end
  else if eq_str time_range "this_week" then
    match minus_days (weekday now) now with
    | Some start =>
        let start := midnight start in
        match plus_days 7 start with
        | Some end_ => Some (start, end_)
        | None => None
        end
    | None => None
    end
  else if eq_str time_range "last_month" then
    match minus_days 1 (first_of_month now) with
    | Some start => Some (first_of_month start, first_of_month now)
    | None => None
    end
  else if eq_str time_range "this_month" then
    let start := first_of_month now in
    match plus_days 32 start with
    | Some end_ => Some (start, first_of_month end_)
    | None => None
    end
  else
    match minus_days 7 now with
    | Some start => Some (start, now)
    | None => None
    end.

End TimeRange.
Export TimeRange.

(** * Vocabulary of the properties *)

(** ** Frames on the wire *)

(** The [type] of a frame, and the [reason] of a [history.updated] frame. *)
Definition frame_type (f : json) : option string :=
  match getitem f "type" with
  | Ok (JStr t) => Some t
  | _ => None
  end.

Definition frame_reason (f : json) : option string :=
  match getitem f "type", getitem f "reason" with
  | Ok t, Ok (JStr r) => if eq_str t "history.updated" then Some r else None
  | _, _ => None
  end.

Definition tagged (reason : string) (f : json) : bool :=
  match frame_reason f with
  | Some r => String.eqb r reason
  | None => false
  end.

Fixpoint count_if {A} (p : A -> bool) (l : list A) : nat :=
  match l with
  | [] => 0
  | x :: l' => (if p x then 1 else 0) + count_if p l'
  end.

(** The frame the done branch of [text_output_complete] sends. *)
Definition done_frame (output : RunResultStreaming) : json :=
  JObj [("type", JStr "history.updated"); ("inputs", JArr (to_input_list output));
        ("reason", JStr "response.done");
        ("agent_name", JStr (name (last_agent output)))].

(** A frame other than the closing frame of an audio response. *)
Definition not_audio_done (f : json) : Prop := frame_type f <> Some "audio.done".

(** ** Effects on the session *)

(** What [handle_new_item] does to a helper whose history is the list [h]. *)
Definition event_effect (event : StreamEvent) (h : list json) (s : WebsocketHelper)
    : WebsocketHelper :=
  if is_new_output_item event then
    set_websocket
      (websocket s ++
         [history_updated "response.input_item"
            (JArr (h ++ [event_item event])) (latest_agent s)])
      (set_history (JArr (h ++ [event_item event])) s)
  else if is_text_output event then
    set_websocket
      (websocket s ++
         [history_updated "response.text.delta"
            (JArr (h ++ [message_item "assistant"
                           (JStr (partial_response s ++ event_delta event))]))
            (latest_agent s)])
      (set_partial_response (partial_response s ++ event_delta event) s)
  else s.

(** A loop body that does nothing to the helper: the text-to-speech side
    of the pipeline, or [stream_response(token, is_text=True)]. *)
Definition inert (consume : string -> M unit) : Prop :=
  forall token s, consume token s = (Ok tt, s).

(** The four fields of the session state. *)
Definition same_session (s s' : WebsocketHelper) : Prop :=
  history s' = history s /\
  latest_agent s' = latest_agent s /\
  partial_response s' = partial_response s /\
  audio_buffer s' = audio_buffer s.

(** The chunks waiting in the buffer; an attribute that is not set holds
    none, as the guard of [commit_audio] reads it. *)
Definition buffered (c : WebsocketHelper) : list ndarray :=
  default [] (audio_buffer c).

(** base64 to samples of 16-bit signed PCM *)
Definition decode_pcm16 (delta : string) : result (list Z) :=
  match b64decode delta with
  | Raise e => Raise e
  | Ok audio_bytes =>
      match int16_samples audio_bytes with
      | Some samples => Ok samples
      | None => Raise ValueError
      end
  end.

(** The range of a 16-bit signed sample. *)
Definition in_int16 (v : Z) : Prop := (-32768 <= v <= 32767)%Z.

(** The chunks of a run of appended deltas that decode, in the order
    they came. *)
Fixpoint decoded_chunks (deltas : list string) : list ndarray :=
  match deltas with
  | [] => []
  | delta :: rest =>
      match decode_pcm16 delta with
      | Ok samples => Int16Array samples :: decoded_chunks rest
      | Raise _ => decoded_chunks rest
      end
  end.

(** ** Relations between the states before and after *)

(** Every run of [m] takes a state to an [R]-related one, whether it
    returns or raises. *)
Definition steps {S : Type} (R : relation S) {A : Type} (m : ST S A) : Prop :=
  forall s, R s (snd (m s)).

(** A relation on helpers that the turn driver and the audio stream
    respect: it is a preorder, it relates a helper to the one with a new
    history, partial response or agent, and to the one with one more
    [history.updated] or [response.audio.delta] frame sent. *)
Class SessionFrame (R : relation WebsocketHelper) : Prop := {
  sf_preorder :: PreOrder R;
  sf_history : forall h s, R s (set_history h s);
  sf_partial : forall p s, R s (set_partial_response p s);
  sf_agent : forall a s, R s (set_latest_agent a s);
  sf_send : forall f s,
    frame_type f = Some "history.updated" \/ frame_type f = Some "response.audio.delta" ->
    R s (set_websocket (websocket s ++ [f]) s);
}.

(** The turn driver and the audio stream leave the audio buffer alone. *)
Definition same_audio_buffer : relation WebsocketHelper :=
  fun s s' => audio_buffer s' = audio_buffer s.

(** The frames sent from [s] to [s'] all satisfy [P]. *)
Definition sends_only (P : json -> Prop) : relation WebsocketHelper :=
  fun s s' => exists fs, websocket s' = websocket s ++ fs /\ Forall P fs.

(** ** The operations of the manager *)

Inductive manager_op : Type :=
| OpConnect (accept : result unit) (websocket : WebSocket) (client_id : string)
| OpDisconnect (client_id : string)
| OpMessage (runner : Runner) (pipeline : VoicePipeline) (client_id : string)
            (data : json).

Definition run_op (op : manager_op) (m : WebSocketManager) : WebSocketManager :=
  match op with
  | OpConnect accept websocket client_id => exec (connect accept websocket client_id) m
  | OpDisconnect client_id => exec (disconnect client_id) m
  | OpMessage runner pipeline client_id data =>
      exec (handle_message runner pipeline client_id data) m
  end.

(** The manager after [__init__] and the operations [ops], in order. *)
Definition run_ops (ops : list manager_op) : WebSocketManager :=
  fold_left (fun m op => run_op op m) ops new_manager.

Definition same_keys (m : WebSocketManager) : Prop :=
  dom (active_connections m) = dom (voice_pipelines m).

(** An operation that changes the keys of neither table. *)
Definition keys_kept : relation WebSocketManager :=
  fun m m' =>
    dom (active_connections m') = dom (active_connections m) /\
    dom (voice_pipelines m') = dom (voice_pipelines m).

(** ** Lookup *)

(** [d] is a most recent match of [filter] in [coll]. *)
Definition most_recent_match (filter : application -> bool)
    (coll : list application) (d : application) : Prop :=
  In d coll /\ filter d = true /\
  forall d', In d' coll -> filter d' = true ->
    (timeline (created_at d') <= timeline (created_at d))%Z.

(** A pattern with no [.] in it. *)
Fixpoint literal (p : string) : bool :=
  match p with
  | EmptyString => true
  | String a p' => negb (Ascii.eqb a "."%char) && literal p'
  end.

(** The documents of the caller. *)
Definition owned_by (uid : option string) (d : application) : bool :=
  String.eqb (user_id d) (ObjectId (get_user_id uid)).

(** ** Turns, frames and clients, in full *)

(** 1 for [True], 0 for [False] *)
Definition as_count (b : bool) : nat := if b then 1 else 0.

(** [m] is an append message that carries the base64 text [delta]. *)
Definition chunk_message (m : json) (delta : string) : Prop :=
  getitem m "type" = Ok (JStr "input_audio_buffer.append") /\
  getitem m "delta" = Ok (JStr delta).

(** The floating-point chunk of 16-bit samples. *)
Definition float_chunk (samples : list Z) : ndarray :=
  Float32Array (map (fun v => inject_Z v / 32768)%Q samples).

(** ["".join(parts)] *)
Definition joined (parts : list string) : string :=
  fold_right String.append EmptyString parts.

(** The text deltas of a stream, in order. *)
Definition text_deltas (events : list StreamEvent) : list string :=
  map event_delta (List.filter is_text_output events).

(** The completed items of a stream, in order. *)
Definition new_items (events : list StreamEvent) : list json :=
  map event_item (List.filter is_new_output_item events).

(** The frames the loop of [Workflow.run] sends for [events], from the
    history [h] and the partial response [p], under the agent [agent]. *)
Fixpoint loop_frames (agent : Agent) (h : list json) (p : string)
    (events : list StreamEvent) : list json :=
  match events with
  | [] => []
  | event :: rest =>
      if is_new_output_item event then
        history_updated "response.input_item" (JArr (h ++ [event_item event])) agent
          :: loop_frames agent (h ++ [event_item event]) p rest
      else if is_text_output event then
        history_updated "response.text.delta"
          (JArr (h ++ [message_item "assistant" (JStr (p ++ event_delta event))])) agent
          :: loop_frames agent h (p ++ event_delta event) rest
      else loop_frames agent h p rest
  end.

(** The text of the assistant item that closes a [response.text.delta]
    frame. *)
Definition delta_frame_text (f : json) : option json :=
  if tagged "response.text.delta" f then
    match getitem f "inputs" with
    | Ok inputs =>
        match getitem_last inputs with
        | Ok item => match getitem item "content" with Ok c => Some c | Raise _ => None end
        | Raise _ => None
        end
    | Raise _ => None
    end
  else None.

(** The partial response after each delta, from [p]. *)
Fixpoint running_text (p : string) (deltas : list string) : list string :=
  match deltas with
  | [] => []
  | d :: rest => (p ++ d)%string :: running_text (p ++ d) rest
  end.

(** The helper the loop of a turn leaves, from a history that is the
    list [h]. *)
Definition after_loop (runner : Runner) (input_text : json) (c : WebsocketHelper)
    (h : list json) : WebsocketHelper :=
  let h0 := h ++ [message_item "user" input_text] in
  let events := stream_events (runner (latest_agent c) (JArr h0)) in
  mkHelper
    (websocket c ++
       [history_updated "user.input" (JArr h0) (latest_agent c)] ++
       loop_frames (latest_agent c) h0 (partial_response c) events)
    (JArr (h0 ++ new_items events)) (latest_agent c)
    (partial_response c ++ joined (text_deltas events)) (audio_buffer c).

(** Only the helper of [client_id] may change, and nothing changes when
    the client has no helper. *)
Definition only_client (client_id : string) : relation WebSocketManager :=
  fun m m' =>
    active_connections m' = active_connections m /\
    (forall other, other <> client_id ->
       voice_pipelines m' !! other = voice_pipelines m !! other) /\
    (voice_pipelines m !! client_id = None -> m' = m).

(** A [response.audio.delta] frame *)
Definition is_audio_delta (f : json) : bool :=
  match frame_type f with
  | Some t => String.eqb t "response.audio.delta"
  | None => false
  end.

(** The audio the pipeline hands to the loop of [commit_audio]. *)
Fixpoint audio_events (schedule : list pipeline_step) : list (list byte) :=
  match schedule with
  | [] => []
  | Deliver (VoiceStreamEventAudio data) :: rest => data :: audio_events rest
  | _ :: rest => audio_events rest
  end.

(** A [history.updated] frame *)
Definition history_frame (f : json) : Prop := frame_type f = Some "history.updated".

(** The turn driver runs on a history that is a list. *)
Definition history_is_list (s : WebsocketHelper) : Prop := exists h, history s = JArr h.

(** No stream of the runner fails, the one the generator is in
    included. *)
Definition unfailing (runner : Runner) (g : Workflow_state) : Prop :=
  (forall agent h, stream_failure (runner agent h) = None) /\
  match g with
  | Streaming output _ => stream_failure output = None
  | _ => True
  end.

(** ** The requests of a computation *)

(** Every run of [m] adds requests that satisfy [P] to the log, and takes
    none away, whether it returns or raises. *)
Definition adds_only (P : Tools.request -> Prop) {A : Type} (m : Tools.Eff A) : Prop :=
  forall log, exists added, snd (m log) = log ++ added /\ Forall P added.

(** A request to update a document, and a request to write. *)
Definition is_update (r : Tools.request) : Prop :=
  match r with
  | Tools.update_one _ _ _ => True
  | _ => False
  end.

Definition is_write (r : Tools.request) : bool :=
  match r with
  | Tools.insert_one _ _ | Tools.update_one _ _ _ => true
  | _ => false
  end.

(** What the store is asked to write for a follow-up scheduled by
    reference with the note [note]. *)
Definition followup_request (w : Tools.World) (note : json) (r : Tools.request) : Prop :=
  match r with
  | Tools.insert_one collection document =>
      collection = "followups" /\
      Tools.has_key document "note" = false /\
      exists valid_user_id user_oid,
        Tools.get_user_id note = Ok valid_user_id /\
        Tools.ObjectId w (JStr valid_user_id) = Tools.Returns user_oid /\
        getitem document "user_id" = Ok user_oid
  | Tools.update_one _ _ _ => False
  | _ => True
  end.

(** What the store is asked to write for a note added by reference. *)
Definition note_request (w : Tools.World) (note : json) (r : Tools.request) : Prop :=
  match r with
  | Tools.insert_one collection document =>
      collection = "notes" /\
      getitem document "content" = Ok note /\
      exists user_oid,
        Tools.ObjectId w (JStr DEFAULT_USER_ID) = Tools.Returns user_oid /\
        getitem document "user_id" = Ok user_oid
  | Tools.update_one _ _ _ => False
  | _ => True
  end.

(** ** Dates *)

(** A date of the calendar, and a time of the day. *)
Definition valid_datetime (t : datetime) : Prop :=
  (1 <= year t <= 9999 /\ 1 <= month t <= 12 /\
   1 <= day t <= days_in_month (year t) (month t) /\
   hour t < 24 /\ minute t < 60 /\ second t < 60 /\ microsecond t < 1000000)%N.

(** The microseconds from the start of 0001-01-01: what the order and
    the difference of two [datetime]s are computed on. *)
Definition instant (t : datetime) : Z :=
  ((toordinal t - 1) * 86400000000
   + ((Z.of_N (hour t) * 60 + Z.of_N (minute t)) * 60 + Z.of_N (second t)) * 1000000
   + Z.of_N (microsecond t))%Z.

(** [n] days, in microseconds *)
Definition days (n : Z) : Z := (n * 86400000000)%Z.

(** The time of the day of [t'] is that of [t]. *)
Definition same_time (t t' : datetime) : Prop :=
  hour t' = hour t /\ minute t' = minute t /\ second t' = second t /\
  microsecond t' = microsecond t.

(** ** Sample data *)

Definition sample_new_text : json :=
  JObj [("type", JStr "history.update");
        ("inputs", JArr [message_item "assistant" (JStr "Hello");
                         JObj [("role", JStr "user");
                               ("content", JStr "Add Google Software Engineer")]])].

Definition sample_run : RunResultStreaming :=
  mkRun
    [RawResponsesStreamEvent (ResponseTextDeltaEvent "Add");
     RawResponsesStreamEvent (ResponseOtherEvent "response.output_text.done");
     RawResponsesStreamEvent (ResponseTextDeltaEvent "ed.");
     RunItemStreamEvent (message_item "assistant" (JStr "Added."));
     AgentUpdatedStreamEvent (mkAgent "Follow-up Planner")]
    None
    (mkAgent "Follow-up Planner")
    [message_item "user" (JStr "Add Google Software Engineer");
     JObj [("id", JStr "msg_1"); ("type", JStr "message"); ("role", JStr "assistant");
           ("content", JStr "Added.")]].

Definition sample_runner : Runner := fun _ _ => sample_run.

Definition text_consumer (new_output_tokens : string) : M unit :=
  stream_response new_output_tokens true.

Definition fresh_helper : WebsocketHelper :=
  new_helper [] (JArr []) job_tracking_agent.

Definition idle_pipeline : VoicePipeline := fun _ => RunRaises RuntimeError.

Definition fresh_endpoint : Endpoint := mkEndpoint fresh_helper [].

Definition helper_with_audio : WebsocketHelper :=
  set_audio_buffer (Some [Int16Array [16384; -256]%Z; Int16Array [127]%Z]) fresh_helper.

Definition speaking_pipeline : VoicePipeline :=
  fun _ =>
    RunStreams "Add Google Software Engineer"
      [Resume; Deliver (VoiceStreamEventLifecycle "turn_started");
       Deliver (VoiceStreamEventAudio [x01; x02]); Resume; Resume;
       Deliver (VoiceStreamEventAudio [x03; x04]);
       Deliver (VoiceStreamEventLifecycle "turn_ended")]
      None.

Definition failing_pipeline : VoicePipeline :=
  fun _ =>
    RunStreams "Add Google Software Engineer"
      [Deliver (VoiceStreamEventAudio [x01; x02])]
      (Some RuntimeError).

(** A pipeline whose answer depends on the audio it is given: it streams
    one audio event that carries the first sample. *)
Definition echo_pipeline : VoicePipeline :=
  fun audio_input =>
    match buffer audio_input with
    | Int16Array (sample :: _) =>
        RunStreams "" [Deliver (VoiceStreamEventAudio [byte_of_N (Z.to_N sample)])] None
    | _ => RunRaises ValueError
    end.

Definition sample_chunk : json :=
  JObj [("type", JStr "input_audio_buffer.append"); ("delta", JStr "AEAA/38A")].

Definition sample_user : string := "65f0c0ffee0123456789abcd".

Definition sample_applications : list application :=
  [mkApplication "65f000000000000000000001" sample_user "Google" "Software Engineer"
     (mkDatetime 2025 3 1 9 30 0 0) [("status_stage", JStr "applied")];
   mkApplication "65f000000000000000000002" sample_user "Googolplex Labs" "Data Analyst"
     (mkDatetime 2025 4 12 16 5 59 250000) [("status_stage", JStr "draft")];
   mkApplication "65f000000000000000000003" DEFAULT_USER_ID "Google" "Site Reliability"
     (mkDatetime 2025 6 2 8 0 0 0) [];
   mkApplication "65f000000000000000000004" sample_user "Initech" "Google Ads Specialist"
     (mkDatetime 2025 5 20 11 45 10 0) []].

(** A run that fails after a text delta and a completed item. *)
Definition failing_run : RunResultStreaming :=
  mkRun
    [RawResponsesStreamEvent (ResponseTextDeltaEvent "Add");
     RunItemStreamEvent (JObj [("type", JStr "function_call"); ("name", JStr "add_job_application")])]
    (Some RuntimeError) job_tracking_agent [].

(** A manager with one client, which has sent one chunk. *)
Definition sample_manager : WebSocketManager :=
  run_ops [OpConnect (Ok tt) [] "client_1";
           OpMessage sample_runner idle_pipeline "client_1" sample_chunk].

(** A store that holds one recent application and accepts every write;
    a clock that stands still. *)
Definition sample_world : Tools.World :=
  Tools.mkWorld
    (fun _ r =>
       match r with
       | Tools.utcnow => Tools.Returns (JStr "2025-06-02T08:00:00")
       | Tools.find_one _ _ =>
           Tools.Returns (JObj [("_id", JStr "65f000000000000000000001");
                                ("company_norm", JStr "google");
                                ("role_title_norm", JStr "software engineer")])
       | Tools.insert_one _ _ => Tools.Returns (JStr "65f000000000000000000005")
       | Tools.update_one _ _ _ => Tools.Returns (JNum 1)
       end)
    (fun v => Tools.Returns v)
    (fun _ => Tools.Raises (Tools.Builtin ValueError))
    (fun t _ => t)
    lower
    (fun _ => "")
    (fun e =>
       match e with
       | Tools.Builtin TypeError => "TypeError"
       | Tools.Builtin KeyError => "KeyError"
       | Tools.Builtin _ => "error"
       | Tools.Exception message => message
       | Tools.LibraryError _ message => message
       end).

(** The lookup of [Database] on the sample applications, for the
    default user. *)
Definition sample_lookup (application_ref : json) : Tools.Eff json :=
  fun log =>
    (match application_ref with
     | JStr s =>
         match find_application_by_reference wildcard_regex sample_applications s None with
         | Ok found => Tools.Returns (default JNull found)
         | Raise e => Tools.Raises (Tools.Builtin e)
         end
     | _ => Tools.Raises (Tools.Builtin TypeError)
     end, log).

(** Wednesday 4 June 2025, 15:30 *)
Definition sample_now : datetime := mkDatetime 2025 6 4 15 30 0 0.

(** * Properties *)

(** ** Python values and the monad *)

Lemma eq_str_true (v : json) (s : string) : eq_str v s = true <-> v = JStr s.
Proof.
  destruct v; simpl; try (split; [discriminate | intros H; discriminate H]).
  rewrite String.eqb_eq. split; [intros -> | intros [= ->]]; reflexivity.
Qed.


Lemma getitem_last_snoc (xs : list json) (x : json) :
  getitem_last (JArr (xs ++ [x])) = Ok x.
Proof. simpl. rewrite last_snoc. reflexivity. Qed.

Lemma slice_init_snoc (xs : list json) (x : json) :
  slice_init (JArr (xs ++ [x])) = Ok (JArr xs).
Proof. simpl. rewrite removelast_last. reflexivity. Qed.

Lemma nonempty_snoc {A} (xs : list A) :
  xs <> [] -> exists init x, xs = init ++ [x].
Proof.
  intros H. destruct (exists_last H) as (init & x & ->). eauto.
Qed.

Lemma for_each_app {S A} (xs ys : list A) (body : A -> ST S unit) (s : S) :
  for_each (xs ++ ys) body s = bind (for_each xs body) (fun _ => for_each ys body) s.
Proof.
  revert s. induction xs as [|x xs IH]; intros s; simpl.
  - reflexivity.
  - unfold bind. destruct (body x s) as [r s'].
    destruct r as [u|e]; [rewrite IH | ]; reflexivity.
Qed.

Lemma bind_ok {S A B} (m : ST S A) (k : A -> ST S B) (s s' : S) (a : A) :
  m s = (Ok a, s') -> bind m k s = k a s'.
Proof. intros H. unfold bind. rewrite H. reflexivity. Qed.

Lemma bind_raise {S A B} (m : ST S A) (k : A -> ST S B) (s s' : S) (e : exn) :
  m s = (Raise e, s') -> bind m k s = (Raise e, s').
Proof. intros H. unfold bind. rewrite H. reflexivity. Qed.

(** ** The classifier *)

(** What a truthy verdict of [is_new_text_message] says of the message. *)
Lemma is_new_text_message_inv (data v : json) :
  is_new_text_message data = Ok v -> truthy v = true ->
  getitem data "type" = Ok (JStr "history.update") /\
  exists preceding item,
    getitem data "inputs" = Ok (JArr (preceding ++ [item])) /\
    get item "role" = Ok (JStr "user").
Proof.
  unfold is_new_text_message. intros H Hv.
  destruct (getitem data "type") as [ty|] eqn:Hty; [|discriminate].
  destruct (eq_str ty "history.update") eqn:Heq.
  2:{ injection H; intros <-. discriminate Hv. }
  apply eq_str_true in Heq. subst ty. split; [reflexivity|].
  destruct (getitem data "inputs") as [inputs|] eqn:Hin; [|discriminate].
  destruct (truthy inputs) eqn:Ht; simpl in H.
  2:{ injection H; intros <-. congruence. }
  destruct (getitem_last inputs) as [item|] eqn:Hlast; [|discriminate].
  destruct (get item "role") as [role|] eqn:Hrole; [|discriminate].
  injection H; intros <-. simpl in Hv. apply eq_str_true in Hv. subst role.
  destruct inputs as [| | | s | xs | fs]; simpl in Hlast; try discriminate.
  - destruct (last_char s); [|discriminate].
    injection Hlast; intros <-. discriminate Hrole.
  - destruct xs as [|x xs]; [discriminate|].
    destruct (nonempty_snoc (x :: xs)) as (init & y & Hxs); [discriminate|].
    rewrite Hxs in *. rewrite last_snoc in Hlast. injection Hlast; intros ->.
    exists init, item. split; [reflexivity | assumption].
Qed.




Lemma process_inputs_snoc (data : json) (preceding : list json) (item : json)
    (connection : WebsocketHelper) :
  getitem data "inputs" = Ok (JArr (preceding ++ [item])) ->
  process_inputs data connection =
    (getitem item "content", set_history (JArr preceding) connection).
Proof.
  intros Hin. unfold process_inputs, bind, lift, modify. rewrite Hin.
  rewrite slice_init_snoc, getitem_last_snoc. reflexivity.
Qed.

(** C5, as the code has it.  On a message that [is_new_text_message]
    accepts, [inputs] is a list [preceding ++ [item]] whose last item has
    role [user].  [process_inputs] first assigns [preceding], in its
    order, to the history of the connection, then evaluates
    [item["content"]]: it returns the content of the last item when the
    item has one, and raises [KeyError] when it has none, with the
    history already replaced. *)
Theorem process_inputs_new_text (data verdict : json) :
  is_new_text_message data = Ok verdict ->
  truthy verdict = true ->
  exists preceding item,
    getitem data "inputs" = Ok (JArr (preceding ++ [item])) /\
    get item "role" = Ok (JStr "user") /\
    forall connection : WebsocketHelper,
      exec (process_inputs data) connection = set_history (JArr preceding) connection /\
      history (exec (process_inputs data) connection) = JArr preceding /\
      match getitem item "content" with
      | Ok content => eval (process_inputs data) connection = Ok content
      | Raise e => e = KeyError /\ eval (process_inputs data) connection = Raise KeyError
      end.
Proof.
  intros Hv Ht.
  destruct (is_new_text_message_inv data verdict Hv Ht)
    as (_ & preceding & item & Hin & Hrole).
  exists preceding, item. split; [assumption|]. split; [assumption|].
  intros connection.
  assert (Hrun : process_inputs data connection =
                 (getitem item "content", set_history (JArr preceding) connection)).
  { apply process_inputs_snoc, Hin. }
  unfold eval, exec. rewrite Hrun. cbn [fst snd].
  split; [reflexivity|]. split; [reflexivity|].
  destruct item as [| | | | |fields]; try discriminate Hrole.
  unfold getitem. destruct (assoc "content" fields); [reflexivity | split; reflexivity].
Qed.

Lemma process_inputs_new_text_witness :
  exists preceding item,
    getitem sample_new_text "inputs" = Ok (JArr (preceding ++ [item])) /\
    get item "role" = Ok (JStr "user") /\
    forall connection : WebsocketHelper,
      exec (process_inputs sample_new_text) connection
        = set_history (JArr preceding) connection /\
      history (exec (process_inputs sample_new_text) connection) = JArr preceding /\
      match getitem item "content" with
      | Ok content => eval (process_inputs sample_new_text) connection = Ok content
      | Raise e =>
          e = KeyError /\ eval (process_inputs sample_new_text) connection = Raise KeyError
      end.
Proof.
  apply (process_inputs_new_text sample_new_text (JBool true)); reflexivity.
Defined.

Example process_inputs_sample :
  process_inputs sample_new_text (new_helper [] (JArr []) job_tracking_agent) =
    (Ok (JStr "Add Google Software Engineer"),
     set_history (JArr [message_item "assistant" (JStr "Hello")])
       (new_helper [] (JArr []) job_tracking_agent)).
Proof. reflexivity. Qed.

(** The claim as stated fails: a message whose last item is
    [{"role": "user"}] is new text for the classifier, and
    [process_inputs] returns no content on it: the history is replaced,
    then [KeyError] is raised. *)
Lemma process_inputs_without_content :
  is_new_text_message
    (JObj [("type", JStr "history.update");
           ("inputs", JArr [JObj [("role", JStr "user")]])])
    = Ok (JBool true) /\
  process_inputs
    (JObj [("type", JStr "history.update");
           ("inputs", JArr [JObj [("role", JStr "user")]])])
    (new_helper [] (JArr [JNum 1]) job_tracking_agent) =
    (Raise KeyError, new_helper [] (JArr []) job_tracking_agent).
Proof. split; reflexivity. Qed.

(** ** Frames on the wire *)

Lemma count_if_app {A} (p : A -> bool) (l1 l2 : list A) :
  count_if p (l1 ++ l2) = count_if p l1 + count_if p l2.
Proof. induction l1 as [|x l1 IH]; simpl; [reflexivity | rewrite IH; lia]. Qed.

(** ** The turn driver on a history that is a list *)

Lemma show_user_input_list (user_input : json) (s : WebsocketHelper) (h : list json) :
  history s = JArr h ->
  show_user_input user_input s =
    (Ok (JArr (h ++ [message_item "user" user_input]), latest_agent s),
     set_websocket
       (websocket s ++
          [history_updated "user.input"
             (JArr (h ++ [message_item "user" user_input])) (latest_agent s)])
       (set_history (JArr (h ++ [message_item "user" user_input])) s)).
Proof.
  intros Hh. unfold show_user_input, bind, gets, lift, modify, send_text, ret.
  rewrite Hh. reflexivity.
Qed.

Lemma show_user_input_not_list (user_input : json) (s : WebsocketHelper) :
  (forall h, history s <> JArr h) ->
  show_user_input user_input s = (Raise AttributeError, s).
Proof.
  intros Hh. unfold show_user_input, bind, gets, lift.
  destruct (history s) eqn:E; try reflexivity. exfalso. eapply Hh. reflexivity.
Qed.

Lemma handle_new_item_list (event : StreamEvent) (s : WebsocketHelper) (h : list json) :
  history s = JArr h ->
  handle_new_item event s = (Ok tt, event_effect event h s).
Proof.
  intros Hh. unfold handle_new_item, event_effect.
  destruct (is_new_output_item event).
  - unfold bind, gets, lift, modify, send_text. rewrite Hh. reflexivity.
  - destruct (is_text_output event); [|reflexivity].
    unfold stream_response, bind, gets, lift, modify, send_text. simpl.
    rewrite Hh. reflexivity.
Qed.

Lemma text_output_complete_done (output : RunResultStreaming) (s : WebsocketHelper) :
  text_output_complete output true s =
    (Ok tt,
     mkHelper (websocket s ++ [done_frame output]) (JArr (to_input_list output))
       (last_agent output) "" (audio_buffer s)).
Proof. reflexivity. Qed.

Lemma event_effect_history (event : StreamEvent) (h : list json) (s : WebsocketHelper) :
  history s = JArr h ->
  exists h', history (event_effect event h s) = JArr h'.
Proof.
  intros Hh. unfold event_effect.
  destruct (is_new_output_item event); [eexists; reflexivity|].
  destruct (is_text_output event); eexists; simpl; [exact Hh | exact Hh].
Qed.

Lemma event_effect_frames (event : StreamEvent) (h : list json) (s : WebsocketHelper) :
  exists fs,
    websocket (event_effect event h s) = websocket s ++ fs /\
    latest_agent (event_effect event h s) = latest_agent s /\
    audio_buffer (event_effect event h s) = audio_buffer s /\
    count_if (tagged "response.text.delta") fs = (if is_text_output event then 1 else 0) /\
    count_if (tagged "response.input_item") fs = (if is_new_output_item event then 1 else 0) /\
    count_if (tagged "response.done") fs = 0 /\
    count_if (tagged "user.input") fs = 0.
Proof.
  unfold event_effect. destruct event as [[delta|kind]|item|agent]; simpl.
  - eexists. split; [reflexivity|]. repeat split.
  - exists []. rewrite app_nil_r. repeat split.
  - eexists. split; [reflexivity|]. repeat split.
  - exists []. rewrite app_nil_r. repeat split.
Qed.

(** The loop over the events of the run. *)
Lemma turn_loop_list (consume : string -> M unit) (events : list StreamEvent) :
  inert consume ->
  forall (s : WebsocketHelper) (h : list json),
    history s = JArr h ->
    exists s' h' fs,
      for_each events
        (fun event =>
           handle_new_item event >>
           if is_text_output event then consume (event_delta event) else ret tt) s
        = (Ok tt, s') /\
      history s' = JArr h' /\
      websocket s' = websocket s ++ fs /\
      latest_agent s' = latest_agent s /\
      audio_buffer s' = audio_buffer s /\
      count_if (tagged "response.text.delta") fs = count_if is_text_output events /\
      count_if (tagged "response.input_item") fs = count_if is_new_output_item events /\
      count_if (tagged "response.done") fs = 0 /\
      count_if (tagged "user.input") fs = 0.
Proof.
  intros Hinert. induction events as [|event events IH]; intros s h Hh.
  - exists s, h, []. simpl. rewrite app_nil_r. repeat split; auto.
  - simpl for_each.
    assert (Hbody : (if is_text_output event then consume (event_delta event) else ret tt)
                      (event_effect event h s) = (Ok tt, event_effect event h s)).
    { destruct (is_text_output event); [apply Hinert | reflexivity]. }
    rewrite (bind_ok _ _ s (event_effect event h s) tt).
    2:{ rewrite (bind_ok _ _ s (event_effect event h s) tt); [exact Hbody|].
        apply handle_new_item_list, Hh. }
    destruct (event_effect_history event h s Hh) as [h1 Hh1].
    destruct (event_effect_frames event h s)
      as (fs1 & Hw1 & Ha1 & Hb1 & Hd1 & Hi1 & Hdone1 & Hu1).
    destruct (IH _ h1 Hh1) as (s' & h' & fs & Hrun & Hh' & Hw & Ha & Hb & Hd & Hi & Hdone & Hu).
    exists s', h', (fs1 ++ fs). split; [exact Hrun|]. split; [exact Hh'|].
    split; [rewrite Hw, Hw1, app_assoc; reflexivity|].
    split; [congruence|]. split; [congruence|].
    rewrite !count_if_app. simpl count_if.
    rewrite Hd1, Hi1, Hdone1, Hu1, Hd, Hi, Hdone, Hu. repeat split; reflexivity.
Qed.

Lemma history_list_dec (s : WebsocketHelper) :
  (exists h, history s = JArr h) \/ (forall h, history s <> JArr h).
Proof.
  destruct (history s); try (right; intros h; discriminate).
  left. eexists. reflexivity.
Qed.

(** [Workflow.run] on a history that is a list: the helper [s1] the loop
    leaves, and the frames sent up to there. *)
Lemma Workflow_run_list (runner : Runner) (consume : string -> M unit)
    (input_text : json) (c : WebsocketHelper) (h : list json) :
  inert consume ->
  history c = JArr h ->
  let output := runner (latest_agent c) (JArr (h ++ [message_item "user" input_text])) in
  exists s1 fs,
    Workflow_run runner consume input_text c =
      match stream_failure output with
      | Some e => (Raise e, s1)
      | None => text_output_complete output true s1
      end /\
    websocket s1 = websocket c ++ fs /\
    audio_buffer s1 = audio_buffer c /\
    count_if (tagged "user.input") fs = 1 /\
    count_if (tagged "response.text.delta") fs =
      count_if is_text_output (stream_events output) /\
    count_if (tagged "response.input_item") fs =
      count_if is_new_output_item (stream_events output) /\
    count_if (tagged "response.done") fs = 0.
Proof.
  intros Hinert Hh output.
  set (h0 := h ++ [message_item "user" input_text]) in *.
  set (s0 := set_websocket
               (websocket c ++ [history_updated "user.input" (JArr h0) (latest_agent c)])
               (set_history (JArr h0) c)).
  destruct (turn_loop_list consume (stream_events output) Hinert s0 h0 eq_refl)
    as (s1 & h1 & fs & Hrun & Hh1 & Hw & Ha & Hb & Hd & Hi & Hdone & Hu).
  exists s1, ([history_updated "user.input" (JArr h0) (latest_agent c)] ++ fs).
  split.
  - unfold Workflow_run.
    rewrite (bind_ok _ _ c s0 (JArr h0, latest_agent c))
      by (apply show_user_input_list, Hh).
    fold output.
    rewrite (bind_ok _ _ s0 s1 tt) by exact Hrun.
    destruct (stream_failure output); reflexivity.
  - split; [rewrite Hw; unfold s0; simpl; rewrite <- app_assoc; reflexivity|].
    split; [rewrite Hb; reflexivity|].
    rewrite !count_if_app, Hd, Hi, Hdone, Hu. repeat split; reflexivity.
Qed.

(** When the history is a list and the stream of the runner does not
    fail, the run completes. *)
Lemma Workflow_run_completes (runner : Runner) (consume : string -> M unit)
    (input_text : json) (c : WebsocketHelper) (h : list json) :
  inert consume ->
  history c = JArr h ->
  stream_failure
    (runner (latest_agent c) (JArr (h ++ [message_item "user" input_text]))) = None ->
  exists c', Workflow_run runner consume input_text c = (Ok tt, c').
Proof.
  intros Hinert Hh Hnone.
  destruct (Workflow_run_list runner consume input_text c h Hinert Hh)
    as (s1 & fs & Hrun & _).
  rewrite Hnone in Hrun. rewrite text_output_complete_done in Hrun. eauto.
Qed.

(** C3.  When a run of [Workflow.run] is consumed to its end and nothing
    raises, then for the [output] that the runner returned: the partial
    response is empty, the history is [output.to_input_list()] (whatever
    the loop accumulated), the agent is [output.last_agent], and among
    the frames sent during the run exactly one is tagged [response.done],
    the last one. *)
Theorem turn_finalization (runner : Runner) (consume : string -> M unit)
    (input_text : json) (c c' : WebsocketHelper) :
  inert consume ->
  Workflow_run runner consume input_text c = (Ok tt, c') ->
  exists h frames,
    history c = JArr h /\
    let output := runner (latest_agent c) (JArr (h ++ [message_item "user" input_text])) in
    stream_failure output = None /\
    partial_response c' = "" /\
    history c' = JArr (to_input_list output) /\
    latest_agent c' = last_agent output /\
    websocket c' = websocket c ++ frames /\
    count_if (tagged "response.done") frames = 1 /\
    last frames = Some (done_frame output).
Proof.
  intros Hinert Hrun.
  destruct (history_list_dec c) as [[h Hh] | Hno].
  2:{ unfold Workflow_run in Hrun.
      rewrite (bind_raise _ _ c c AttributeError) in Hrun
        by (apply show_user_input_not_list, Hno).
      discriminate Hrun. }
  destruct (Workflow_run_list runner consume input_text c h Hinert Hh)
    as (s1 & fs & Hspec & Hw & _ & _ & _ & _ & Hdone).
  rewrite Hrun in Hspec.
  set (output := runner (latest_agent c) (JArr (h ++ [message_item "user" input_text]))) in *.
  exists h, (fs ++ [done_frame output]).
  split; [exact Hh|]. cbv zeta. fold output.
  destruct (stream_failure output) eqn:Hfail; [discriminate Hspec|].
  rewrite text_output_complete_done in Hspec.
  injection Hspec; intros ->. simpl.
  split; [reflexivity|]. split; [reflexivity|]. split; [reflexivity|].
  split; [reflexivity|].
  split; [rewrite Hw, app_assoc; reflexivity|].
  split; [rewrite count_if_app, Hdone; reflexivity|].
  apply last_snoc.
Qed.

Lemma text_consumer_inert : inert text_consumer.
Proof. intros token s. reflexivity. Qed.

Lemma turn_finalization_witness :
  exists h frames,
    history fresh_helper = JArr h /\
    let output :=
      sample_runner (latest_agent fresh_helper)
        (JArr (h ++ [message_item "user" (JStr "Add Google Software Engineer")])) in
    stream_failure output = None /\
    partial_response
      (exec (Workflow_run sample_runner text_consumer
               (JStr "Add Google Software Engineer")) fresh_helper) = "" /\
    history
      (exec (Workflow_run sample_runner text_consumer
               (JStr "Add Google Software Engineer")) fresh_helper)
      = JArr (to_input_list output) /\
    latest_agent
      (exec (Workflow_run sample_runner text_consumer
               (JStr "Add Google Software Engineer")) fresh_helper)
      = last_agent output /\
    websocket
      (exec (Workflow_run sample_runner text_consumer
               (JStr "Add Google Software Engineer")) fresh_helper)
      = websocket fresh_helper ++ frames /\
    count_if (tagged "response.done") frames = 1 /\
    last frames = Some (done_frame output).
Proof.
  apply (turn_finalization sample_runner text_consumer
           (JStr "Add Google Software Engineer") fresh_helper).
  - exact text_consumer_inert.
  - reflexivity.
Defined.

(** The transcript of that turn: the user input, a frame for each text
    delta and each item, and the closing frame with the runner's
    transcript, which differs from the history built along the way. *)
Example sample_turn_transcript :
  map frame_reason
    (websocket (exec (Workflow_run sample_runner text_consumer
                        (JStr "Add Google Software Engineer")) fresh_helper))
  = [Some "user.input"; Some "response.text.delta"; Some "response.text.delta";
     Some "response.input_item"; Some "response.done"].
Proof. reflexivity. Qed.

(** ** The endpoint on a new text message *)

Lemma truthy_snoc (xs : list json) (x : json) : truthy (JArr (xs ++ [x])) = true.
Proof. destruct xs; reflexivity. Qed.

Lemma is_sync_message_user_last (message : json) (preceding : list json) (item : json) :
  getitem message "type" = Ok (JStr "history.update") ->
  getitem message "inputs" = Ok (JArr (preceding ++ [item])) ->
  get item "role" = Ok (JStr "user") ->
  is_sync_message message = Ok false /\
  is_new_text_message message = Ok (JBool true).
Proof.
  intros Hty Hin Hrole. unfold is_sync_message, is_new_text_message.
  rewrite Hty, Hin. cbn [eq_str]. rewrite String.eqb_refl.
  rewrite truthy_snoc, getitem_last_snoc, Hrole. split; reflexivity.
Qed.

Lemma websocket_endpoint_step_new_text (runner : Runner) (pipeline : VoicePipeline)
    (message : json) (st : Endpoint) (preceding : list json) (item content : json) :
  getitem message "type" = Ok (JStr "history.update") ->
  getitem message "inputs" = Ok (JArr (preceding ++ [item])) ->
  get item "role" = Ok (JStr "user") ->
  getitem item "content" = Ok content ->
  websocket_endpoint_step runner pipeline message st =
    on_connection
      (Workflow_run runner (fun new_output_tokens => stream_response new_output_tokens true)
         content)
      (mkEndpoint (set_history (JArr preceding) (connection st)) (endpoint_audio_buffer st)).
Proof.
  intros Hty Hin Hrole Hcontent.
  destruct (is_sync_message_user_last message preceding item Hty Hin Hrole) as [Hsync Hnew].
  unfold websocket_endpoint_step.
  rewrite (bind_ok _ _ st st false) by (unfold lift; rewrite Hsync; reflexivity).
  rewrite (bind_ok _ _ st st (JBool true)) by (unfold lift; rewrite Hnew; reflexivity).
  cbn [truthy].
  rewrite (bind_ok _ _ st
             (mkEndpoint (set_history (JArr preceding) (connection st))
                (endpoint_audio_buffer st)) content); [reflexivity|].
  unfold on_connection, zoom.
  rewrite (process_inputs_snoc message preceding item (connection st) Hin), Hcontent.
  reflexivity.
Qed.

(** C10.  [stream_response(tokens, is_text=True)] returns at once: no
    frame, no change to the helper.  So in the turn that the endpoint runs
    for a new text message, the frames tagged [response.text.delta] are as
    many as the text delta events of the run: one each, sent by
    [handle_new_item]; the tokens yielded to the endpoint loop add none. *)
Theorem text_delta_frames_once (runner : Runner) (pipeline : VoicePipeline)
    (message : json) (st : Endpoint) (preceding : list json) (item content : json) :
  getitem message "type" = Ok (JStr "history.update") ->
  getitem message "inputs" = Ok (JArr (preceding ++ [item])) ->
  get item "role" = Ok (JStr "user") ->
  getitem item "content" = Ok content ->
  (forall tokens s, stream_response tokens true s = (Ok tt, s)) /\
  let output :=
    runner (latest_agent (connection st))
      (JArr (preceding ++ [message_item "user" content])) in
  exists frames,
    websocket (connection (exec (websocket_endpoint_step runner pipeline message) st))
      = websocket (connection st) ++ frames /\
    count_if (tagged "response.text.delta") frames
      = count_if is_text_output (stream_events output).
Proof.
  intros Hty Hin Hrole Hcontent. split; [reflexivity|]. intros output.
  unfold exec.
  rewrite (websocket_endpoint_step_new_text runner pipeline message st preceding item content)
    by assumption.
  unfold on_connection, zoom. cbn [connection].
  destruct (Workflow_run_list runner text_consumer content
              (set_history (JArr preceding) (connection st)) preceding
              text_consumer_inert eq_refl)
    as (s1 & fs & Hrun & Hw & _ & _ & Hd & _ & Hdone).
  cbn [latest_agent set_history] in Hrun, Hd. fold output in Hrun, Hd.
  change (fun new_output_tokens => stream_response new_output_tokens true)
    with text_consumer.
  rewrite Hrun. cbn [websocket set_history] in Hw.
  destruct (stream_failure output).
  - exists fs. cbn. split; [exact Hw | exact Hd].
  - rewrite text_output_complete_done. cbn.
    exists (fs ++ [done_frame output]).
    split; [rewrite Hw, app_assoc; reflexivity|].
    rewrite count_if_app, Hd. cbn. lia.
Qed.

Lemma text_delta_frames_once_witness :
  (forall tokens s, stream_response tokens true s = (Ok tt, s)) /\
  let output :=
    sample_runner (latest_agent (connection fresh_endpoint))
      (JArr ([message_item "assistant" (JStr "Hello")]
             ++ [message_item "user" (JStr "Add Google Software Engineer")])) in
  exists frames,
    websocket
      (connection
         (exec (websocket_endpoint_step sample_runner idle_pipeline sample_new_text)
            fresh_endpoint))
      = websocket (connection fresh_endpoint) ++ frames /\
    count_if (tagged "response.text.delta") frames
      = count_if is_text_output (stream_events output).
Proof.
  apply (text_delta_frames_once sample_runner idle_pipeline sample_new_text fresh_endpoint
           [message_item "assistant" (JStr "Hello")]
           (JObj [("role", JStr "user"); ("content", JStr "Add Google Software Engineer")])
           (JStr "Add Google Software Engineer")); reflexivity.
Defined.

(** The same turn through the endpoint: two text delta events, two frames
    tagged [response.text.delta]. *)
Example sample_endpoint_turn :
  map frame_reason
    (websocket
       (connection
          (exec (websocket_endpoint_step sample_runner idle_pipeline sample_new_text)
             fresh_endpoint)))
  = [Some "user.input"; Some "response.text.delta"; Some "response.text.delta";
     Some "response.input_item"; Some "response.done"].
Proof. reflexivity. Qed.

(** ** What emitting a frame does to the session *)

(** C7, as the code has it.  Sending a frame leaves the session state as
    it was: [send_text], [send_audio_chunk], [send_audio_done] and the sync
    frame of [text_output_complete] change no field of it.
    [stream_response] first extends [partial_response] by the new tokens
    and then sends; it leaves history, agent and audio buffer as they
    were, and the assistant item of its frame is not put in the history. *)
Theorem emitting_frames_effect (s : WebsocketHelper) :
  (forall frame,
     send_text frame s = (Ok tt, set_websocket (websocket s ++ [frame]) s) /\
     same_session s (exec (send_text frame) s)) /\
  (forall event, same_session s (exec (send_audio_chunk event) s)) /\
  same_session s (exec send_audio_done s) /\
  (forall output, same_session s (exec (text_output_complete output false) s)) /\
  (forall new_tokens,
     let s' := exec (stream_response new_tokens false) s in
     history s' = history s /\
     latest_agent s' = latest_agent s /\
     audio_buffer s' = audio_buffer s /\
     partial_response s' = (partial_response s ++ new_tokens)%string /\
     forall h, history s = JArr h ->
       websocket s' =
         websocket s ++
           [history_updated "response.text.delta"
              (JArr (h ++ [message_item "assistant"
                             (JStr (partial_response s ++ new_tokens))]))
              (latest_agent s)]).
Proof.
  split. { intros frame. split; [reflexivity | repeat split]. }
  split. { intros event. destruct event; repeat split. }
  split. { repeat split. }
  split. { intros output. repeat split. }
  intros new_tokens s'.
  assert (E : s' =
              match history s with
              | JArr h =>
                  set_websocket
                    (websocket s ++
                       [history_updated "response.text.delta"
                          (JArr (h ++ [message_item "assistant"
                                         (JStr (partial_response s ++ new_tokens))]))
                          (latest_agent s)])
                    (set_partial_response (partial_response s ++ new_tokens) s)
              | _ => set_partial_response (partial_response s ++ new_tokens) s
              end).
  { unfold s', exec, stream_response, bind, gets, lift, modify, send_text. simpl.
    destruct (history s); reflexivity. }
  rewrite E. clear E s'.
  destruct (history s) eqn:Hs; simpl;
    (split; [assumption|]); (split; [reflexivity|]); (split; [reflexivity|]);
    (split; [reflexivity|]); intros h Hh; try discriminate Hh.
  injection Hh; intros ->. reflexivity.
Qed.

(** The claim as stated fails on [stream_response]: the partial response
    is not the same before and after the frame. *)
Lemma stream_response_changes_partial_response :
  ~ same_session fresh_helper (exec (stream_response "Hi" false) fresh_helper).
Proof. intros (_ & _ & H & _). discriminate H. Qed.

(** ** Relating the helper before and after a computation *)

Section Steps.

Context {S : Type} (R : relation S) `{!PreOrder R}.

Lemma steps_ret {A} (a : A) : steps R (ret a).
Proof. intros s. reflexivity. Qed.

Lemma steps_raise {A} (e : exn) : steps R (@raise S A e).
Proof. intros s. reflexivity. Qed.

Lemma steps_lift {A} (r : result A) : steps R (lift r).
Proof. intros s. reflexivity. Qed.

Lemma steps_gets {A} (f : S -> A) : steps R (gets f).
Proof. intros s. reflexivity. Qed.

Lemma steps_modify (f : S -> S) : (forall s, R s (f s)) -> steps R (modify f).
Proof. intros H s. apply H. Qed.

Lemma steps_bind {A B} (m : ST S A) (k : A -> ST S B) :
  steps R m -> (forall a, steps R (k a)) -> steps R (bind m k).
Proof.
  intros Hm Hk s. unfold bind. specialize (Hm s).
  destruct (m s) as [[a|e] s1]; simpl in *.
  - etransitivity; [exact Hm | apply Hk].
  - exact Hm.
Qed.

Lemma steps_try_except {A} (m : ST S A) (h : exn -> ST S A) :
  steps R m -> (forall e, steps R (h e)) -> steps R (try_except m h).
Proof.
  intros Hm Hh s. unfold try_except. specialize (Hm s).
  destruct (m s) as [[a|e] s1]; simpl in *.
  - exact Hm.
  - etransitivity; [exact Hm | apply Hh].
Qed.

Lemma steps_for_each {A} (xs : list A) (body : A -> ST S unit) :
  (forall x, steps R (body x)) -> steps R (for_each xs body).
Proof.
  intros Hbody. induction xs as [|x xs IH]; simpl.
  - apply steps_ret.
  - apply steps_bind; [apply Hbody | intros _; exact IH].
Qed.

End Steps.

Section SessionSteps.

Context (R : relation WebsocketHelper) `{!SessionFrame R}.

Lemma steps_send_text (f : json) :
  frame_type f = Some "history.updated" \/ frame_type f = Some "response.audio.delta" ->
  steps R (send_text f).
Proof. intros H. apply (steps_modify R). intros s. apply sf_send, H. Qed.

Ltac step :=
  first
    [ apply (steps_ret R) | apply (steps_raise R) | apply (steps_lift R) | apply (steps_gets R)
    | apply (steps_modify R); intros ?; first [apply sf_history | apply sf_partial | apply sf_agent]
    | apply steps_send_text; left; reflexivity
    | apply steps_send_text; right; reflexivity
    | apply (steps_bind R); [|intros ?] ].

Lemma steps_show_user_input (user_input : json) : steps R (show_user_input user_input).
Proof. unfold show_user_input. repeat step. Qed.

Lemma steps_stream_response (new_tokens : string) (is_text : bool) :
  steps R (stream_response new_tokens is_text).
Proof. unfold stream_response. destruct is_text; repeat step. Qed.

Lemma steps_handle_new_item (event : StreamEvent) : steps R (handle_new_item event).
Proof.
  unfold handle_new_item. destruct (is_new_output_item event); [repeat step|].
  destruct (is_text_output event); [apply steps_stream_response | step].
Qed.

Lemma steps_text_output_complete (output : RunResultStreaming) (is_done : bool) :
  steps R (text_output_complete output is_done).
Proof. unfold text_output_complete. destruct is_done; simpl; repeat step. Qed.

Lemma steps_send_audio_chunk (event : VoiceStreamEvent) : steps R (send_audio_chunk event).
Proof. destruct event; simpl; repeat step. Qed.

Lemma steps_Workflow_resume (output : RunResultStreaming) (pending : list StreamEvent) :
  steps R (Workflow_resume output pending).
Proof.
  induction pending as [|event rest IH]; simpl.
  - destruct (stream_failure output); [step|].
    apply (steps_bind R); [apply steps_text_output_complete | intros _; step].
  - apply (steps_bind R); [apply steps_handle_new_item | intros _].
    destruct (is_text_output event); [step | exact IH].
Qed.

Lemma steps_Workflow_next (runner : Runner) (g : Workflow_state) :
  steps R (Workflow_next runner g).
Proof.
  destruct g; simpl.
  - apply (steps_bind R); [apply steps_show_user_input | intros [h a]].
    apply steps_Workflow_resume.
  - apply steps_Workflow_resume.
  - step.
Qed.

Lemma steps_stream_loop (runner : Runner) (schedule : list pipeline_step)
    (g : Workflow_state) :
  steps R (stream_loop runner schedule g).
Proof.
  revert g. induction schedule as [|[event|] rest IH]; intros g; simpl.
  - step.
  - apply (steps_bind R); [apply steps_send_audio_chunk | intros _; apply IH].
  - apply (steps_bind R); [apply steps_Workflow_next | intros [tok g']; apply IH].
Qed.

End SessionSteps.

#[local] Instance same_audio_buffer_frame : SessionFrame same_audio_buffer.
Proof.
  split.
  - split; [intros s; reflexivity | intros a b c Hab Hbc; unfold same_audio_buffer in *; congruence].
  - intros h s. reflexivity.
  - intros p s. reflexivity.
  - intros a s. reflexivity.
  - intros f s _. reflexivity.
Qed.

Lemma sends_only_preorder (P : json -> Prop) : PreOrder (sends_only P).
Proof.
  split.
  - intros s. exists []. rewrite app_nil_r. split; [reflexivity | constructor].
  - intros a b c (f1 & H1 & P1) (f2 & H2 & P2). exists (f1 ++ f2). split.
    + rewrite H2, H1, app_assoc. reflexivity.
    + apply Forall_app. split; assumption.
Qed.

Lemma sends_only_same_socket (P : json -> Prop) (s s' : WebsocketHelper) :
  websocket s' = websocket s -> sends_only P s s'.
Proof.
  intros H. exists []. rewrite app_nil_r. split; [exact H | constructor].
Qed.

#[local] Instance no_audio_done_frame : SessionFrame (sends_only not_audio_done).
Proof.
  split.
  - apply sends_only_preorder.
  - intros h s. apply sends_only_same_socket. reflexivity.
  - intros p s. apply sends_only_same_socket. reflexivity.
  - intros a s. apply sends_only_same_socket. reflexivity.
  - intros f s Hf. exists [f]. split; [reflexivity|].
    constructor; [|constructor]. unfold not_audio_done.
    destruct Hf as [-> | ->]; discriminate.
Qed.

(** ** Committing the audio buffer *)

Lemma astype_float32_int16 (chunks : list ndarray) :
  forallb is_int16 chunks = true ->
  map inject_Z (concat (map int16_values chunks)) = concat (map astype_float32 chunks).
Proof.
  induction chunks as [|a chunks IH]; simpl; [reflexivity|].
  intros H. apply andb_true_iff in H. destruct H as [Ha Hrest].
  rewrite map_app, IH by exact Hrest.
  destruct a; [reflexivity | discriminate Ha].
Qed.

Lemma np_concatenate_samples (chunks : list ndarray) :
  chunks <> [] ->
  exists full_audio,
    np_concatenate chunks = Ok full_audio /\
    astype_float32 full_audio = concat (map astype_float32 chunks) /\
    is_int16 full_audio = forallb is_int16 chunks.
Proof.
  intros Hne. destruct chunks as [|x xs]; [congruence|].
  unfold np_concatenate. destruct (forallb is_int16 (x :: xs)) eqn:Hall.
  - eexists. split; [reflexivity|]. split; [|reflexivity].
    apply (astype_float32_int16 (x :: xs)), Hall.
  - eexists. split; [reflexivity|]. split; reflexivity.
Qed.

(** [commit_audio] on a buffer that holds chunks: one run of the
    pipeline, on the concatenation; the buffer is the empty list after,
    however the run ends.  [R] is any relation that the session respects
    and that allows the buffer to be reset. *)
Lemma commit_audio_nonempty (R : relation WebsocketHelper) `{!SessionFrame R}
    (runner : Runner) (pipeline : VoicePipeline) (c : WebsocketHelper)
    (chunks : list ndarray) (full_audio : ndarray) :
  (forall b s, R s (set_audio_buffer b s)) ->
  audio_buffer c = Some chunks ->
  chunks <> [] ->
  np_concatenate chunks = Ok full_audio ->
  exists c',
    commit_audio runner pipeline c = (Ok [mkAudioInput full_audio], c') /\
    audio_buffer c' = Some [] /\
    R c c'.
Proof.
  intros Hreset Hbuf Hne Hnp.
  unfold commit_audio, commit_audio_body.
  rewrite (bind_ok _ _ (c, []) (c, []) (Some chunks))
    by (unfold on_helper, zoom, gets; simpl; rewrite Hbuf; reflexivity).
  destruct chunks as [|x xs]; [congruence|].
  unfold try_except.
  rewrite (bind_ok _ _ (c, []) (c, []) full_audio)
    by (unfold lift; rewrite Hnp; reflexivity).
  rewrite (bind_ok _ _ (c, []) (c, [mkAudioInput full_audio]) tt) by reflexivity.
  destruct (pipeline (mkAudioInput full_audio)) as [e | input_text schedule failure].
  - unfold raise, on_helper, zoom, modify. simpl. rewrite Hbuf.
    eexists. split; [reflexivity|]. split; [reflexivity | apply Hreset].
  - pose proof (steps_stream_loop same_audio_buffer runner schedule
                  (Created (JStr input_text)) c) as Hkeep.
    pose proof (steps_stream_loop R runner schedule
                  (Created (JStr input_text)) c) as HR.
    unfold same_audio_buffer in Hkeep.
    unfold bind, on_helper, zoom, raise, modify. cbn [fst snd].
    destruct (stream_loop runner schedule (Created (JStr input_text)) c) as [r c1].
    simpl in Hkeep, HR. rewrite Hbuf in Hkeep.
    destruct r as [[]|e]; [destruct failure as [e|]|]; simpl; rewrite ?Hkeep;
      (eexists; split; [reflexivity|]; split; [reflexivity|];
       etransitivity; [exact HR | apply Hreset]).
Qed.

Lemma commit_audio_empty (runner : Runner) (pipeline : VoicePipeline)
    (c : WebsocketHelper) :
  audio_buffer c = None \/ audio_buffer c = Some [] ->
  commit_audio runner pipeline c = (Ok [], c).
Proof.
  intros H. unfold commit_audio, commit_audio_body.
  rewrite (bind_ok _ _ (c, []) (c, []) (audio_buffer c)) by reflexivity.
  destruct H as [-> | ->]; reflexivity.
Qed.

Lemma sends_only_reset (P : json -> Prop) (b : option (list ndarray))
    (s : WebsocketHelper) :
  sends_only P s (set_audio_buffer b s).
Proof. apply sends_only_same_socket. reflexivity. Qed.



(** With the pipeline that echoes the first sample it is given, the one
    frame the commit sends carries the first sample of the first chunk of
    the buffer: the pipeline is given the chunks, in their order. *)
Example commit_audio_hears_the_buffer :
  websocket
    (exec (commit_audio sample_runner echo_pipeline)
       (set_audio_buffer (Some [Int16Array [3; 5]%Z; Int16Array [7]%Z]) fresh_helper))
  = [transform_data_to_events [x03]].
Proof. reflexivity. Qed.

(** No frame that [commit_audio] sends is [audio.done]: the method sends
    through [send_audio_chunk] and the turn driver only. *)
Lemma commit_audio_sends_no_audio_done (runner : Runner) (pipeline : VoicePipeline)
    (c : WebsocketHelper) :
  exists frames,
    websocket (exec (commit_audio runner pipeline) c) = websocket c ++ frames /\
    Forall (fun f => frame_type f <> Some "audio.done") frames.
Proof.
  destruct (audio_buffer c) as [[|x xs]|] eqn:Hbuf.
  - unfold exec. rewrite commit_audio_empty by (right; exact Hbuf).
    exists []. rewrite app_nil_r. split; [reflexivity | constructor].
  - destruct (np_concatenate_samples (x :: xs)) as (full_audio & Hnp & _);
      [discriminate|].
    destruct (commit_audio_nonempty (sends_only not_audio_done) runner pipeline c
                (x :: xs) full_audio (sends_only_reset _) Hbuf) as (c' & Hrun & _ & HR);
      [discriminate | exact Hnp |].
    unfold exec. rewrite Hrun. exact HR.
  - unfold exec. rewrite commit_audio_empty by (left; exact Hbuf).
    exists []. rewrite app_nil_r. split; [reflexivity | constructor].
Qed.

(** The sibling [generate_audio_response] does end with [audio.done],
    whether the synthesis returns or raises. *)
Lemma generate_audio_response_ends_with_audio_done
    (speech : string -> result (list byte)) (text : string) (s : WebsocketHelper) :
  last (websocket (exec (generate_audio_response speech text) s)) = Some audio_done.
Proof.
  unfold exec, generate_audio_response, try_except, bind, lift, send_audio_done,
    send_text, modify.
  destruct (speech text); simpl; rewrite ?app_assoc; apply last_snoc.
Qed.

(** C1, on a buffer of two chunks.  With a pipeline that streams two
    audio chunks and ends, [commit_audio] sends the two
    [response.audio.delta] frames among the frames of the turn, and no
    [audio.done] after them; with a pipeline that raises after one chunk,
    it sends that one frame and nothing more.  The transcript of the
    socket never ends with [audio.done]. *)
Theorem commit_audio_omits_audio_done :
  map frame_type (websocket (exec (commit_audio sample_runner speaking_pipeline)
                               helper_with_audio))
    = [Some "history.updated"; Some "history.updated"; Some "response.audio.delta";
       Some "history.updated"; Some "history.updated"; Some "history.updated";
       Some "response.audio.delta"] /\
  websocket (exec (commit_audio sample_runner failing_pipeline) helper_with_audio)
    = [transform_data_to_events [x01; x02]] /\
  last (websocket (exec (commit_audio sample_runner speaking_pipeline) helper_with_audio))
    <> Some audio_done /\
  last (websocket (exec (commit_audio sample_runner failing_pipeline) helper_with_audio))
    <> Some audio_done.
Proof.
  split; [reflexivity|]. split; [reflexivity|]. split; discriminate.
Qed.

(** ** Appending audio *)

Lemma int16_of_bytes_range (lo hi : byte) : in_int16 (int16_of_bytes lo hi).
Proof.
  unfold in_int16, int16_of_bytes.
  pose proof (Byte.to_N_bounded lo) as Hlo. pose proof (Byte.to_N_bounded hi) as Hhi.
  destruct (Z.ltb_spec (Z.of_N (Byte.to_N lo) + 256 * Z.of_N (Byte.to_N hi)) 32768); lia.
Qed.

Lemma int16_samples_range (bs : list byte) (samples : list Z) :
  int16_samples bs = Some samples -> Forall in_int16 samples.
Proof.
  revert samples. induction bs as [bs IH] using (induction_ltof1 _ (@length byte)).
  intros samples H. destruct bs as [|lo [|hi rest]]; simpl in H.
  - injection H; intros <-. constructor.
  - discriminate.
  - destruct (int16_samples rest) as [l|] eqn:Hrest; [|discriminate].
    injection H; intros <-. constructor; [apply int16_of_bytes_range|].
    apply (IH rest); [unfold ltof; simpl; lia | exact Hrest].
Qed.

Lemma normalized_range (v : Z) :
  in_int16 v -> (-1 <= inject_Z v / 32768 /\ inject_Z v / 32768 < 1)%Q.
Proof.
  unfold in_int16, Qle, Qlt, Qdiv, Qmult, Qinv, inject_Z. simpl. lia.
Qed.

Lemma append_audio_decoded (delta : string) (samples : list Z) (c : WebsocketHelper) :
  decode_pcm16 delta = Ok samples ->
  append_audio delta c =
    (Ok tt, set_audio_buffer (Some (buffered c ++ [Int16Array samples])) c).
Proof.
  unfold decode_pcm16, append_audio, try_except, bind, lift, modify, frombuffer_int16.
  intros H. destruct (b64decode delta) as [bs|]; [|discriminate].
  destruct (int16_samples bs) as [l|]; [|discriminate].
  injection H; intros <-. unfold buffered. destruct c as [w h a p [b|]]; reflexivity.
Qed.

Lemma append_audio_undecodable (delta : string) (e : exn) (c : WebsocketHelper) :
  decode_pcm16 delta = Raise e ->
  append_audio delta c = (Ok tt, c).
Proof.
  unfold decode_pcm16, append_audio, try_except, bind, lift, modify, frombuffer_int16.
  intros H. destruct (b64decode delta) as [bs|]; [|reflexivity].
  destruct (int16_samples bs) as [l|]; [discriminate | reflexivity].
Qed.

Lemma extract_audio_chunk_decoded (data : json) (delta : string) :
  getitem data "delta" = Ok (JStr delta) ->
  extract_audio_chunk data =
    match decode_pcm16 delta with
    | Ok samples => Ok (Float32Array (map (fun v => inject_Z v / 32768)%Q samples))
    | Raise e => Raise e
    end.
Proof.
  intros H. unfold extract_audio_chunk, decode_pcm16, frombuffer_int16. rewrite H.
  destruct (b64decode delta) as [bs|]; [|reflexivity].
  destruct (int16_samples bs) as [l|]; [|reflexivity].
  unfold normalize. simpl. rewrite map_map. reflexivity.
Qed.

(** C2, as the code has it.  For a chunk that decodes to 16-bit samples:
    [append_audio] appends those integer samples to the buffer, as they
    are; [extract_audio_chunk], which the endpoint loop appends to its own
    list, divides each by 32768, which lands in [-1, 1).  For a chunk that
    does not decode: [append_audio] catches the exception and leaves the
    helper, buffer included, as it was; [extract_audio_chunk] raises it. *)
Theorem audio_append_decoding (data : json) (delta : string) (c : WebsocketHelper) :
  getitem data "delta" = Ok (JStr delta) ->
  match decode_pcm16 delta with
  | Ok samples =>
      Forall in_int16 samples /\
      append_audio delta c =
        (Ok tt, set_audio_buffer (Some (buffered c ++ [Int16Array samples])) c) /\
      extract_audio_chunk data =
        Ok (Float32Array (map (fun v => inject_Z v / 32768)%Q samples)) /\
      Forall (fun v => -1 <= inject_Z v / 32768 /\ inject_Z v / 32768 < 1)%Q samples
  | Raise e =>
      append_audio delta c = (Ok tt, c) /\
      extract_audio_chunk data = Raise e
  end.
Proof.
  intros Hdelta. rewrite (extract_audio_chunk_decoded data delta Hdelta).
  destruct (decode_pcm16 delta) as [samples|e] eqn:Hdec.
  - assert (Hrange : Forall in_int16 samples).
    { unfold decode_pcm16 in Hdec. destruct (b64decode delta) as [bs|]; [|discriminate].
      destruct (int16_samples bs) as [l|] eqn:Hl; [|discriminate].
      injection Hdec; intros <-. eapply int16_samples_range, Hl. }
    split; [exact Hrange|]. split; [apply append_audio_decoded, Hdec|].
    split; [reflexivity|].
    eapply Forall_impl; [exact Hrange|]. intros v Hv. apply normalized_range, Hv.
  - split; [eapply append_audio_undecodable, Hdec | reflexivity].
Qed.

Example sample_chunk_samples : decode_pcm16 "AEAA/38A" = Ok [16384; -256; 127]%Z.
Proof. reflexivity. Qed.

Lemma audio_append_decoding_witness :
  match decode_pcm16 "AEAA/38A" with
  | Ok samples =>
      Forall in_int16 samples /\
      append_audio "AEAA/38A" fresh_helper =
        (Ok tt,
         set_audio_buffer (Some (buffered fresh_helper ++ [Int16Array samples]))
           fresh_helper) /\
      extract_audio_chunk sample_chunk =
        Ok (Float32Array (map (fun v => inject_Z v / 32768)%Q samples)) /\
      Forall (fun v => -1 <= inject_Z v / 32768 /\ inject_Z v / 32768 < 1)%Q samples
  | Raise e =>
      append_audio "AEAA/38A" fresh_helper = (Ok tt, fresh_helper) /\
      extract_audio_chunk sample_chunk = Raise e
  end.
Proof.
  apply (audio_append_decoding sample_chunk "AEAA/38A" fresh_helper). reflexivity.
Defined.

(** The claim as stated fails on [append_audio]: the chunk is stored as
    its 16-bit integers, not as samples divided by 32768. *)
Lemma append_audio_stores_integers :
  audio_buffer (exec (append_audio "AEAA/38A") fresh_helper)
    = Some [Int16Array [16384; -256; 127]%Z] /\
  audio_buffer (exec (append_audio "AEAA/38A") fresh_helper)
    <> Some [normalize (Int16Array [16384; -256; 127]%Z)].
Proof. split; [reflexivity | discriminate]. Qed.

(** A chunk that does not decode: dropped by [append_audio]; in the
    endpoint loop the exception leaves the loop, and the messages after it
    are not read. *)
Example append_audio_bad_chunk :
  append_audio "AEA" helper_with_audio = (Ok tt, helper_with_audio).
Proof. reflexivity. Qed.

Example endpoint_bad_chunk :
  websocket_endpoint sample_runner idle_pipeline
    [sample_chunk;
     JObj [("type", JStr "input_audio_buffer.append"); ("delta", JStr "AEA")];
     sample_chunk]
  = (Raise BinasciiError,
     mkEndpoint fresh_helper
       [Float32Array [inject_Z 16384 / 32768; inject_Z (-256) / 32768;
                      inject_Z 127 / 32768]%Q]).
Proof. reflexivity. Qed.

Lemma append_audio_all (deltas : list string) (c : WebsocketHelper) :
  exists c',
    for_each deltas append_audio c = (Ok tt, c') /\
    buffered c' = buffered c ++ decoded_chunks deltas /\
    websocket c' = websocket c.
Proof.
  revert c. induction deltas as [|delta rest IH]; intros c; simpl.
  - exists c. rewrite app_nil_r. repeat split.
  - destruct (decode_pcm16 delta) as [samples|e] eqn:Hdec.
    + rewrite (bind_ok _ _ c _ tt (append_audio_decoded delta samples c Hdec)).
      destruct (IH (set_audio_buffer (Some (buffered c ++ [Int16Array samples])) c))
        as (c' & Hrun & Hb & Hw).
      exists c'. split; [exact Hrun|]. split; [|exact Hw].
      rewrite Hb. unfold buffered at 1. simpl. rewrite <- app_assoc. reflexivity.
    + rewrite (bind_ok _ _ c _ tt (append_audio_undecodable delta e c Hdec)).
      apply IH.
Qed.

(** Chunks appended to a fresh helper and then committed: one run of the
    pipeline, on the samples of the decoded chunks, in arrival order. *)
Lemma append_then_commit (runner : Runner) (pipeline : VoicePipeline)
    (deltas : list string) (ws : WebSocket) (agent : Agent) :
  decoded_chunks deltas <> [] ->
  exists c1 c2,
    for_each deltas append_audio (new_helper ws (JArr []) agent) = (Ok tt, c1) /\
    commit_audio runner pipeline c1 =
      (Ok [mkAudioInput (Int16Array (concat (map int16_values (decoded_chunks deltas))))],
       c2) /\
    audio_buffer c2 = Some [].
Proof.
  intros Hne.
  destruct (append_audio_all deltas (new_helper ws (JArr []) agent)) as (c1 & Hrun & Hb & _).
  simpl in Hb. unfold buffered in Hb.
  destruct (audio_buffer c1) as [chunks|] eqn:Hbuf; simpl in Hb; [|congruence].
  subst chunks.
  assert (Hall : forallb is_int16 (decoded_chunks deltas) = true).
  { clear. induction deltas as [|d rest IH]; simpl; [reflexivity|].
    destruct (decode_pcm16 d); simpl; exact IH. }
  assert (Hnp : np_concatenate (decoded_chunks deltas) =
                Ok (Int16Array (concat (map int16_values (decoded_chunks deltas))))).
  { unfold np_concatenate. rewrite Hall.
    destruct (decoded_chunks deltas); [congruence | reflexivity]. }
  destruct (commit_audio_nonempty (sends_only not_audio_done) runner pipeline c1
              _ _ (sends_only_reset _) Hbuf Hne Hnp) as (c2 & Hc & Hb2 & _).
  exists c1, c2. repeat split; assumption.
Qed.

(** ** The tables of [WebSocketManager] *)

#[local] Instance keys_kept_preorder : PreOrder keys_kept.
Proof.
  split.
  - intros m. split; reflexivity.
  - intros a b c [H1 H2] [H3 H4]. split; congruence.
Qed.

Lemma connect_run (accept : result unit) (websocket : WebSocket) (client_id : string)
    (m : WebSocketManager) :
  exec (connect accept websocket client_id) m =
    match accept with
    | Ok _ =>
        mkManager (<[client_id := websocket]> (active_connections m))
          (<[client_id := new_helper websocket (JArr []) job_tracking_agent]>
             (voice_pipelines m))
    | Raise _ => m
    end.
Proof. destruct accept as [[]|e]; reflexivity. Qed.

Lemma disconnect_run (client_id : string) (m : WebSocketManager) :
  exec (disconnect client_id) m =
    mkManager (delete client_id (active_connections m))
      (delete client_id (voice_pipelines m)).
Proof.
  unfold exec, disconnect, bind, modify. simpl.
  destruct m as [a p]. simpl.
  assert (Ha : (if bool_decide (client_id ∈ dom a)
                then set_active_connections (delete client_id a) (mkManager a p)
                else mkManager a p) = mkManager (delete client_id a) p).
  { case_bool_decide as Hin; [reflexivity|].
    rewrite delete_id; [reflexivity|]. apply not_elem_of_dom. exact Hin. }
  rewrite Ha. clear Ha. simpl. case_bool_decide as Hin; [reflexivity|].
  unfold set_voice_pipelines. simpl.
  rewrite (delete_id p); [reflexivity|]. apply not_elem_of_dom. exact Hin.
Qed.

Lemma steps_with_helper {A} (client_id : string) (m : M A) :
  steps keys_kept (with_helper client_id m).
Proof.
  intros mgr. unfold with_helper.
  destruct (voice_pipelines mgr !! client_id) as [helper|] eqn:Hl.
  - destruct (m helper) as [r helper']. unfold keys_kept. simpl. split; [reflexivity|].
    rewrite dom_insert_L. apply subseteq_union_1_L, singleton_subseteq_l.
    eapply elem_of_dom_2, Hl.
  - unfold keys_kept. simpl. split; reflexivity.
Qed.

Lemma steps_handle_message (runner : Runner) (pipeline : VoicePipeline)
    (client_id : string) (data : json) :
  steps keys_kept (handle_message runner pipeline client_id data).
Proof.
  unfold handle_message.
  apply (steps_try_except keys_kept); [|intros e; apply (steps_ret keys_kept)].
  apply (steps_bind keys_kept); [apply (steps_lift keys_kept)|]. intros message_type.
  destruct (eq_str message_type "history.update").
  { unfold _handle_history_update.
    repeat (apply (steps_bind keys_kept); [apply (steps_lift keys_kept)|]; intros ?).
    apply steps_with_helper. }
  destruct (eq_str message_type "input_audio_buffer.append").
  { unfold _handle_audio_append.
    repeat (apply (steps_bind keys_kept); [apply (steps_lift keys_kept)|]; intros ?).
    destruct a; first [apply steps_with_helper | apply (steps_ret keys_kept)]. }
  destruct (eq_str message_type "input_audio_buffer.commit").
  { apply steps_with_helper. }
  apply (steps_ret keys_kept).
Qed.

Lemma run_op_same_keys (op : manager_op) (m : WebSocketManager) :
  same_keys m -> same_keys (run_op op m).
Proof.
  unfold same_keys. intros H. destruct op as [accept ws id | id | runner pipeline id data];
    simpl.
  - rewrite connect_run. destruct accept; [|exact H].
    simpl. rewrite !dom_insert_L, H. reflexivity.
  - rewrite disconnect_run. simpl. rewrite !dom_delete_L, H. reflexivity.
  - destruct (steps_handle_message runner pipeline id data m) as [Ha Hp].
    unfold exec. rewrite Ha, Hp. exact H.
Qed.

(** C9.  After [__init__] and any sequence of [connect], [disconnect] and
    [handle_message] calls, [active_connections] and [voice_pipelines] have
    the same keys: a client identifier is a key of one if and only if it
    is a key of the other. *)
Theorem manager_tables_same_keys (ops : list manager_op) (client_id : string) :
  client_id ∈ dom (active_connections (run_ops ops)) <->
  client_id ∈ dom (voice_pipelines (run_ops ops)).
Proof.
  assert (H : same_keys (run_ops ops)).
  { unfold run_ops.
    assert (Hgen : forall m, same_keys m ->
                             same_keys (fold_left (fun m op => run_op op m) ops m)).
    { induction ops as [|op ops IH]; intros m Hm; simpl; [exact Hm|].
      apply IH, run_op_same_keys, Hm. }
    apply Hgen. unfold same_keys, new_manager. simpl. rewrite !dom_empty_L. reflexivity. }
  unfold same_keys in H. rewrite H. reflexivity.
Qed.

Example manager_connect_disconnect :
  let m := run_ops [OpConnect (Ok tt) [] "client_1"; OpConnect (Ok tt) [] "client_2";
                    OpMessage sample_runner idle_pipeline "client_1" sample_chunk;
                    OpConnect (Raise RuntimeError) [] "client_3";
                    OpDisconnect "client_2"; OpDisconnect "client_9"] in
  active_connections m !! "client_1" = Some [] /\
  buffered <$> (voice_pipelines m !! "client_1")
    = Some [Int16Array [16384; -256; 127]%Z] /\
  active_connections m !! "client_2" = None /\
  voice_pipelines m !! "client_2" = None /\
  active_connections m !! "client_3" = None /\
  voice_pipelines m !! "client_3" = None.
Proof. vm_compute. repeat split; reflexivity. Qed.

(** ** Lookup by reference *)

Section FindOne.

Context (filter : application -> bool).

Let pick (best : option application) (d : application) : option application :=
  if filter d then
    match best with
    | None => Some d
    | Some b =>
        if (timeline (created_at b) <? timeline (created_at d))%Z then Some d else best
    end
  else best.

Lemma fold_pick_some (coll : list application) (best : option application)
    (d : application) :
  fold_left pick coll best = Some d ->
  (best = Some d \/ (In d coll /\ filter d = true)) /\
  (forall b, best = Some b -> (timeline (created_at b) <= timeline (created_at d))%Z) /\
  (forall d', In d' coll -> filter d' = true ->
     (timeline (created_at d') <= timeline (created_at d))%Z).
Proof.
  revert best. induction coll as [|x coll IH]; intros best H; simpl in H.
  - split; [left; exact H|]. split.
    + intros b Hb. rewrite Hb in H. injection H; intros ->. lia.
    + intros d' [].
  - destruct (IH _ H) as (Hsrc & Hbest & Hall). unfold pick in Hsrc, Hbest.
    destruct (filter x) eqn:Hfx.
    + destruct best as [b|].
      * destruct (Z.ltb_spec (timeline (created_at b)) (timeline (created_at x))) as [Hlt|Hge].
        -- split; [|split].
           ++ right. destruct Hsrc as [Hs | [Hin Hf]].
              ** injection Hs; intros <-. split; [left; reflexivity | exact Hfx].
              ** split; [right; exact Hin | exact Hf].
           ++ intros b' Hb'. injection Hb'; intros <-.
              specialize (Hbest x eq_refl). lia.
           ++ intros d' [<- | Hin] Hf; [apply Hbest; reflexivity | apply Hall; assumption].
        -- split; [|split].
           ++ destruct Hsrc as [Hs | [Hin Hf]]; [left; exact Hs|].
              right. split; [right; exact Hin | exact Hf].
           ++ exact Hbest.
           ++ intros d' [<- | Hin] Hf; [|apply Hall; assumption].
              specialize (Hbest b eq_refl). lia.
      * split; [|split].
        -- right. destruct Hsrc as [Hs | [Hin Hf]].
           ++ injection Hs; intros <-. split; [left; reflexivity | exact Hfx].
           ++ split; [right; exact Hin | exact Hf].
        -- intros b Hb. discriminate Hb.
        -- intros d' [<- | Hin] Hf; [apply Hbest; reflexivity | apply Hall; assumption].
    + split; [|split].
      * destruct Hsrc as [Hs | [Hin Hf]]; [left; exact Hs|].
        right. split; [right; exact Hin | exact Hf].
      * exact Hbest.
      * intros d' [<- | Hin] Hf; [congruence | apply Hall; assumption].
Qed.

Lemma fold_pick_none (coll : list application) (best : option application) :
  fold_left pick coll best = None ->
  best = None /\ forall d, In d coll -> filter d = false.
Proof.
  revert best. induction coll as [|x coll IH]; intros best H; simpl in H.
  - split; [exact H | intros d []].
  - destruct (IH _ H) as [Hp Hall]. unfold pick in Hp.
    destruct (filter x) eqn:Hfx.
    + destruct best as [b|]; [|discriminate Hp].
      destruct (timeline (created_at b) <? timeline (created_at x))%Z; discriminate Hp.
    + split; [exact Hp|]. intros d [<- | Hin]; [exact Hfx | apply Hall, Hin].
Qed.

Lemma find_one_some (coll : list application) (d : application) :
  find_one filter coll = Some d -> most_recent_match filter coll d.
Proof.
  intros H. destruct (fold_pick_some coll None d H) as ([Hs | [Hin Hf]] & _ & Hall).
  - discriminate Hs.
  - split; [exact Hin|]. split; [exact Hf | exact Hall].
Qed.

Lemma find_one_none (coll : list application) :
  find_one filter coll = None <-> forall d, In d coll -> filter d = false.
Proof.
  split.
  - intros H. apply (fold_pick_none coll None H).
  - intros Hall. destruct (find_one filter coll) as [d|] eqn:H; [|reflexivity].
    destruct (find_one_some coll d H) as (Hin & Hf & _).
    rewrite (Hall d Hin) in Hf. discriminate Hf.
Qed.

End FindOne.

Lemma find_one_ext (f g : application -> bool) (coll : list application) :
  (forall d, f d = g d) -> find_one f coll = find_one g coll.
Proof.
  intros H. unfold find_one. generalize (@None application).
  induction coll as [|x coll IH]; intros best; simpl; [reflexivity|].
  rewrite H. apply IH.
Qed.

Lemma wildcard_at_literal (p t : string) :
  literal p = true -> wildcard_at p t = starts_with (lower p) (lower t).
Proof.
  revert t. induction p as [|a p IH]; intros t Hp; [destruct t; reflexivity|].
  simpl in Hp. apply andb_true_iff in Hp. destruct Hp as [Ha Hp].
  destruct t as [|b t]; [reflexivity|]. simpl.
  apply negb_true_iff in Ha. rewrite Ha, (IH t Hp). reflexivity.
Qed.

Lemma wildcard_search_literal (p t : string) :
  literal p = true -> wildcard_search p t = icontains p t.
Proof.
  intros Hp. unfold icontains. induction t as [|b t IH]; simpl.
  - rewrite (wildcard_at_literal p EmptyString Hp). reflexivity.
  - rewrite (wildcard_at_literal p (String b t) Hp), IH. reflexivity.
Qed.

(** C8, as the code has it.  The reference is a pattern of the store's
    regular expressions, matched without regard to case.  For a reference
    that the store takes as a pattern and on which that match is the
    case-insensitive substring test (one with no metacharacter), the
    lookup returns, and it searches the documents of the caller: if some
    company name contains the reference, it returns a most recently
    created one of those; if none does and some role title contains it,
    a most recently created one of those; otherwise nothing. *)
Theorem find_application_by_reference_substring
    (regex : string -> option (string -> bool)) (matches : string -> bool)
    (coll : list application) (application_ref : string) (uid : option string) :
  regex application_ref = Some matches ->
  (forall t, matches t = icontains application_ref t) ->
  let by_company d := owned_by uid d && icontains application_ref (company d) in
  let by_role d := owned_by uid d && icontains application_ref (role_title d) in
  let found := find_application_by_reference regex coll application_ref uid in
  ((exists d, In d coll /\ by_company d = true) ->
     exists d, most_recent_match by_company coll d /\
               found = Ok (Some (serialize_document d))) /\
  ((forall d, In d coll -> by_company d = false) ->
   (exists d, In d coll /\ by_role d = true) ->
     exists d, most_recent_match by_role coll d /\
               found = Ok (Some (serialize_document d))) /\
  ((forall d, In d coll -> by_company d = false /\ by_role d = false) ->
     found = Ok None).
Proof.
  intros Hregex Hlit by_company by_role found.
  assert (Hc : find_one (fun d => String.eqb (user_id d) (ObjectId (get_user_id uid))
                                  && matches (company d)) coll
               = find_one by_company coll).
  { apply find_one_ext. intros d. rewrite Hlit. reflexivity. }
  assert (Hr : find_one (fun d => String.eqb (user_id d) (ObjectId (get_user_id uid))
                                  && matches (role_title d)) coll
               = find_one by_role coll).
  { apply find_one_ext. intros d. rewrite Hlit. reflexivity. }
  unfold found, find_application_by_reference. rewrite Hregex, Hc, Hr.
  clear Hc Hr found.
  split; [|split].
  - intros (d0 & Hin & Hf).
    destruct (find_one by_company coll) as [d|] eqn:Hfind.
    + exists d. split; [apply find_one_some, Hfind | reflexivity].
    + rewrite find_one_none in Hfind. rewrite (Hfind d0 Hin) in Hf. discriminate Hf.
  - intros Hnone (d0 & Hin & Hf).
    apply find_one_none in Hnone. rewrite Hnone.
    destruct (find_one by_role coll) as [d|] eqn:Hfind.
    + exists d. split; [apply find_one_some, Hfind | reflexivity].
    + rewrite find_one_none in Hfind. rewrite (Hfind d0 Hin) in Hf. discriminate Hf.
  - intros Hnone.
    assert (H1 : find_one by_company coll = None)
      by (apply find_one_none; intros d Hd; apply (Hnone d Hd)).
    assert (H2 : find_one by_role coll = None)
      by (apply find_one_none; intros d Hd; apply (Hnone d Hd)).
    rewrite H1, H2. reflexivity.
Qed.

Lemma find_application_by_reference_substring_witness :
  let by_company d := owned_by (Some sample_user) d && icontains "goo" (company d) in
  let by_role d := owned_by (Some sample_user) d && icontains "goo" (role_title d) in
  let found :=
    find_application_by_reference wildcard_regex sample_applications "goo"
      (Some sample_user) in
  ((exists d, In d sample_applications /\ by_company d = true) ->
     exists d, most_recent_match by_company sample_applications d /\
               found = Ok (Some (serialize_document d))) /\
  ((forall d, In d sample_applications -> by_company d = false) ->
   (exists d, In d sample_applications /\ by_role d = true) ->
     exists d, most_recent_match by_role sample_applications d /\
               found = Ok (Some (serialize_document d))) /\
  ((forall d, In d sample_applications -> by_company d = false /\ by_role d = false) ->
     found = Ok None).
Proof.
  apply (find_application_by_reference_substring wildcard_regex (wildcard_search "goo")
           sample_applications "goo" (Some sample_user)).
  - reflexivity.
  - intros t. apply wildcard_search_literal. reflexivity.
Defined.

(** The second application is the one found: the most recent of the
    caller's two whose company contains the reference. *)
Example find_application_goo :
  find_application_by_reference wildcard_regex sample_applications "goo"
    (Some sample_user)
  = Ok (Some (JObj [("_id", JStr "65f000000000000000000002");
                    ("user_id", JStr sample_user);
                    ("company", JStr "Googolplex Labs");
                    ("role_title", JStr "Data Analyst");
                    ("created_at", JStr "2025-04-12T16:05:59.250000");
                    ("status_stage", JStr "draft")])).
Proof. reflexivity. Qed.

(** The claim as stated fails: the reference [.] is a substring of no
    company name and of no role title here, and the lookup finds an
    application, since as a pattern it matches any character. *)
Lemma find_application_by_reference_pattern :
  (forall d, In d sample_applications ->
     icontains "." (company d) = false /\ icontains "." (role_title d) = false) /\
  find_application_by_reference wildcard_regex sample_applications "."
    (Some sample_user)
  = Ok (Some (serialize_document
                (mkApplication "65f000000000000000000004" sample_user "Initech"
                   "Google Ads Specialist" (mkDatetime 2025 5 20 11 45 10 0) []))).
Proof.
  split; [|reflexivity].
  intros d Hd. simpl in Hd.
  destruct Hd as [<- | [<- | [<- | [<- | []]]]]; split; reflexivity.
Qed.

(** ** The generator, resumed step by step *)

Lemma stream_loop_exhausted (runner : Runner) (n : nat) (s : WebsocketHelper) :
  stream_loop runner (repeat Resume n) Exhausted s = (Ok tt, s).
Proof. induction n as [|n IH]; simpl; [reflexivity | exact IH]. Qed.

(** Resuming the generator until it ends does what the loop of
    [Workflow_run] does with a body that ignores the tokens. *)
Lemma stream_loop_resumes (runner : Runner) (output : RunResultStreaming)
    (pending : list StreamEvent) :
  forall (n : nat) (s : WebsocketHelper),
    count_if is_text_output pending < n ->
    stream_loop runner (repeat Resume n) (Streaming output pending) s =
      bind
        (for_each pending (fun event =>
           handle_new_item event >>
           if is_text_output event then ret tt else ret tt))
        (fun _ =>
           match stream_failure output with
           | Some e => raise e
           | None => text_output_complete output true
           end) s.
Proof.
  induction pending as [|event rest IH]; intros n s Hn.
  - destruct n as [|n]; [simpl in Hn; lia|]. simpl.
    unfold bind, ret, raise. destruct (stream_failure output) as [e|]; [reflexivity|].
    destruct (text_output_complete output true s) as [[[]|e] s1]; [|reflexivity].
    apply stream_loop_exhausted.
  - destruct n as [|n]; [simpl in Hn; lia|].
    simpl repeat. simpl stream_loop. simpl Workflow_next. simpl Workflow_resume.
    simpl for_each. simpl in Hn. unfold bind at 1 2 3 4 5.
    destruct (handle_new_item event s) as [[[]|e] s1]; [|reflexivity].
    destruct (is_text_output event).
    + unfold ret at 1 2. apply IH. lia.
    + unfold ret at 1. specialize (IH (S n) s1). simpl in IH. apply IH. lia.
Qed.

Lemma Workflow_run_by_steps (runner : Runner) (input_text : json) (n : nat)
    (s : WebsocketHelper) :
  (forall agent h, count_if is_text_output (stream_events (runner agent h)) < n) ->
  stream_loop runner (repeat Resume (S n)) (Created input_text) s =
    Workflow_run runner (fun _ => ret tt) input_text s.
Proof.
  intros Hn.
  destruct (show_user_input input_text s) as [[[h agent]|e] s1] eqn:Hshow.
  - transitivity (stream_loop runner (repeat Resume (S n))
                    (Streaming (runner agent h) (stream_events (runner agent h))) s1).
    + simpl. unfold bind. rewrite Hshow. reflexivity.
    + rewrite stream_loop_resumes by (specialize (Hn agent h); lia).
      unfold Workflow_run, bind. rewrite Hshow. reflexivity.
  - simpl. unfold Workflow_run, bind. rewrite Hshow. reflexivity.
Qed.

(** ** A session through the endpoint *)

(** Two chunks, a commit, then a text message: the audio frames of the
    commit come with no [audio.done], both buffers are empty after it, and
    the text turn ends with [response.done]. *)
Example endpoint_session :
  let '(r, st) :=
    websocket_endpoint sample_runner failing_pipeline
      [sample_chunk; sample_chunk;
       JObj [("type", JStr "input_audio_buffer.commit")];
       sample_new_text;
       JObj [("type", JStr "session.close")]] in
  r = Ok tt /\
  endpoint_audio_buffer st = [] /\
  audio_buffer (connection st) = Some [] /\
  map frame_type (websocket (connection st))
    = [Some "response.audio.delta"; Some "history.updated"; Some "history.updated";
       Some "history.updated"; Some "history.updated"; Some "history.updated"] /\
  last (map frame_reason (websocket (connection st))) = Some (Some "response.done").
Proof. vm_compute. repeat split; reflexivity. Qed.

(** * Further properties of the session controller *)

(** ** The four verdicts on a message *)

(** X1.  On a message for which the four tests of the classifier return,
    at most one of them holds: the order in which the endpoint tries them
    does not decide the branch taken. *)
Theorem classifier_verdicts_exclusive (data verdict : json) (sync chunk complete : bool) :
  is_sync_message data = Ok sync ->
  is_new_text_message data = Ok verdict ->
  is_new_audio_chunk data = Ok chunk ->
  is_audio_complete data = Ok complete ->
  as_count sync + as_count (truthy verdict) + as_count chunk + as_count complete <= 1.
Proof.
  unfold is_sync_message, is_new_text_message, is_new_audio_chunk, is_audio_complete.
  destruct (getitem data "type") as [ty|]; [|discriminate].
  intros Hs Hv Hc Hk. injection Hc; intros <-. injection Hk; intros <-.
  destruct (eq_str ty "history.update") eqn:Hty.
  - apply eq_str_true in Hty. subst ty. simpl eq_str. simpl as_count at 3 4.
    destruct (getitem data "inputs") as [inputs|]; [|discriminate].
    destruct (truthy inputs) eqn:Ht; simpl in Hs, Hv.
    + destruct (getitem_last inputs) as [item|]; [|discriminate].
      destruct (get item "role") as [role|]; [|discriminate].
      injection Hs; intros <-. injection Hv; intros <-. simpl.
      destruct (eq_str role "user"); simpl; lia.
    + injection Hs; intros <-. injection Hv; intros <-. rewrite Ht. simpl. lia.
  - injection Hs; intros <-. injection Hv; intros <-. simpl.
    destruct ty as [| | | t | |]; simpl; try lia.
    destruct (String.eqb_spec t "input_audio_buffer.append") as [-> | Hne]; simpl;
      [lia | destruct (String.eqb t "input_audio_buffer.commit"); simpl; lia].
Qed.

Lemma classifier_verdicts_exclusive_witness :
  as_count false + as_count (truthy (JBool true)) + as_count false + as_count false <= 1.
Proof.
  apply (classifier_verdicts_exclusive sample_new_text (JBool true) false false false);
    reflexivity.
Defined.

(** ** The branches of the endpoint loop *)

(** X2.  A message whose type is none of the three the endpoint knows is
    dropped: the turn of the loop returns and nothing has changed. *)
Theorem endpoint_drops_unknown_type (runner : Runner) (pipeline : VoicePipeline)
    (message ty : json) (st : Endpoint) :
  getitem message "type" = Ok ty ->
  eq_str ty "history.update" = false ->
  eq_str ty "input_audio_buffer.append" = false ->
  eq_str ty "input_audio_buffer.commit" = false ->
  websocket_endpoint_step runner pipeline message st = (Ok tt, st).
Proof.
  intros Hty H1 H2 H3. unfold websocket_endpoint_step.
  rewrite (bind_ok _ _ st st false)
    by (unfold lift, is_sync_message; rewrite Hty, H1; reflexivity).
  rewrite (bind_ok _ _ st st (JBool false))
    by (unfold lift, is_new_text_message; rewrite Hty, H1; reflexivity).
  cbn [truthy].
  rewrite (bind_ok _ _ st st false)
    by (unfold lift, is_new_audio_chunk; rewrite Hty, H2; reflexivity).
  rewrite (bind_ok _ _ st st false)
    by (unfold lift, is_audio_complete; rewrite Hty, H3; reflexivity).
  reflexivity.
Qed.

Lemma endpoint_drops_unknown_type_witness :
  websocket_endpoint_step sample_runner speaking_pipeline
    (JObj [("type", JStr "session.update"); ("inputs", JArr [])]) fresh_endpoint
  = (Ok tt, fresh_endpoint).
Proof.
  apply (endpoint_drops_unknown_type sample_runner speaking_pipeline
           (JObj [("type", JStr "session.update"); ("inputs", JArr [])])
           (JStr "session.update") fresh_endpoint); reflexivity.
Defined.

(** X3.  A sync message replaces the history by its [inputs] as they are,
    puts back the starting agent when [reset_agent] is truthy, and sends
    no frame; the runner and the pipeline are not used, the list of
    chunks is kept. *)
Theorem endpoint_sync_replaces_history (runner : Runner) (pipeline : VoicePipeline)
    (message : json) (st : Endpoint) :
  is_sync_message message = Ok true ->
  exists inputs reset,
    getitem message "inputs" = Ok inputs /\
    get_default message "reset_agent" (JBool false) = Ok reset /\
    websocket_endpoint_step runner pipeline message st =
      (Ok tt,
       mkEndpoint
         (mkHelper (websocket (connection st)) inputs
            (if truthy reset then job_tracking_agent else latest_agent (connection st))
            (partial_response (connection st)) (audio_buffer (connection st)))
         (endpoint_audio_buffer st)).
Proof.
  intros Hsync.
  assert (Hin : exists inputs, getitem message "inputs" = Ok inputs).
  { unfold is_sync_message in Hsync.
    destruct (getitem message "type") as [ty|]; [|discriminate].
    destruct (eq_str ty "history.update"); [|discriminate].
    destruct (getitem message "inputs") as [inputs|]; [|discriminate]. eauto. }
  destruct Hin as [inputs Hin].
  assert (Hobj : exists fs, message = JObj fs).
  { destruct message; simpl in Hin; try discriminate. eauto. }
  destruct Hobj as [fs ->].
  exists inputs, (default (JBool false) (assoc "reset_agent" fs)).
  split; [exact Hin|]. split; [reflexivity|].
  unfold websocket_endpoint_step.
  rewrite (bind_ok _ _ st st true) by (unfold lift; rewrite Hsync; reflexivity).
  cbv iota.
  rewrite (bind_ok _ _ st st inputs) by (unfold lift; rewrite Hin; reflexivity).
  unfold bind, on_connection, zoom, modify, lift, ret. simpl.
  destruct (truthy (default (JBool false) (assoc "reset_agent" fs)));
    destruct st as [c b]; reflexivity.
Qed.

Lemma endpoint_sync_replaces_history_witness :
  exists inputs reset,
    getitem (JObj [("type", JStr "history.update"); ("inputs", JArr []);
                   ("reset_agent", JBool true)]) "inputs" = Ok inputs /\
    get_default (JObj [("type", JStr "history.update"); ("inputs", JArr []);
                       ("reset_agent", JBool true)]) "reset_agent" (JBool false)
      = Ok reset /\
    websocket_endpoint_step sample_runner speaking_pipeline
      (JObj [("type", JStr "history.update"); ("inputs", JArr []);
             ("reset_agent", JBool true)])
      (mkEndpoint helper_with_audio []) =
      (Ok tt,
       mkEndpoint
         (mkHelper (websocket (connection (mkEndpoint helper_with_audio []))) inputs
            (if truthy reset then job_tracking_agent
             else latest_agent (connection (mkEndpoint helper_with_audio [])))
            (partial_response (connection (mkEndpoint helper_with_audio [])))
            (audio_buffer (connection (mkEndpoint helper_with_audio []))))
         (endpoint_audio_buffer (mkEndpoint helper_with_audio []))).
Proof.
  apply (endpoint_sync_replaces_history sample_runner speaking_pipeline
           (JObj [("type", JStr "history.update"); ("inputs", JArr []);
                  ("reset_agent", JBool true)])
           (mkEndpoint helper_with_audio [])).
  reflexivity.
Defined.

Lemma for_each_stops {S A} (pre post : list A) (x : A) (body : A -> ST S unit)
    (s s1 s2 : S) (e : exn) :
  for_each pre body s = (Ok tt, s1) ->
  body x s1 = (Raise e, s2) ->
  for_each (pre ++ x :: post) body s = (Raise e, s2).
Proof.
  intros Hpre Hx. rewrite for_each_app.
  rewrite (bind_ok _ _ s s1 tt Hpre). simpl.
  apply bind_raise, Hx.
Qed.

Lemma for_each_continues {S A} (pre post : list A) (body : A -> ST S unit)
    (s s1 : S) :
  for_each pre body s = (Ok tt, s1) ->
  for_each (pre ++ post) body s = for_each post body s1.
Proof.
  intros Hpre. rewrite for_each_app.
  apply (bind_ok (for_each pre body) (fun _ => for_each post body) s s1 tt Hpre).
Qed.

(** X4.  A message that is not an object, or has no [type], raises in the
    first test of the loop: the endpoint leaves the loop there, with the
    state the earlier messages left; the messages after it are never
    read. *)
Theorem endpoint_ends_at_untyped_message (runner : Runner) (pipeline : VoicePipeline)
    (earlier later : list json) (message : json) (e : exn) (st : Endpoint) :
  websocket_endpoint runner pipeline earlier = (Ok tt, st) ->
  getitem message "type" = Raise e ->
  websocket_endpoint runner pipeline (earlier ++ message :: later) = (Raise e, st).
Proof.
  intros Hpre Hty. unfold websocket_endpoint in *.
  apply (for_each_stops earlier later message _ _ st st e Hpre).
  unfold websocket_endpoint_step. apply bind_raise.
  unfold lift, is_sync_message. rewrite Hty. reflexivity.
Qed.

Lemma endpoint_ends_at_untyped_message_witness :
  websocket_endpoint sample_runner speaking_pipeline
    ([sample_chunk] ++ JObj [("inputs", JArr [])] :: [sample_new_text])
  = (Raise KeyError,
     mkEndpoint fresh_helper
       [Float32Array [inject_Z 16384 / 32768; inject_Z (-256) / 32768;
                      inject_Z 127 / 32768]%Q]).
Proof.
  apply (endpoint_ends_at_untyped_message sample_runner speaking_pipeline
           [sample_chunk] [sample_new_text] (JObj [("inputs", JArr [])]) KeyError);
    reflexivity.
Defined.

(** ** Audio through the endpoint *)

Lemma endpoint_step_chunk (runner : Runner) (pipeline : VoicePipeline)
    (m : json) (delta : string) (st : Endpoint) :
  chunk_message m delta ->
  websocket_endpoint_step runner pipeline m st =
    match decode_pcm16 delta with
    | Ok samples =>
        (Ok tt, mkEndpoint (connection st) (endpoint_audio_buffer st ++ [float_chunk samples]))
    | Raise e => (Raise e, st)
    end.
Proof.
  intros [Hty Hdelta]. unfold websocket_endpoint_step.
  rewrite (bind_ok _ _ st st false)
    by (unfold lift, is_sync_message; rewrite Hty; reflexivity).
  rewrite (bind_ok _ _ st st (JBool false))
    by (unfold lift, is_new_text_message; rewrite Hty; reflexivity).
  cbn [truthy].
  rewrite (bind_ok _ _ st st true)
    by (unfold lift, is_new_audio_chunk; rewrite Hty; reflexivity).
  cbv iota. unfold bind, lift, modify.
  rewrite (extract_audio_chunk_decoded m delta Hdelta).
  destruct (decode_pcm16 delta); reflexivity.
Qed.

(** X5.  An append message whose chunk does not decode ends the endpoint
    loop with the exception of the decoder: unlike [append_audio], the
    endpoint has no handler around the decoding.  The chunks gathered so
    far are not committed and the later messages are never read. *)
Theorem endpoint_ends_at_bad_chunk (runner : Runner) (pipeline : VoicePipeline)
    (earlier later : list json) (message : json) (delta : string) (e : exn)
    (st : Endpoint) :
  websocket_endpoint runner pipeline earlier = (Ok tt, st) ->
  chunk_message message delta ->
  decode_pcm16 delta = Raise e ->
  websocket_endpoint runner pipeline (earlier ++ message :: later) = (Raise e, st).
Proof.
  intros Hpre Hm Hdec. unfold websocket_endpoint in *.
  apply (for_each_stops earlier later message _ _ st st e Hpre).
  rewrite (endpoint_step_chunk runner pipeline message delta st Hm), Hdec. reflexivity.
Qed.

Lemma endpoint_ends_at_bad_chunk_witness :
  websocket_endpoint sample_runner speaking_pipeline
    ([sample_chunk] ++
     JObj [("type", JStr "input_audio_buffer.append"); ("delta", JStr "AEAA/w")]
       :: [JObj [("type", JStr "input_audio_buffer.commit")]])
  = (Raise BinasciiError,
     mkEndpoint fresh_helper
       [Float32Array [inject_Z 16384 / 32768; inject_Z (-256) / 32768;
                      inject_Z 127 / 32768]%Q]).
Proof.
  apply (endpoint_ends_at_bad_chunk sample_runner speaking_pipeline
           [sample_chunk] [JObj [("type", JStr "input_audio_buffer.commit")]]
           (JObj [("type", JStr "input_audio_buffer.append"); ("delta", JStr "AEAA/w")])
           "AEAA/w" BinasciiError).
  - reflexivity.
  - split; reflexivity.
  - reflexivity.
Defined.

(** X6.  Append messages whose chunks decode are gathered in the list of
    the endpoint in the order received, each as its samples divided by
    32768; the helper is not touched and no frame is sent. *)
Theorem endpoint_gathers_chunks (runner : Runner) (pipeline : VoicePipeline)
    (messages : list json) (deltas : list string) (chunks : list (list Z))
    (st : Endpoint) :
  Forall2 chunk_message messages deltas ->
  Forall2 (fun delta samples => decode_pcm16 delta = Ok samples) deltas chunks ->
  for_each messages (websocket_endpoint_step runner pipeline) st =
    (Ok tt, mkEndpoint (connection st) (endpoint_audio_buffer st ++ map float_chunk chunks)).
Proof.
  intros Hm Hd. revert chunks Hd st.
  induction Hm as [|m delta messages deltas Hmd _ IH]; intros chunks Hd st.
  - inversion Hd; subst. simpl. rewrite app_nil_r. destruct st; reflexivity.
  - inversion Hd as [|d samples ds rest Hdec Hrest]; subst. simpl for_each.
    rewrite (bind_ok _ _ st
               (mkEndpoint (connection st) (endpoint_audio_buffer st ++ [float_chunk samples]))
               tt)
      by (rewrite (endpoint_step_chunk runner pipeline m delta st Hmd), Hdec; reflexivity).
    rewrite (IH rest Hrest). simpl. rewrite <- app_assoc. reflexivity.
Qed.

Lemma endpoint_gathers_chunks_witness :
  for_each [sample_chunk; sample_chunk]
    (websocket_endpoint_step sample_runner speaking_pipeline) fresh_endpoint =
    (Ok tt,
     mkEndpoint (connection fresh_endpoint)
       (endpoint_audio_buffer fresh_endpoint ++
          map float_chunk [[16384; -256; 127]; [16384; -256; 127]]%Z)).
Proof.
  apply (endpoint_gathers_chunks sample_runner speaking_pipeline
           [sample_chunk; sample_chunk] ["AEAA/38A"; "AEAA/38A"]).
  - repeat constructor.
  - repeat constructor.
Defined.

Lemma commit_audio_returns (runner : Runner) (pipeline : VoicePipeline)
    (c : WebsocketHelper) (chunks : list ndarray) :
  audio_buffer c = Some chunks ->
  exists runs c',
    commit_audio runner pipeline c = (Ok runs, c') /\ audio_buffer c' = Some [].
Proof.
  intros Hbuf. destruct chunks as [|x xs].
  - exists [], c. rewrite commit_audio_empty by (right; exact Hbuf). split; [reflexivity | exact Hbuf].
  - destruct (np_concatenate_samples (x :: xs)) as (full_audio & Hnp & _); [discriminate|].
    destruct (commit_audio_nonempty (sends_only not_audio_done) runner pipeline c
                (x :: xs) full_audio (sends_only_reset _) Hbuf) as (c' & Hrun & Hb' & _);
      [discriminate | exact Hnp |].
    eauto.
Qed.

(** X7.  A commit message hands the chunks the endpoint has gathered to
    [commit_audio], as the buffer of the helper, and then forgets them:
    after it the list of the endpoint is empty and the buffer of the
    helper is the empty list, whatever the pipeline did. *)
Theorem endpoint_commit_empties_buffers (runner : Runner) (pipeline : VoicePipeline)
    (message : json) (st : Endpoint) :
  getitem message "type" = Ok (JStr "input_audio_buffer.commit") ->
  let loaded := set_audio_buffer (Some (endpoint_audio_buffer st)) (connection st) in
  websocket_endpoint_step runner pipeline message st =
    (Ok tt, mkEndpoint (exec (commit_audio runner pipeline) loaded) []) /\
  audio_buffer (exec (commit_audio runner pipeline) loaded) = Some [].
Proof.
  intros Hty loaded.
  destruct (commit_audio_returns runner pipeline loaded (endpoint_audio_buffer st) eq_refl)
    as (runs & c' & Hrun & Hb).
  unfold exec. rewrite Hrun. simpl. split; [|exact Hb].
  unfold websocket_endpoint_step.
  rewrite (bind_ok _ _ st st false)
    by (unfold lift, is_sync_message; rewrite Hty; reflexivity).
  rewrite (bind_ok _ _ st st (JBool false))
    by (unfold lift, is_new_text_message; rewrite Hty; reflexivity).
  cbn [truthy].
  rewrite (bind_ok _ _ st st false)
    by (unfold lift, is_new_audio_chunk; rewrite Hty; reflexivity).
  rewrite (bind_ok _ _ st st true)
    by (unfold lift, is_audio_complete; rewrite Hty; reflexivity).
  cbv iota.
  rewrite (bind_ok _ _ st st (endpoint_audio_buffer st)) by reflexivity.
  rewrite (bind_ok _ _ st (mkEndpoint loaded (endpoint_audio_buffer st)) tt) by reflexivity.
  rewrite (bind_ok _ _ (mkEndpoint loaded (endpoint_audio_buffer st))
             (mkEndpoint c' (endpoint_audio_buffer st)) runs)
    by (unfold on_connection, zoom; simpl; rewrite Hrun; reflexivity).
  reflexivity.
Qed.

Lemma endpoint_commit_empties_buffers_witness :
  let loaded :=
    set_audio_buffer (Some (endpoint_audio_buffer (mkEndpoint fresh_helper [float_chunk [127]%Z])))
      (connection (mkEndpoint fresh_helper [float_chunk [127]%Z])) in
  websocket_endpoint_step sample_runner failing_pipeline
    (JObj [("type", JStr "input_audio_buffer.commit")])
    (mkEndpoint fresh_helper [float_chunk [127]%Z]) =
    (Ok tt, mkEndpoint (exec (commit_audio sample_runner failing_pipeline) loaded) []) /\
  audio_buffer (exec (commit_audio sample_runner failing_pipeline) loaded) = Some [].
Proof.
  apply (endpoint_commit_empties_buffers sample_runner failing_pipeline
           (JObj [("type", JStr "input_audio_buffer.commit")])
           (mkEndpoint fresh_helper [float_chunk [127]%Z])).
  reflexivity.
Defined.

(** ** The frames of a turn *)

Lemma string_app_nil_r (s : string) : (s ++ "")%string = s.
Proof.
  induction s as [|a s IH]; [reflexivity|].
  change (String a (s ++ "")%string = String a s). rewrite IH. reflexivity.
Qed.

Lemma string_app_assoc (a b c : string) : ((a ++ b) ++ c)%string = (a ++ (b ++ c))%string.
Proof.
  induction a as [|x a IH]; [reflexivity|].
  change (String x ((a ++ b) ++ c)%string = String x (a ++ (b ++ c))%string).
  rewrite IH. reflexivity.
Qed.

Lemma turn_loop_exact (consume : string -> M unit) (events : list StreamEvent) :
  inert consume ->
  forall (s : WebsocketHelper) (h : list json),
    history s = JArr h ->
    for_each events
      (fun event =>
         handle_new_item event >>
         if is_text_output event then consume (event_delta event) else ret tt) s
    = (Ok tt,
       mkHelper (websocket s ++ loop_frames (latest_agent s) h (partial_response s) events)
         (JArr (h ++ new_items events)) (latest_agent s)
         (partial_response s ++ joined (text_deltas events)) (audio_buffer s)).
Proof.
  intros Hinert. induction events as [|event events IH]; intros s h Hh.
  - simpl. unfold new_items, text_deltas. simpl.
    rewrite !app_nil_r, string_app_nil_r. destruct s; simpl in *. subst. reflexivity.
  - simpl for_each.
    assert (Hbody : (if is_text_output event then consume (event_delta event) else ret tt)
                      (event_effect event h s) = (Ok tt, event_effect event h s)).
    { destruct (is_text_output event); [apply Hinert | reflexivity]. }
    rewrite (bind_ok _ _ s (event_effect event h s) tt).
    2:{ rewrite (bind_ok _ _ s (event_effect event h s) tt); [exact Hbody|].
        apply handle_new_item_list, Hh. }
    unfold event_effect, new_items, text_deltas. simpl loop_frames. simpl List.filter.
    destruct (is_new_output_item event) eqn:Hitem.
    + assert (Htext : is_text_output event = false)
        by (destruct event as [[?|?]|?|?]; simpl in *; congruence).
      rewrite Htext. rewrite (IH _ (h ++ [event_item event])) by reflexivity. simpl.
      rewrite <- !app_assoc. reflexivity.
    + destruct (is_text_output event) eqn:Htext.
      * rewrite (IH _ h) by exact Hh. simpl.
        rewrite <- !app_assoc, string_app_assoc. reflexivity.
      * apply IH, Hh.
Qed.

Lemma Workflow_run_exact (runner : Runner) (consume : string -> M unit)
    (input_text : json) (c : WebsocketHelper) (h : list json) :
  inert consume ->
  history c = JArr h ->
  let output := runner (latest_agent c) (JArr (h ++ [message_item "user" input_text])) in
  Workflow_run runner consume input_text c =
    match stream_failure output with
    | Some e => (Raise e, after_loop runner input_text c h)
    | None =>
        (Ok tt,
         mkHelper (websocket (after_loop runner input_text c h) ++ [done_frame output])
           (JArr (to_input_list output)) (last_agent output) "" (audio_buffer c))
    end.
Proof.
  intros Hinert Hh output.
  set (h0 := h ++ [message_item "user" input_text]) in *.
  set (s0 := set_websocket
               (websocket c ++ [history_updated "user.input" (JArr h0) (latest_agent c)])
               (set_history (JArr h0) c)).
  pose proof (turn_loop_exact consume (stream_events output) Hinert s0 h0 eq_refl) as Hloop.
  unfold Workflow_run.
  rewrite (bind_ok _ _ c s0 (JArr h0, latest_agent c)) by (apply show_user_input_list, Hh).
  fold output.
  rewrite (bind_ok _ _ s0 _ tt Hloop).
  unfold after_loop. fold h0. fold output. unfold s0. simpl.
  rewrite <- !app_assoc. simpl.
  destruct (stream_failure output); [reflexivity|].
  rewrite text_output_complete_done. simpl. rewrite <- !app_assoc. reflexivity.
Qed.

Lemma delta_frame_text_delta (h : list json) (content : json) (agent : Agent) :
  delta_frame_text
    (history_updated "response.text.delta"
       (JArr (h ++ [message_item "assistant" content])) agent) = Some content.
Proof.
  unfold delta_frame_text.
  assert (Ht : tagged "response.text.delta"
                 (history_updated "response.text.delta"
                    (JArr (h ++ [message_item "assistant" content])) agent) = true)
    by reflexivity.
  assert (Hi : getitem
                 (history_updated "response.text.delta"
                    (JArr (h ++ [message_item "assistant" content])) agent) "inputs"
               = Ok (JArr (h ++ [message_item "assistant" content])))
    by reflexivity.
  rewrite Ht, Hi, getitem_last_snoc. reflexivity.
Qed.

Lemma loop_frames_facts (agent : Agent) (events : list StreamEvent) :
  forall (h : list json) (p : string),
    Forall (fun f => getitem f "agent_name" = Ok (JStr (name agent)))
      (loop_frames agent h p events) /\
    length (loop_frames agent h p events)
      = count_if is_text_output events + count_if is_new_output_item events /\
    count_if (tagged "response.done") (loop_frames agent h p events) = 0 /\
    omap delta_frame_text (loop_frames agent h p events)
      = map JStr (running_text p (text_deltas events)).
Proof.
  induction events as [|event events IH]; intros h p.
  - repeat split. constructor.
  - simpl loop_frames. unfold text_deltas. simpl List.filter. simpl count_if.
    destruct (is_new_output_item event) eqn:Hitem.
    + assert (Htext : is_text_output event = false)
        by (destruct event as [[?|?]|?|?]; simpl in *; congruence).
      rewrite Htext. destruct (IH (h ++ [event_item event]) p) as (Ha & Hl & Hd & Ht).
      split; [constructor; [reflexivity | exact Ha]|].
      split; [simpl; rewrite Hl; lia|].
      split; [exact Hd|]. exact Ht.
    + destruct (is_text_output event) eqn:Htext.
      * destruct (IH h (p ++ event_delta event)%string) as (Ha & Hl & Hd & Ht).
        split; [constructor; [reflexivity | exact Ha]|].
        split; [simpl; rewrite Hl; lia|].
        split; [exact Hd|].
        simpl omap. rewrite delta_frame_text_delta. simpl.
        f_equal. exact Ht.
      * apply IH.
Qed.

(** X8.  A turn whose stream fails: [Workflow.run] raises the exception of
    the stream after the events before it were handled.  No
    [response.done] frame is sent; the history stays what the loop built
    (the old history, the user item, the completed items), the partial
    response keeps the text of the deltas, and the agent is unchanged. *)
Theorem failed_turn_keeps_partial_state (runner : Runner) (consume : string -> M unit)
    (input_text : json) (c : WebsocketHelper) (h : list json) (e : exn) :
  inert consume ->
  history c = JArr h ->
  let output := runner (latest_agent c) (JArr (h ++ [message_item "user" input_text])) in
  stream_failure output = Some e ->
  exists c' frames,
    Workflow_run runner consume input_text c = (Raise e, c') /\
    history c' =
      JArr (h ++ [message_item "user" input_text] ++ new_items (stream_events output)) /\
    partial_response c' =
      (partial_response c ++ joined (text_deltas (stream_events output)))%string /\
    latest_agent c' = latest_agent c /\
    audio_buffer c' = audio_buffer c /\
    websocket c' = websocket c ++ frames /\
    count_if (tagged "response.done") frames = 0.
Proof.
  intros Hinert Hh output Hfail.
  pose proof (Workflow_run_exact runner consume input_text c h Hinert Hh) as Hrun.
  cbv zeta in Hrun. fold output in Hrun. rewrite Hfail in Hrun.
  eexists. eexists. split; [exact Hrun|]. unfold after_loop. fold output. simpl.
  split; [rewrite <- app_assoc; reflexivity|].
  split; [reflexivity|]. split; [reflexivity|]. split; [reflexivity|].
  split; [reflexivity|].
  simpl. apply (loop_frames_facts (latest_agent c) (stream_events output)).
Qed.

Lemma failed_turn_keeps_partial_state_witness :
  let output :=
    (fun _ _ => failing_run) (latest_agent fresh_helper)
      (JArr ([] ++ [message_item "user" (JStr "Add Google")])) in
  exists c' frames,
    Workflow_run (fun _ _ => failing_run) text_consumer (JStr "Add Google") fresh_helper
      = (Raise RuntimeError, c') /\
    history c' =
      JArr ([] ++ [message_item "user" (JStr "Add Google")]
            ++ new_items (stream_events output)) /\
    partial_response c' =
      (partial_response fresh_helper ++ joined (text_deltas (stream_events output)))%string /\
    latest_agent c' = latest_agent fresh_helper /\
    audio_buffer c' = audio_buffer fresh_helper /\
    websocket c' = websocket fresh_helper ++ frames /\
    count_if (tagged "response.done") frames = 0.
Proof.
  apply (failed_turn_keeps_partial_state (fun _ _ => failing_run) text_consumer
           (JStr "Add Google") fresh_helper [] RuntimeError).
  - exact text_consumer_inert.
  - reflexivity.
  - reflexivity.
Defined.

(** X9.  The frames of a turn, on a history that is a list: first the
    [user.input] frame with the history extended by the user item; then
    one frame for each text delta and each completed item of the stream
    and none for the other events, every one of them under the name of
    the agent the turn started with (an agent update event changes
    nothing); last, when the stream does not fail, the [response.done]
    frame. *)
Theorem turn_frames_shape (runner : Runner) (consume : string -> M unit)
    (input_text : json) (c : WebsocketHelper) (h : list json) :
  inert consume ->
  history c = JArr h ->
  let h0 := h ++ [message_item "user" input_text] in
  let output := runner (latest_agent c) (JArr h0) in
  exists middle,
    websocket (exec (Workflow_run runner consume input_text) c) =
      websocket c ++
        [history_updated "user.input" (JArr h0) (latest_agent c)] ++ middle ++
        match stream_failure output with
        | None => [done_frame output]
        | Some _ => []
        end /\
    Forall (fun f => getitem f "agent_name" = Ok (JStr (name (latest_agent c)))) middle /\
    length middle =
      count_if is_text_output (stream_events output)
      + count_if is_new_output_item (stream_events output).
Proof.
  intros Hinert Hh h0 output.
  pose proof (Workflow_run_exact runner consume input_text c h Hinert Hh) as Hrun.
  cbv zeta in Hrun. fold h0 in Hrun. fold output in Hrun.
  exists (loop_frames (latest_agent c) h0 (partial_response c) (stream_events output)).
  split.
  - unfold exec. rewrite Hrun. unfold after_loop. fold h0. fold output.
    destruct (stream_failure output); simpl; rewrite <- ?app_assoc; simpl;
      rewrite ?app_nil_r; reflexivity.
  - split; apply (loop_frames_facts (latest_agent c) (stream_events output)).
Qed.

Lemma turn_frames_shape_witness :
  let h0 := [] ++ [message_item "user" (JStr "Add Google Software Engineer")] in
  let output := sample_runner (latest_agent fresh_helper) (JArr h0) in
  exists middle,
    websocket (exec (Workflow_run sample_runner text_consumer
                       (JStr "Add Google Software Engineer")) fresh_helper) =
      websocket fresh_helper ++
        [history_updated "user.input" (JArr h0) (latest_agent fresh_helper)] ++ middle ++
        match stream_failure output with
        | None => [done_frame output]
        | Some _ => []
        end /\
    Forall (fun f => getitem f "agent_name" = Ok (JStr (name (latest_agent fresh_helper))))
      middle /\
    length middle =
      count_if is_text_output (stream_events output)
      + count_if is_new_output_item (stream_events output).
Proof.
  apply (turn_frames_shape sample_runner text_consumer
           (JStr "Add Google Software Engineer") fresh_helper []).
  - exact text_consumer_inert.
  - reflexivity.
Defined.

(** X10.  The text in the [response.text.delta] frames of a turn is
    cumulative, and starts from the partial response the helper had when
    the turn began: the frame of the k-th delta carries that partial
    response followed by the first k deltas.  The partial response is not
    cleared when a turn starts, so the text a failed turn left is carried
    into the frames of the next one. *)
Theorem text_delta_frames_cumulative (runner : Runner) (consume : string -> M unit)
    (input_text : json) (c : WebsocketHelper) (h : list json) :
  inert consume ->
  history c = JArr h ->
  let output := runner (latest_agent c) (JArr (h ++ [message_item "user" input_text])) in
  exists frames,
    websocket (exec (Workflow_run runner consume input_text) c) = websocket c ++ frames /\
    omap delta_frame_text frames =
      map JStr (running_text (partial_response c) (text_deltas (stream_events output))).
Proof.
  intros Hinert Hh output.
  pose proof (Workflow_run_exact runner consume input_text c h Hinert Hh) as Hrun.
  cbv zeta in Hrun. fold output in Hrun.
  pose proof (loop_frames_facts (latest_agent c) (stream_events output)
                (h ++ [message_item "user" input_text]) (partial_response c))
    as (_ & _ & _ & Htext).
  unfold exec. rewrite Hrun. unfold after_loop. fold output.
  destruct (stream_failure output); simpl.
  - eexists. split; [reflexivity|]. exact Htext.
  - eexists. split; [rewrite <- app_assoc; reflexivity|].
    simpl. rewrite omap_app, Htext. simpl. rewrite app_nil_r. reflexivity.
Qed.

Lemma text_delta_frames_cumulative_witness :
  let output :=
    sample_runner (latest_agent (set_partial_response "Sorry, " fresh_helper))
      (JArr ([] ++ [message_item "user" (JStr "Add Google")])) in
  exists frames,
    websocket (exec (Workflow_run sample_runner text_consumer (JStr "Add Google"))
                 (set_partial_response "Sorry, " fresh_helper))
      = websocket (set_partial_response "Sorry, " fresh_helper) ++ frames /\
    omap delta_frame_text frames =
      map JStr (running_text (partial_response (set_partial_response "Sorry, " fresh_helper))
                  (text_deltas (stream_events output))).
Proof.
  apply (text_delta_frames_cumulative sample_runner text_consumer (JStr "Add Google")
           (set_partial_response "Sorry, " fresh_helper) []).
  - exact text_consumer_inert.
  - reflexivity.
Defined.

Example leftover_partial_response_in_next_turn :
  omap delta_frame_text
    (websocket (exec (Workflow_run sample_runner text_consumer (JStr "Add Google"))
                  (set_partial_response "Sorry, " fresh_helper)))
  = [JStr "Sorry, Add"; JStr "Sorry, Added."].
Proof. reflexivity. Qed.

(** ** The manager: messages, connections *)

Lemma only_client_preorder (client_id : string) : PreOrder (only_client client_id).
Proof.
  split.
  - intros m. repeat split.
  - intros a b c (Ha1 & Ho1 & Hn1) (Ha2 & Ho2 & Hn2). split; [congruence|]. split.
    + intros other Hne. rewrite Ho2, Ho1 by exact Hne. reflexivity.
    + intros Hnone. specialize (Hn1 Hnone). subst b. apply Hn2, Hnone.
Qed.

Lemma with_helper_only_client {A} (client_id : string) (m : M A) :
  steps (only_client client_id) (with_helper client_id m).
Proof.
  intros mgr. unfold with_helper.
  destruct (voice_pipelines mgr !! client_id) as [helper|] eqn:Hl.
  - destruct (m helper) as [r helper']. unfold only_client. simpl.
    split; [reflexivity|]. split.
    + intros other Hne. apply lookup_insert_ne. congruence.
    + rewrite Hl. discriminate.
  - unfold only_client. simpl. repeat split.
Qed.

Lemma handle_message_steps (R : relation WebSocketManager) `{!PreOrder R}
    (runner : Runner) (pipeline : VoicePipeline) (client_id : string) (data : json) :
  (forall A (m : M A), steps R (with_helper client_id m)) ->
  steps R (handle_message runner pipeline client_id data).
Proof.
  intros Hwith. unfold handle_message.
  apply (steps_try_except R); [|intros e; apply (steps_ret R)].
  apply (steps_bind R); [apply (steps_lift R)|]. intros message_type.
  destruct (eq_str message_type "history.update").
  { unfold _handle_history_update.
    repeat (apply (steps_bind R); [apply (steps_lift R)|]; intros ?).
    apply Hwith. }
  destruct (eq_str message_type "input_audio_buffer.append").
  { unfold _handle_audio_append.
    repeat (apply (steps_bind R); [apply (steps_lift R)|]; intros ?).
    destruct a; first [apply Hwith | apply (steps_ret R)]. }
  destruct (eq_str message_type "input_audio_buffer.commit").
  { apply Hwith. }
  apply (steps_ret R).
Qed.

(** X11.  [handle_message] never raises, whatever the message: every
    exception of the handlers is caught.  It changes at most the helper of
    the client the message came from: the table of connections and the
    helpers of the other clients are as before, and a message for a client
    that has no helper changes nothing at all. *)
Theorem handle_message_contained (runner : Runner) (pipeline : VoicePipeline)
    (client_id : string) (data : json) (m : WebSocketManager) :
  eval (handle_message runner pipeline client_id data) m = Ok tt /\
  only_client client_id m (exec (handle_message runner pipeline client_id data) m).
Proof.
  split.
  - unfold eval, handle_message, try_except.
    match goal with |- context [match ?x with _ => _ end] => destruct x as [[[]|e] m'] end;
      reflexivity.
  - apply (@handle_message_steps (only_client client_id) (only_client_preorder client_id)
             runner pipeline client_id data).
    intros A h. apply with_helper_only_client.
Qed.

(** X12.  A [history.update] message to the manager, for a client that
    has a helper: when [inputs] has a length (a list, a string, an
    object), the helper takes [inputs] as its history as they are, takes
    the starting agent when [reset_agent] is truthy, and is sent exactly
    one [history.updated] frame tagged [history.update]; its partial
    response and audio buffer are kept.  When [inputs] has no length
    (null, a number, a boolean), the log line raises and the message is
    dropped: nothing changes. *)
Theorem manager_history_update (runner : Runner) (pipeline : VoicePipeline)
    (client_id : string) (data inputs reset : json) (helper : WebsocketHelper)
    (m : WebSocketManager) :
  get data "type" = Ok (JStr "history.update") ->
  get_default data "inputs" (JArr []) = Ok inputs ->
  get_default data "reset_agent" (JBool false) = Ok reset ->
  voice_pipelines m !! client_id = Some helper ->
  exec (handle_message runner pipeline client_id data) m =
    match len inputs with
    | Ok _ =>
        let agent := if truthy reset then job_tracking_agent else latest_agent helper in
        set_voice_pipelines
          (<[client_id :=
               mkHelper (websocket helper ++ [history_updated "history.update" inputs agent])
                 inputs agent (partial_response helper) (audio_buffer helper)]>
             (voice_pipelines m)) m
    | Raise _ => m
    end.
Proof.
  intros Hty Hin Hreset Hl.
  unfold exec, handle_message, try_except.
  rewrite (bind_ok _ _ m m (JStr "history.update")) by (unfold lift; rewrite Hty; reflexivity).
  cbn [eq_str]. rewrite String.eqb_refl. unfold _handle_history_update.
  rewrite (bind_ok _ _ m m inputs) by (unfold lift; rewrite Hin; reflexivity).
  rewrite (bind_ok _ _ m m reset) by (unfold lift; rewrite Hreset; reflexivity).
  destruct (len inputs) as [n|e] eqn:Hlen.
  - rewrite (bind_ok _ _ m m n) by reflexivity.
    unfold with_helper. rewrite Hl.
    unfold update_history, try_except, bind, modify, gets, send_text.
    destruct (truthy reset); reflexivity.
  - rewrite (bind_raise _ _ m m e) by reflexivity. reflexivity.
Qed.

Lemma manager_history_update_witness :
  exec (handle_message sample_runner idle_pipeline "client_1"
          (JObj [("type", JStr "history.update");
                 ("inputs", JArr [message_item "assistant" (JStr "Hello")]);
                 ("reset_agent", JBool true)])) sample_manager =
    match len (JArr [message_item "assistant" (JStr "Hello")]) with
    | Ok _ =>
        let agent :=
          if truthy (JBool true) then job_tracking_agent
          else latest_agent (set_audio_buffer (Some [Int16Array [16384; -256; 127]%Z])
                               fresh_helper) in
        set_voice_pipelines
          (<["client_1" :=
               mkHelper
                 (websocket (set_audio_buffer (Some [Int16Array [16384; -256; 127]%Z])
                               fresh_helper)
                  ++ [history_updated "history.update"
                        (JArr [message_item "assistant" (JStr "Hello")]) agent])
                 (JArr [message_item "assistant" (JStr "Hello")]) agent
                 (partial_response (set_audio_buffer (Some [Int16Array [16384; -256; 127]%Z])
                                      fresh_helper))
                 (audio_buffer (set_audio_buffer (Some [Int16Array [16384; -256; 127]%Z])
                                  fresh_helper))]>
             (voice_pipelines sample_manager)) sample_manager
    | Raise _ => sample_manager
    end.
Proof.
  apply (manager_history_update sample_runner idle_pipeline "client_1"
           (JObj [("type", JStr "history.update");
                  ("inputs", JArr [message_item "assistant" (JStr "Hello")]);
                  ("reset_agent", JBool true)])
           (JArr [message_item "assistant" (JStr "Hello")]) (JBool true)
           (set_audio_buffer (Some [Int16Array [16384; -256; 127]%Z]) fresh_helper)
           sample_manager).
  - reflexivity.
  - reflexivity.
  - reflexivity.
  - vm_compute. reflexivity.
Defined.

(** A history update whose [inputs] is [null] is dropped by the manager. *)
Example manager_history_update_null :
  exec (handle_message sample_runner idle_pipeline "client_1"
          (JObj [("type", JStr "history.update"); ("inputs", JNull)])) sample_manager
  = sample_manager.
Proof. vm_compute. reflexivity. Qed.

(** X13.  [connect]: when the handshake raises, the exception is passed
    on and the tables are as before.  When it returns, the client gets
    the socket and a new helper on it (empty history, the starting agent,
    no partial response, no audio buffer), whatever helper the identifier
    had before; the entries of the other clients are untouched. *)
Theorem connect_installs_new_helper (websocket : WebSocket) (client_id : string)
    (m : WebSocketManager) :
  (forall e, connect (Raise e) websocket client_id m = (Raise e, m)) /\
  let helper := mkHelper websocket (JArr []) job_tracking_agent "" None in
  let m' := exec (connect (Ok tt) websocket client_id) m in
  eval (connect (Ok tt) websocket client_id) m = Ok helper /\
  active_connections m' !! client_id = Some websocket /\
  voice_pipelines m' !! client_id = Some helper /\
  forall other, other <> client_id ->
    active_connections m' !! other = active_connections m !! other /\
    voice_pipelines m' !! other = voice_pipelines m !! other.
Proof.
  split; [reflexivity|]. intros helper m'.
  split; [reflexivity|]. unfold m'. rewrite connect_run. simpl.
  split; [apply lookup_insert_eq|]. split; [apply lookup_insert_eq|].
  intros other Hne. split; apply lookup_insert_ne; congruence.
Qed.

(** X14.  [disconnect] removes the client from both tables and leaves
    the other clients alone; doing it again changes nothing; and a
    disconnect after a connect leaves the tables as a disconnect alone
    would (so connecting and disconnecting a client that was not known
    gives the tables back). *)
Theorem disconnect_removes_client (websocket : WebSocket) (client_id : string)
    (m : WebSocketManager) :
  let m' := exec (disconnect client_id) m in
  active_connections m' !! client_id = None /\
  voice_pipelines m' !! client_id = None /\
  (forall other, other <> client_id ->
     active_connections m' !! other = active_connections m !! other /\
     voice_pipelines m' !! other = voice_pipelines m !! other) /\
  exec (disconnect client_id) m' = m' /\
  exec (disconnect client_id) (exec (connect (Ok tt) websocket client_id) m) = m'.
Proof.
  intros m'. unfold m'. rewrite !disconnect_run, connect_run. simpl.
  split; [apply lookup_delete_eq|]. split; [apply lookup_delete_eq|].
  split; [intros other Hne; split; apply lookup_delete_ne; congruence|].
  rewrite !delete_delete_eq, !delete_insert_eq. split; reflexivity.
Qed.

Example connect_then_disconnect_unknown_client :
  exec (disconnect "client_7") (exec (connect (Ok tt) [] "client_7") sample_manager)
  = sample_manager.
Proof. vm_compute. reflexivity. Qed.

(** ** Spoken replies outside the pipeline *)

(** X15.  [generate_audio_response] never raises and always closes with
    one [audio.done] frame: after one [response.audio.delta] frame with
    the base64 of the synthesized bytes when the synthesis returns, alone
    when it raises.  It changes nothing else of the helper. *)
Theorem generate_audio_response_frames (speech : string -> result (list byte))
    (text : string) (s : WebsocketHelper) :
  generate_audio_response speech text s =
    (Ok tt,
     set_websocket
       (websocket s ++
          match speech text with
          | Ok audio_data => [transform_data_to_events audio_data; audio_done]
          | Raise _ => [audio_done]
          end) s).
Proof.
  unfold generate_audio_response, try_except, bind, lift, send_audio_done, send_text, modify.
  destruct (speech text); simpl; [rewrite <- app_assoc|]; reflexivity.
Qed.

(** X16.  [send_fallback_response] never raises.  On a history that is a
    list it appends the assistant item with the fallback text, sends the
    [history.updated] frame tagged [assistant.text_response], then the
    frames of [generate_audio_response] for that text.  On a history that
    is not a list the append raises inside the [try]: nothing is sent, not
    even [audio.done], and nothing changes. *)
Theorem send_fallback_response_frames (speech : string -> result (list byte))
    (user_input : string) (s : WebsocketHelper) :
  send_fallback_response speech user_input s =
    (Ok tt,
     match history s with
     | JArr h =>
         let text := fallback_text user_input in
         let h' := h ++ [message_item "assistant" (JStr text)] in
         mkHelper
           (websocket s ++
              history_updated "assistant.text_response" (JArr h') (latest_agent s) ::
              match speech text with
              | Ok audio_data => [transform_data_to_events audio_data; audio_done]
              | Raise _ => [audio_done]
              end)
           (JArr h') (latest_agent s) (partial_response s) (audio_buffer s)
     | _ => s
     end).
Proof.
  unfold send_fallback_response, try_except, bind, gets, lift, modify, send_text,
    generate_audio_response, send_audio_done, send_text, modify, try_except, bind, lift.
  destruct (history s) eqn:Hh; simpl; try reflexivity.
  destruct (speech (fallback_text user_input)); simpl;
    rewrite <- ?app_assoc; reflexivity.
Qed.

Example fallback_on_broken_history :
  send_fallback_response (fun _ => Ok [x01; x02]) "hello"
    (set_history JNull fresh_helper)
  = (Ok tt, set_history JNull fresh_helper).
Proof. reflexivity. Qed.

(** ** Audio frames, there and back *)

Lemma land_shiftl_small (a b n : N) :
  (b < 2 ^ n)%N -> N.land (N.shiftl a n) b = 0%N.
Proof.
  intros Hb. apply N.bits_inj. intros m.
  rewrite N.land_spec, N.bits_0.
  destruct (N.lt_ge_cases m n) as [Hlt | Hge].
  - rewrite N.shiftl_spec_low by exact Hlt. reflexivity.
  - destruct (N.eq_dec b 0%N) as [-> | Hnz].
    + rewrite N.bits_0. apply andb_false_r.
    + rewrite (N.bits_above_log2 b m); [apply andb_false_r|].
      apply N.lt_le_trans with n; [|exact Hge].
      apply N.log2_lt_pow2; [lia | exact Hb].
Qed.

Lemma lor_shiftl_small (a b n : N) :
  (b < 2 ^ n)%N -> N.lor (N.shiftl a n) b = (a * 2 ^ n + b)%N.
Proof.
  intros Hb. rewrite <- N.lxor_lor, <- N.add_nocarry_lxor, N.shiftl_mul_pow2
    by (apply land_shiftl_small, Hb).
  reflexivity.
Qed.

Lemma b64_value_char (v : N) : (v < 64)%N -> b64_value (b64_char v) = Some v.
Proof.
  intros H.
  assert (Hall : forallb (fun n => match b64_value (b64_char n) with
                                    | Some m => (m =? n)%N
                                    | None => false
                                    end)
                   (map N.of_nat (seq 0 64)) = true) by (vm_compute; reflexivity).
  rewrite forallb_forall in Hall.
  specialize (Hall v).
  destruct (b64_value (b64_char v)) as [m|].
  - f_equal. apply N.eqb_eq, Hall. apply in_map_iff. exists (N.to_nat v).
    split; [lia|]. apply in_seq. lia.
  - exfalso. assert (false = true); [|discriminate]. apply Hall.
    apply in_map_iff. exists (N.to_nat v).
    split; [lia|]. apply in_seq. lia.
Qed.

Lemma b64_char_not_pad (v : N) : (v < 64)%N -> Ascii.eqb (b64_char v) "="%char = false.
Proof.
  intros H.
  assert (Hall : forallb (fun n => negb (Ascii.eqb (b64_char n) "="%char))
                   (map N.of_nat (seq 0 64)) = true) by (vm_compute; reflexivity).
  rewrite forallb_forall in Hall.
  apply negb_true_iff, Hall, in_map_iff. exists (N.to_nat v).
  split; [lia|]. apply in_seq. lia.
Qed.

Lemma b64_char_ascii (v : N) : (v < 64)%N -> is_ascii (b64_char v) = true.
Proof.
  intros H.
  assert (Hall : forallb (fun n => is_ascii (b64_char n))
                   (map N.of_nat (seq 0 64)) = true) by (vm_compute; reflexivity).
  rewrite forallb_forall in Hall.
  apply Hall, in_map_iff. exists (N.to_nat v).
  split; [lia|]. apply in_seq. lia.
Qed.

Lemma byte_of_to_N (a : byte) (n : N) : n = Byte.to_N a -> byte_of_N n = a.
Proof.
  intros ->. unfold byte_of_N. change 255%N with (N.ones 8).
  rewrite N.land_ones, N.mod_small.
  - rewrite Byte.of_to_N. reflexivity.
  - pose proof (Byte.to_N_bounded a). change (2 ^ 8)%N with 256%N. lia.
Qed.

(** The sextets of three bytes, by arithmetic. *)
Lemma sextets3_arith (a b c : byte) :
  let x := (Byte.to_N a * 65536 + Byte.to_N b * 256 + Byte.to_N c)%N in
  sextets3 a b c = [(x / 262144) mod 64; (x / 4096) mod 64; (x / 64) mod 64; x mod 64]%N.
Proof.
  intros x. unfold sextets3.
  pose proof (Byte.to_N_bounded a). pose proof (Byte.to_N_bounded b).
  pose proof (Byte.to_N_bounded c).
  assert (Hx : N.lor (N.shiftl (Byte.to_N a) 16)
                 (N.lor (N.shiftl (Byte.to_N b) 8) (Byte.to_N c)) = x).
  { rewrite (lor_shiftl_small (Byte.to_N b) (Byte.to_N c) 8)
      by (change (2 ^ 8)%N with 256%N; lia).
    rewrite lor_shiftl_small by (change (2 ^ 8)%N with 256%N; change (2 ^ 16)%N with 65536%N; lia).
    change (2 ^ 8)%N with 256%N; change (2 ^ 16)%N with 65536%N. unfold x. lia. }
  rewrite Hx. change 63%N with (N.ones 6).
  rewrite !N.land_ones, !N.shiftr_div_pow2. reflexivity.
Qed.

Ltac pow2 :=
  change (2 ^ 2)%N with 4%N; change (2 ^ 4)%N with 16%N; change (2 ^ 6)%N with 64%N;
  change (2 ^ 8)%N with 256%N.

Ltac divmod := zify; Z.to_euclidean_division_equations; lia.

Lemma quad_bytes (a b c : byte) (s0 s1 s2 s3 : N) :
  sextets3 a b c = [s0; s1; s2; s3] ->
  (s0 < 64 /\ s1 < 64 /\ s2 < 64 /\ s3 < 64)%N /\
  byte_of_N (N.lor (N.shiftl s0 2) (N.shiftr s1 4)) = a /\
  byte_of_N (N.lor (N.shiftl (N.land s1 15) 4) (N.shiftr s2 2)) = b /\
  byte_of_N (N.lor (N.shiftl (N.land s2 3) 6) s3) = c.
Proof.
  rewrite sextets3_arith. cbv zeta.
  pose proof (Byte.to_N_bounded a). pose proof (Byte.to_N_bounded b).
  pose proof (Byte.to_N_bounded c).
  set (A := Byte.to_N a) in *. set (B := Byte.to_N b) in *. set (C := Byte.to_N c) in *.
  intros Hs. injection Hs; intros <- <- <- <-. clear Hs.
  split; [repeat split; apply N.mod_upper_bound; discriminate|].
  change 15%N with (N.ones 4). change 3%N with (N.ones 2).
  rewrite !N.land_ones, !N.shiftr_div_pow2.
  split; [|split]; apply byte_of_to_N; fold A B C.
  - rewrite lor_shiftl_small; pow2; divmod.
  - rewrite lor_shiftl_small; pow2; divmod.
  - rewrite lor_shiftl_small; pow2; divmod.
Qed.

Section Sextet.

Context (v : N) (Hv : (v < 64)%N) (rest : string) (l : N) (p : nat) (out : list byte).

Lemma a2b_loop_sextet_0 :
  a2b_loop (String (b64_char v) rest) 0 l p out = a2b_loop rest 1 v 0 out.
Proof. cbn [a2b_loop]. rewrite b64_char_not_pad, b64_value_char by exact Hv. reflexivity. Qed.

Lemma a2b_loop_sextet_1 :
  a2b_loop (String (b64_char v) rest) 1 l p out
  = a2b_loop rest 2 (N.land v 15) 0
      (out ++ [byte_of_N (N.lor (N.shiftl l 2) (N.shiftr v 4))]).
Proof. cbn [a2b_loop]. rewrite b64_char_not_pad, b64_value_char by exact Hv. reflexivity. Qed.

Lemma a2b_loop_sextet_2 :
  a2b_loop (String (b64_char v) rest) 2 l p out
  = a2b_loop rest 3 (N.land v 3) 0
      (out ++ [byte_of_N (N.lor (N.shiftl l 4) (N.shiftr v 2))]).
Proof. cbn [a2b_loop]. rewrite b64_char_not_pad, b64_value_char by exact Hv. reflexivity. Qed.

Lemma a2b_loop_sextet_3 :
  a2b_loop (String (b64_char v) rest) 3 l p out
  = a2b_loop rest 0 0 0 (out ++ [byte_of_N (N.lor (N.shiftl l 6) v)]).
Proof. cbn [a2b_loop]. rewrite b64_char_not_pad, b64_value_char by exact Hv. reflexivity. Qed.

End Sextet.

Lemma a2b_loop_b64encode (n : nat) (bs out : list byte) :
  (length bs <= n)%nat -> a2b_loop (b64encode bs) 0 0 0 out = Ok (out ++ bs).
Proof.
  revert bs out. induction n as [|n IH]; intros bs out Hlen.
  - destruct bs; [|simpl in Hlen; lia]. simpl. rewrite app_nil_r. reflexivity.
  - destruct bs as [|a [|b [|c rest]]].
    + simpl. rewrite app_nil_r. reflexivity.
    + change (b64encode [a]) with
        (match sextets3 a x00 x00 with
         | [s0; s1; _; _] => String (b64_char s0) (String (b64_char s1) "==")
         | _ => EmptyString
         end).
      destruct (sextets3 a x00 x00) as [|s0 [|s1 [|s2 [|s3 [|]]]]] eqn:Hs;
        try (rewrite sextets3_arith in Hs; discriminate Hs).
      destruct (quad_bytes _ _ _ _ _ _ _ Hs) as ((H0 & H1 & _ & _) & Ha & _ & _).
      rewrite a2b_loop_sextet_0, a2b_loop_sextet_1 by assumption.
      rewrite Ha. reflexivity.
    + change (b64encode [a; b]) with
        (match sextets3 a b x00 with
         | [s0; s1; s2; _] =>
             String (b64_char s0) (String (b64_char s1) (String (b64_char s2) "="))
         | _ => EmptyString
         end).
      destruct (sextets3 a b x00) as [|s0 [|s1 [|s2 [|s3 [|]]]]] eqn:Hs;
        try (rewrite sextets3_arith in Hs; discriminate Hs).
      destruct (quad_bytes _ _ _ _ _ _ _ Hs) as ((H0 & H1 & H2 & _) & Ha & Hb & _).
      rewrite a2b_loop_sextet_0, a2b_loop_sextet_1, a2b_loop_sextet_2 by assumption.
      rewrite Ha, Hb, <- app_assoc. reflexivity.
    + change (b64encode (a :: b :: c :: rest)) with
        (match sextets3 a b c with
         | [s0; s1; s2; s3] =>
             String (b64_char s0) (String (b64_char s1)
               (String (b64_char s2) (String (b64_char s3) (b64encode rest))))
         | _ => EmptyString
         end).
      destruct (sextets3 a b c) as [|s0 [|s1 [|s2 [|s3 [|]]]]] eqn:Hs;
        try (rewrite sextets3_arith in Hs; discriminate Hs).
      destruct (quad_bytes _ _ _ _ _ _ _ Hs) as ((H0 & H1 & H2 & H3) & Ha & Hb & Hc).
      rewrite a2b_loop_sextet_0, a2b_loop_sextet_1, a2b_loop_sextet_2,
        a2b_loop_sextet_3 by assumption.
      rewrite Ha, Hb, Hc, IH by (simpl in Hlen; lia).
      rewrite <- !app_assoc. reflexivity.
Qed.

Lemma all_ascii_b64encode (n : nat) (bs : list byte) :
  (length bs <= n)%nat -> all_ascii (b64encode bs) = true.
Proof.
  revert bs. induction n as [|n IH]; intros bs Hlen.
  - destruct bs; [reflexivity | simpl in Hlen; lia].
  - destruct bs as [|a [|b [|c rest]]].
    + reflexivity.
    + change (b64encode [a]) with
        (match sextets3 a x00 x00 with
         | [s0; s1; _; _] => String (b64_char s0) (String (b64_char s1) "==")
         | _ => EmptyString
         end).
      destruct (sextets3 a x00 x00) as [|s0 [|s1 [|s2 [|s3 [|]]]]] eqn:Hs;
        try (rewrite sextets3_arith in Hs; discriminate Hs).
      destruct (quad_bytes _ _ _ _ _ _ _ Hs) as ((H0 & H1 & _ & _) & _).
      cbn [all_ascii]. rewrite !b64_char_ascii by assumption. reflexivity.
    + change (b64encode [a; b]) with
        (match sextets3 a b x00 with
         | [s0; s1; s2; _] =>
             String (b64_char s0) (String (b64_char s1) (String (b64_char s2) "="))
         | _ => EmptyString
         end).
      destruct (sextets3 a b x00) as [|s0 [|s1 [|s2 [|s3 [|]]]]] eqn:Hs;
        try (rewrite sextets3_arith in Hs; discriminate Hs).
      destruct (quad_bytes _ _ _ _ _ _ _ Hs) as ((H0 & H1 & H2 & _) & _).
      cbn [all_ascii]. rewrite !b64_char_ascii by assumption. reflexivity.
    + change (b64encode (a :: b :: c :: rest)) with
        (match sextets3 a b c with
         | [s0; s1; s2; s3] =>
             String (b64_char s0) (String (b64_char s1)
               (String (b64_char s2) (String (b64_char s3) (b64encode rest))))
         | _ => EmptyString
         end).
      destruct (sextets3 a b c) as [|s0 [|s1 [|s2 [|s3 [|]]]]] eqn:Hs;
        try (rewrite sextets3_arith in Hs; discriminate Hs).
      destruct (quad_bytes _ _ _ _ _ _ _ Hs) as ((H0 & H1 & H2 & H3) & _).
      cbn [all_ascii]. rewrite !b64_char_ascii by assumption.
      rewrite IH by (simpl in Hlen; lia). reflexivity.
Qed.

Lemma b64decode_b64encode (bs : list byte) : b64decode (b64encode bs) = Ok bs.
Proof.
  unfold b64decode.
  rewrite (all_ascii_b64encode (length bs)) by lia.
  rewrite (a2b_loop_b64encode (length bs)) by lia. reflexivity.
Qed.

(** X17.  What the server sends as audio, a client can send back: the
    [delta] of the frame [transform_data_to_events] builds from the bytes
    [audio_bytes] decodes to those bytes.  When they are whole 16-bit
    samples, [append_audio] appends exactly these samples to the buffer
    and [extract_audio_chunk] returns them divided by 32768; when a byte
    is left over, [append_audio] drops the chunk and
    [extract_audio_chunk] raises [ValueError]. *)
Theorem audio_delta_round_trip (audio_bytes : list byte) (c : WebsocketHelper) :
  exists delta,
    getitem (transform_data_to_events audio_bytes) "delta" = Ok (JStr delta) /\
    b64decode delta = Ok audio_bytes /\
    let message := JObj [("type", JStr "input_audio_buffer.append"); ("delta", JStr delta)] in
    match int16_samples audio_bytes with
    | Some samples =>
        append_audio delta c =
          (Ok tt, set_audio_buffer (Some (buffered c ++ [Int16Array samples])) c) /\
        extract_audio_chunk message =
          Ok (Float32Array (map (fun v => inject_Z v / 32768)%Q samples))
    | None =>
        append_audio delta c = (Ok tt, c) /\
        extract_audio_chunk message = Raise ValueError
    end.
Proof.
  exists (b64encode audio_bytes). split; [reflexivity|].
  split; [apply b64decode_b64encode|]. cbv zeta.
  rewrite (extract_audio_chunk_decoded _ (b64encode audio_bytes)) by reflexivity.
  assert (Hdec : decode_pcm16 (b64encode audio_bytes) =
                 match int16_samples audio_bytes with
                 | Some samples => Ok samples
                 | None => Raise ValueError
                 end).
  { unfold decode_pcm16. rewrite b64decode_b64encode. reflexivity. }
  destruct (int16_samples audio_bytes) as [samples|].
  - rewrite Hdec. split; [apply append_audio_decoded, Hdec | reflexivity].
  - rewrite Hdec. split; [eapply append_audio_undecodable, Hdec | reflexivity].
Qed.

Example sample_audio_round_trip :
  b64encode [x00; x40; x00; xff; x7f; x00] = "AEAA/38A" /\
  decode_pcm16 (b64encode [x00; x40; x00; xff; x7f; x00]) = Ok [16384; -256; 127]%Z.
Proof. split; reflexivity. Qed.

(** ** The audio of a commit *)

Section TurnSteps.

Context (R : relation WebsocketHelper) `{!PreOrder R}.
Hypothesis R_history : forall h s, R s (set_history h s).
Hypothesis R_partial : forall p s, R s (set_partial_response p s).
Hypothesis R_agent : forall a s, R s (set_latest_agent a s).
Hypothesis R_send : forall f s,
  frame_type f = Some "history.updated" -> R s (set_websocket (websocket s ++ [f]) s).

Ltac turn_step :=
  first
    [ apply (steps_ret R) | apply (steps_raise R) | apply (steps_lift R) | apply (steps_gets R)
    | apply (steps_modify R); intros ?;
      first [apply R_history | apply R_partial | apply R_agent | apply R_send; reflexivity]
    | apply (steps_bind R); [|intros ?] ].

Lemma turn_show_user_input (user_input : json) : steps R (show_user_input user_input).
Proof. unfold show_user_input, send_text. repeat turn_step. Qed.

Lemma turn_handle_new_item (event : StreamEvent) : steps R (handle_new_item event).
Proof.
  unfold handle_new_item, stream_response, send_text.
  destruct (is_new_output_item event); [repeat turn_step|].
  destruct (is_text_output event); repeat turn_step.
Qed.

Lemma turn_text_output_complete (output : RunResultStreaming) (is_done : bool) :
  steps R (text_output_complete output is_done).
Proof. unfold text_output_complete, send_text. destruct is_done; simpl; repeat turn_step. Qed.

Lemma turn_Workflow_resume (output : RunResultStreaming) (pending : list StreamEvent) :
  steps R (Workflow_resume output pending).
Proof.
  induction pending as [|event rest IH]; simpl.
  - destruct (stream_failure output); [turn_step|].
    apply (steps_bind R); [apply turn_text_output_complete | intros _; turn_step].
  - apply (steps_bind R); [apply turn_handle_new_item | intros _].
    destruct (is_text_output event); [turn_step | exact IH].
Qed.

Lemma turn_Workflow_next (runner : Runner) (g : Workflow_state) :
  steps R (Workflow_next runner g).
Proof.
  destruct g; simpl.
  - apply (steps_bind R); [apply turn_show_user_input | intros [h a]].
    apply turn_Workflow_resume.
  - apply turn_Workflow_resume.
  - turn_step.
Qed.

End TurnSteps.

Lemma Workflow_next_history_frames (runner : Runner) (g : Workflow_state) :
  steps (sends_only history_frame) (Workflow_next runner g).
Proof.
  apply turn_Workflow_next.
  - apply sends_only_preorder.
  - intros h s. apply sends_only_same_socket. reflexivity.
  - intros p s. apply sends_only_same_socket. reflexivity.
  - intros a s. apply sends_only_same_socket. reflexivity.
  - intros f s Hf. exists [f]. split; [reflexivity|]. constructor; [exact Hf | constructor].
Qed.

Lemma history_frames_no_audio (fs : list json) :
  Forall history_frame fs -> List.filter is_audio_delta fs = [].
Proof.
  induction 1 as [|f fs Hf _ IH]; [reflexivity|].
  simpl. unfold history_frame in Hf. unfold is_audio_delta at 1. rewrite Hf. exact IH.
Qed.

Lemma stream_loop_audio_frames (runner : Runner) (schedule : list pipeline_step) :
  forall (g : Workflow_state) (s : WebsocketHelper),
  exists fs delivered,
    websocket (exec (stream_loop runner schedule g) s) = websocket s ++ fs /\
    List.filter is_audio_delta fs = map transform_data_to_events delivered /\
    delivered `prefix_of` audio_events schedule /\
    (is_ok (eval (stream_loop runner schedule g) s) = true ->
     delivered = audio_events schedule).
Proof.
  induction schedule as [|[event|] rest IH]; intros g s.
  - exists [], []. rewrite app_nil_r. split; [reflexivity|]. split; [reflexivity|].
    split; [apply prefix_nil | reflexivity].
  - assert (Hstep : stream_loop runner (Deliver event :: rest) g s
                    = stream_loop runner rest g (exec (send_audio_chunk event) s))
      by (destruct event; reflexivity).
    unfold exec at 1, eval. rewrite Hstep.
    destruct (IH g (exec (send_audio_chunk event) s)) as (fs & delivered & Hw & Hf & Hp & Hall).
    unfold exec at 1 in Hw. unfold eval in Hall.
    destruct event as [data| |].
    + exists (transform_data_to_events data :: fs), (data :: delivered).
      split; [|split; [|split]].
      * rewrite Hw. unfold exec. simpl. rewrite <- app_assoc. reflexivity.
      * simpl. rewrite Hf. reflexivity.
      * apply prefix_cons, Hp.
      * intros Hok. simpl. rewrite (Hall Hok). reflexivity.
    + exists fs, delivered. repeat split; assumption.
    + exists fs, delivered. repeat split; assumption.
  - pose proof (Workflow_next_history_frames runner g s) as (fs0 & Hw0 & Hfs0).
    unfold exec, eval. cbn [stream_loop audio_events]. unfold bind.
    destruct (Workflow_next runner g s) as [[[tok g']|e] s1]; cbn [snd] in Hw0.
    + destruct (IH g' s1) as (fs & delivered & Hw & Hf & Hp & Hall).
      exists (fs0 ++ fs), delivered. split; [|split; [|split]].
      * unfold exec in Hw. rewrite Hw, Hw0, app_assoc. reflexivity.
      * rewrite List.filter_app, (history_frames_no_audio _ Hfs0). exact Hf.
      * exact Hp.
      * exact Hall.
    + exists fs0, []. split; [exact Hw0|]. split; [apply history_frames_no_audio, Hfs0|].
      split; [apply prefix_nil | discriminate].
Qed.

Lemma Workflow_resume_returns (output : RunResultStreaming) (pending : list StreamEvent) :
  stream_failure output = None ->
  forall s, history_is_list s ->
    exists tok pending' s',
      Workflow_resume output pending s
        = (Ok (tok, match tok with
                    | Some _ => Streaming output pending'
                    | None => Exhausted
                    end), s') /\
      history_is_list s'.
Proof.
  intros Hnone. induction pending as [|event rest IH]; intros s [h Hh].
  - exists None, [], (exec (text_output_complete output true) s).
    simpl. rewrite Hnone. split; [reflexivity|]. eexists. reflexivity.
  - simpl. unfold bind. rewrite (handle_new_item_list event s h Hh).
    destruct (event_effect_history event h s Hh) as [h' Hh'].
    destruct (is_text_output event).
    + exists (Some (event_delta event)), rest, (event_effect event h s).
      split; [reflexivity | exists h'; exact Hh'].
    + apply IH. exists h'. exact Hh'.
Qed.

Lemma Workflow_next_returns (runner : Runner) (g : Workflow_state) (s : WebsocketHelper) :
  unfailing runner g -> history_is_list s ->
  exists tok g' s',
    Workflow_next runner g s = (Ok (tok, g'), s') /\
    unfailing runner g' /\ history_is_list s'.
Proof.
  intros [Hrunner Hg] [h Hh]. destruct g as [input_text | output pending |].
  - simpl. unfold bind. rewrite (show_user_input_list input_text s h Hh).
    set (s1 := set_websocket _ _).
    destruct (Workflow_resume_returns
                (runner (latest_agent s) (JArr (h ++ [message_item "user" input_text])))
                (stream_events
                   (runner (latest_agent s) (JArr (h ++ [message_item "user" input_text]))))
                (Hrunner _ _) s1) as (tok & pending' & s' & Hrun & Hl).
    { eexists. reflexivity. }
    eexists _, _, s'. split; [exact Hrun|]. split; [|exact Hl].
    split; [exact Hrunner|]. destruct tok; [apply Hrunner | exact I].
  - simpl. destruct (Workflow_resume_returns output pending Hg s) as (tok & pending' & s' & Hrun & Hl).
    { exists h. exact Hh. }
    eexists _, _, s'. split; [exact Hrun|]. split; [|exact Hl].
    split; [exact Hrunner|]. destruct tok; [exact Hg | exact I].
  - exists None, Exhausted, s. split; [reflexivity|]. split; [|exists h; exact Hh].
    split; [exact Hrunner | exact I].
Qed.

Lemma stream_loop_returns (runner : Runner) (schedule : list pipeline_step) :
  forall (g : Workflow_state) (s : WebsocketHelper),
    unfailing runner g -> history_is_list s ->
    eval (stream_loop runner schedule g) s = Ok tt.
Proof.
  induction schedule as [|[event|] rest IH]; intros g s Hg Hs.
  - reflexivity.
  - assert (Hstep : stream_loop runner (Deliver event :: rest) g s
                    = stream_loop runner rest g (exec (send_audio_chunk event) s))
      by (destruct event; reflexivity).
    unfold eval. rewrite Hstep. apply IH; [exact Hg|].
    destruct Hs as [h Hh]. exists h. destruct event; exact Hh.
  - destruct (Workflow_next_returns runner g s Hg Hs) as (tok & g' & s' & Hrun & Hg' & Hs').
    unfold eval. simpl. unfold bind. rewrite Hrun. apply IH; assumption.
Qed.

Lemma commit_audio_streams (runner : Runner) (pipeline : VoicePipeline)
    (c : WebsocketHelper) (chunks : list ndarray) (full_audio : ndarray)
    (input_text : string) (schedule : list pipeline_step) (failure : option exn) :
  audio_buffer c = Some chunks ->
  chunks <> [] ->
  np_concatenate chunks = Ok full_audio ->
  pipeline (mkAudioInput full_audio) = RunStreams input_text schedule failure ->
  commit_audio runner pipeline c =
    (Ok [mkAudioInput full_audio],
     set_audio_buffer (Some [])
       (exec (stream_loop runner schedule (Created (JStr input_text))) c)).
Proof.
  intros Hbuf Hne Hnp Hrun.
  unfold commit_audio, commit_audio_body.
  rewrite (bind_ok _ _ (c, []) (c, []) (Some chunks))
    by (unfold on_helper, zoom, gets; simpl; rewrite Hbuf; reflexivity).
  destruct chunks as [|x xs]; [congruence|].
  unfold try_except.
  rewrite (bind_ok _ _ (c, []) (c, []) full_audio)
    by (unfold lift; rewrite Hnp; reflexivity).
  rewrite (bind_ok _ _ (c, []) (c, [mkAudioInput full_audio]) tt) by reflexivity.
  rewrite Hrun.
  pose proof (steps_stream_loop same_audio_buffer runner schedule
                (Created (JStr input_text)) c) as Hkeep.
  unfold same_audio_buffer in Hkeep.
  unfold exec, bind, on_helper, zoom, raise, modify. cbn [fst snd].
  destruct (stream_loop runner schedule (Created (JStr input_text)) c) as [r c1].
  simpl in Hkeep. rewrite Hbuf in Hkeep.
  destruct r as [[]|e]; [destruct failure as [e|]|]; simpl; rewrite ?Hkeep; reflexivity.
Qed.

(** X18.  [commit_audio] forwards the audio of the pipeline as it comes:
    on a buffer that holds chunks, with a pipeline that streams, the
    [response.audio.delta] frames it sends are the frames of the audio
    events delivered, in the order of delivery, each once, with nothing
    added; they are a prefix of the audio of the stream, and all of it
    when the history is a list and the runner's streams do not fail. *)
Theorem commit_audio_forwards_audio (runner : Runner) (pipeline : VoicePipeline)
    (c : WebsocketHelper) (chunks : list ndarray) (full_audio : ndarray)
    (input_text : string) (schedule : list pipeline_step) (failure : option exn) :
  audio_buffer c = Some chunks ->
  chunks <> [] ->
  np_concatenate chunks = Ok full_audio ->
  pipeline (mkAudioInput full_audio) = RunStreams input_text schedule failure ->
  exists frames delivered,
    websocket (exec (commit_audio runner pipeline) c) = websocket c ++ frames /\
    List.filter is_audio_delta frames = map transform_data_to_events delivered /\
    delivered `prefix_of` audio_events schedule /\
    (history_is_list c ->
     (forall agent h, stream_failure (runner agent h) = None) ->
     delivered = audio_events schedule).
Proof.
  intros Hbuf Hne Hnp Hrun.
  destruct (stream_loop_audio_frames runner schedule (Created (JStr input_text)) c)
    as (frames & delivered & Hw & Hf & Hp & Hall).
  exists frames, delivered.
  unfold exec at 1.
  rewrite (commit_audio_streams runner pipeline c chunks full_audio input_text schedule
             failure Hbuf Hne Hnp Hrun).
  split; [exact Hw|]. split; [exact Hf|]. split; [exact Hp|].
  intros Hlist Hrunner. apply Hall.
  rewrite (stream_loop_returns runner schedule (Created (JStr input_text)) c);
    [reflexivity | split; [exact Hrunner | exact I] | exact Hlist].
Qed.

Lemma commit_audio_forwards_audio_witness :
  exists frames delivered,
    websocket (exec (commit_audio sample_runner speaking_pipeline) helper_with_audio)
      = websocket helper_with_audio ++ frames /\
    List.filter is_audio_delta frames = map transform_data_to_events delivered /\
    delivered `prefix_of`
      audio_events
        [Resume; Deliver (VoiceStreamEventLifecycle "turn_started");
         Deliver (VoiceStreamEventAudio [x01; x02]); Resume; Resume;
         Deliver (VoiceStreamEventAudio [x03; x04]);
         Deliver (VoiceStreamEventLifecycle "turn_ended")] /\
    (history_is_list helper_with_audio ->
     (forall agent h, stream_failure (sample_runner agent h) = None) ->
     delivered =
       audio_events
         [Resume; Deliver (VoiceStreamEventLifecycle "turn_started");
          Deliver (VoiceStreamEventAudio [x01; x02]); Resume; Resume;
          Deliver (VoiceStreamEventAudio [x03; x04]);
          Deliver (VoiceStreamEventLifecycle "turn_ended")]).
Proof.
  apply (commit_audio_forwards_audio sample_runner speaking_pipeline helper_with_audio
           [Int16Array [16384; -256]%Z; Int16Array [127]%Z]
           (Int16Array [16384; -256; 127]%Z)
           "Add Google Software Engineer" _ None).
  - reflexivity.
  - discriminate.
  - reflexivity.
  - reflexivity.
Defined.

(** * Further properties of the store and of the tools *)

(** ** The store: user ids and ownership *)

(** X19.  [get_user_id] always returns an id the store accepts: 24
    characters, all hexadecimal digits.  It returns its argument when
    the argument is such an id, in whatever case its letters are, and
    [DEFAULT_USER_ID] when there is no argument or the argument is not
    one; applying it twice is applying it once. *)
Theorem get_user_id_valid (uid : option string) :
  let valid_user_id := get_user_id uid in
  String.length valid_user_id = 24%nat /\
  all_chars is_hex_digit (lower valid_user_id) = true /\
  get_user_id (Some valid_user_id) = valid_user_id /\
  (valid_user_id = DEFAULT_USER_ID \/ uid = Some valid_user_id) /\
  (forall u, uid = Some u ->
     String.length u = 24%nat -> all_chars is_hex_digit (lower u) = true ->
     valid_user_id = u) /\
  (forall u, uid = Some u ->
     String.length u <> 24%nat \/ all_chars is_hex_digit (lower u) = false ->
     valid_user_id = DEFAULT_USER_ID) /\
  (uid = None -> valid_user_id = DEFAULT_USER_ID).
Proof.
  assert (Hd : String.length DEFAULT_USER_ID = 24%nat /\
               all_chars is_hex_digit (lower DEFAULT_USER_ID) = true /\
               get_user_id (Some DEFAULT_USER_ID) = DEFAULT_USER_ID)
    by (repeat split; reflexivity).
  destruct Hd as (Hd1 & Hd2 & Hd3).
  destruct uid as [u|]; cbn zeta.
  2:{ simpl. repeat split; try assumption; try discriminate. left; reflexivity. }
  assert (Hvalid : forall v, String.length v = 24%nat ->
            all_chars is_hex_digit (lower v) = true ->
            negb (String.eqb v "") && (String.length v =? 24)%nat
            && all_chars is_hex_digit (lower v) = true).
  { intros v Hlen Hhex. rewrite Hhex. apply Nat.eqb_eq in Hlen. rewrite Hlen.
    destruct v; [discriminate Hlen | reflexivity]. }
  destruct (negb (String.eqb u "") && (String.length u =? 24)%nat
            && all_chars is_hex_digit (lower u)) eqn:Hv.
  - assert (Hu : get_user_id (Some u) = u) by (simpl; rewrite Hv; reflexivity).
    rewrite !Hu.
    pose proof Hv as Hv'.
    apply andb_true_iff in Hv'. destruct Hv' as [Hv' Hhex].
    apply andb_true_iff in Hv'. destruct Hv' as [_ Hlen].
    apply Nat.eqb_eq in Hlen.
    split; [exact Hlen|]. split; [exact Hhex|].
    split; [reflexivity|].
    split; [right; reflexivity|].
    split; [intros v [= <-] _ _; reflexivity|].
    split; [|discriminate].
    intros v [= <-] [Hne | Hne]; congruence.
  - assert (Hu : get_user_id (Some u) = DEFAULT_USER_ID)
      by (simpl; rewrite Hv; reflexivity).
    rewrite !Hu.
    split; [exact Hd1|]. split; [exact Hd2|]. split; [exact Hd3|].
    split; [left; reflexivity|].
    split; [|split; [reflexivity | discriminate]].
    intros v [= <-] Hlen Hhex. rewrite (Hvalid u Hlen Hhex) in Hv. discriminate Hv.
Qed.

(** An id in upper case is returned as it is; a string of another length
    gives the default. *)
Example get_user_id_sample :
  get_user_id (Some "65F0C0FFEE0123456789ABCD") = "65F0C0FFEE0123456789ABCD" /\
  get_user_id (Some "user-42") = DEFAULT_USER_ID /\
  get_user_id (Some "") = DEFAULT_USER_ID /\
  get_user_id None = DEFAULT_USER_ID.
Proof. repeat split; reflexivity. Qed.

(** X20.  Whatever the regular expression engine of the store does with
    the reference: when it rejects it as a pattern, the lookup raises
    [OperationFailure], whatever the collection holds.  When it takes
    it, the lookup returns and stays within the documents of the caller:
    a record it returns is the serialization of a document of the
    collection whose [user_id] is the caller's, and which matches on the
    company or on the role title; it returns nothing exactly when no
    document of the caller matches on either. *)
Theorem find_application_by_reference_owned
    (regex : string -> option (string -> bool)) (coll : list application)
    (application_ref : string) (uid : option string) :
  match regex application_ref with
  | None =>
      find_application_by_reference regex coll application_ref uid
        = Raise OperationFailure
  | Some matches =>
      match find_application_by_reference regex coll application_ref uid with
      | Ok (Some found) =>
          exists d, In d coll /\ found = serialize_document d /\
                    owned_by uid d = true /\
                    getitem found "user_id" = Ok (JStr (ObjectId (get_user_id uid))) /\
                    (matches (company d) = true \/ matches (role_title d) = true)
      | Ok None =>
          forall d, In d coll -> owned_by uid d = true ->
            matches (company d) = false /\ matches (role_title d) = false
      | Raise _ => False
      end
  end.
Proof.
  unfold find_application_by_reference.
  destruct (regex application_ref) as [matches|]; [|reflexivity].
  set (by_company := fun d => String.eqb (user_id d) (ObjectId (get_user_id uid))
                              && matches (company d)).
  set (by_role := fun d => String.eqb (user_id d) (ObjectId (get_user_id uid))
                           && matches (role_title d)).
  assert (Hser : forall d, owned_by uid d = true ->
            getitem (serialize_document d) "user_id" = Ok (JStr (ObjectId (get_user_id uid)))).
  { intros d Hd. apply String.eqb_eq in Hd. rewrite <- Hd. reflexivity. }
  destruct (find_one by_company coll) as [d|] eqn:Hc.
  - apply find_one_some in Hc. destruct Hc as (Hin & Hf & _).
    apply andb_true_iff in Hf. destruct Hf as [Ho Hm].
    exists d. repeat split; auto.
  - destruct (find_one by_role coll) as [d|] eqn:Hr.
    + apply find_one_some in Hr. destruct Hr as (Hin & Hf & _).
      apply andb_true_iff in Hf. destruct Hf as [Ho Hm].
      exists d. repeat split; auto.
    + intros d Hin Ho.
      rewrite find_one_none in Hc. rewrite find_one_none in Hr.
      specialize (Hc d Hin). specialize (Hr d Hin).
      unfold by_company in Hc. unfold by_role in Hr. unfold owned_by in Ho.
      rewrite Ho in Hc, Hr. simpl in Hc, Hr. split; assumption.
Qed.

(** The store does not take [(] as a pattern: the lookup raises, with
    applications of the caller in the collection or without. *)
Example find_application_rejected_pattern :
  find_application_by_reference wildcard_regex sample_applications "("
    (Some sample_user) = Raise OperationFailure /\
  find_application_by_reference wildcard_regex [] "(" None = Raise OperationFailure.
Proof. split; reflexivity. Qed.

(** ** The function tools *)

Section ToolFacts.

Import Tools.
Local Open Scope eff_scope.

Section Adds.

Context (P : request -> Prop).

Lemma adds_ret {A} (a : A) : adds_only P (ret a).
Proof. intros log. exists []. rewrite app_nil_r. split; [reflexivity | constructor]. Qed.

Lemma adds_raise {A} (e : exception) : adds_only P (@raise A e).
Proof. intros log. exists []. rewrite app_nil_r. split; [reflexivity | constructor]. Qed.

Lemma adds_lift {A} (r : result A) : adds_only P (lift r).
Proof. intros log. exists []. rewrite app_nil_r. split; [reflexivity | constructor]. Qed.

Lemma adds_library {A} (r : outcome A) : adds_only P (library r).
Proof. intros log. exists []. rewrite app_nil_r. split; [reflexivity | constructor]. Qed.

Lemma adds_ask (w : World) (r : request) : P r -> adds_only P (ask w r).
Proof.
  intros Hr log. exists [r]. split; [reflexivity | constructor; [exact Hr | constructor]].
Qed.

(** The continuation is run on the values the first part returns. *)
Lemma adds_bind {A B} (m : Eff A) (k : A -> Eff B) :
  adds_only P m ->
  (forall a log log', m log = (Returns a, log') -> adds_only P (k a)) ->
  adds_only P (bind m k).
Proof.
  intros Hm Hk log. unfold bind. destruct (Hm log) as (added & Hlog & Hadded).
  destruct (m log) as [[a|e] log1] eqn:Hrun; simpl in Hlog; subst log1.
  - destruct (Hk a log _ Hrun (log ++ added)) as (added' & Hlog' & Hadded').
    exists (added ++ added'). rewrite Hlog', app_assoc. split; [reflexivity|].
    apply Forall_app. split; assumption.
  - exists added. split; [reflexivity | exact Hadded].
Qed.

Lemma adds_try_except {A} (m : Eff A) (h : exception -> Eff A) :
  adds_only P m -> (forall e, adds_only P (h e)) -> adds_only P (try_except m h).
Proof.
  intros Hm Hh log. unfold try_except. destruct (Hm log) as (added & Hlog & Hadded).
  destruct (m log) as [[a|e] log1]; simpl in Hlog; subst log1.
  - exists added. split; [reflexivity | exact Hadded].
  - destruct (Hh e (log ++ added)) as (added' & Hlog' & Hadded').
    exists (added ++ added'). rewrite Hlog', app_assoc. split; [reflexivity|].
    apply Forall_app. split; assumption.
Qed.

Lemma adds_call (f : function) (args : list json) (kwargs : list (string * json)) :
  (forall locals, adds_only P (body f locals)) -> adds_only P (call f args kwargs).
Proof.
  intros Hf. unfold call. destruct (bind_arguments (parameters f) args kwargs).
  - apply Hf.
  - apply adds_raise.
Qed.

End Adds.

Context (w : World) (find_application_by_reference : json -> Eff json).

Lemma lift_returns {A} (r : result A) (a : A) (log log' : list request) :
  lift r log = (Returns a, log') -> r = Ok a.
Proof. unfold lift. destruct r; intros H; inversion H; reflexivity. Qed.

Lemma library_returns {A} (r : outcome A) (a : A) (log log' : list request) :
  library r log = (Returns a, log') -> r = Returns a.
Proof. unfold library. intros H. inversion H. reflexivity. Qed.

Lemma adds_due_date (P : request -> Prop) (due_at : json) :
  P utcnow -> adds_only P (due_date w due_at).
Proof.
  intros Hnow. unfold due_date. apply adds_try_except.
  - destruct due_at; first [apply adds_library | apply adds_raise].
  - intros _. destruct due_at; try apply adds_raise.
    destruct (contains "next" (lower s) && contains "friday" (lower s));
      [|destruct (contains "tomorrow" (lower s))];
      (apply adds_bind; [apply adds_ask, Hnow | intros; apply adds_ret]).
Qed.

Lemma adds_create_application (P : request -> Prop) (locals : string -> json) :
  P utcnow -> (forall document, P (insert_one "applications" document)) ->
  adds_only P (body (create_application w) locals).
Proof.
  intros Hnow Hinsert. simpl.
  apply adds_bind; [apply adds_ask, Hnow | intros now1 _ _ _].
  apply adds_bind; [apply adds_lift | intros d1 _ _ _].
  apply adds_bind; [apply adds_ask, Hnow | intros now2 _ _ _].
  apply adds_bind; [apply adds_lift | intros d2 _ _ _].
  apply adds_bind; [destruct (negb (has_key d2 "status_stage"));
                    [apply adds_lift | apply adds_ret] | intros d3 _ _ _].
  apply adds_bind; [apply adds_ask, Hinsert | intros; apply adds_ret].
Qed.

Lemma adds_find_recent_application (P : request -> Prop) (locals : string -> json) :
  P utcnow -> (forall filter, P (find_one "applications" filter)) ->
  adds_only P (body (find_recent_application w) locals).
Proof.
  intros Hnow Hfind. simpl.
  apply adds_bind; [apply adds_ask, Hnow | intros now _ _ _].
  apply adds_bind; [apply adds_lift | intros threshold _ _ _].
  apply adds_bind; [apply adds_library | intros oid _ _ _].
  apply adds_ask, Hfind.
Qed.

Lemma adds_create_application_with_dedup (P : request -> Prop) (locals : string -> json) :
  P utcnow -> (forall filter, P (find_one "applications" filter)) ->
  (forall document, P (insert_one "applications" document)) ->
  adds_only P (body (create_application_with_dedup w) locals).
Proof.
  intros Hnow Hfind Hinsert. simpl.
  apply adds_try_except; [|intros e; apply adds_raise].
  apply adds_bind; [apply adds_lift | intros valid_user_id _ _ _].
  apply adds_bind; [apply adds_lift | intros company _ _ _].
  apply adds_bind; [apply adds_lift | intros company_norm _ _ _].
  apply adds_bind; [apply adds_lift | intros role_title _ _ _].
  apply adds_bind; [apply adds_lift | intros role_title_norm _ _ _].
  apply adds_bind;
    [apply adds_call; intros l; apply adds_find_recent_application; assumption
    | intros recent_app _ _ _].
  destruct (truthy recent_app).
  - apply adds_bind; [apply adds_lift | intros app_id _ _ _].
    apply adds_bind; [apply adds_raise | intros; apply adds_bind; [apply adds_lift|]].
    intros; apply adds_ret.
  - apply adds_bind; [apply adds_lift | intros d1 _ _ _].
    apply adds_bind; [apply adds_lift | intros d2 _ _ _].
    apply adds_bind; [apply adds_library | intros oid _ _ _].
    apply adds_bind; [apply adds_lift | intros d3 _ _ _].
    apply adds_bind;
      [apply adds_call; intros l; apply adds_create_application; assumption
      | intros; apply adds_ret].
Qed.

Lemma adds_add_note_to_application (P : request -> Prop) (locals : string -> json) :
  P utcnow -> (forall document, P (insert_one "notes" document)) ->
  adds_only P (body (add_note_to_application w) locals).
Proof.
  intros Hnow Hinsert. simpl.
  apply adds_bind; [apply adds_lift | intros valid_user_id _ _ _].
  apply adds_bind; [apply adds_library | intros app_oid _ _ _].
  apply adds_bind; [apply adds_library | intros user_oid _ _ _].
  apply adds_bind; [apply adds_ask, Hnow | intros now _ _ _].
  apply adds_bind; [apply adds_ask, Hinsert | intros; apply adds_ret].
Qed.

Lemma adds_schedule_followup (P : request -> Prop) (locals : string -> json) :
  P utcnow -> (forall document, P (insert_one "followups" document)) ->
  adds_only P (body (schedule_followup w) locals).
Proof.
  intros Hnow Hinsert. simpl.
  apply adds_bind; [apply adds_lift | intros valid_user_id _ _ _].
  apply adds_bind; [apply adds_due_date, Hnow | intros due _ _ _].
  apply adds_bind; [apply adds_library | intros app_oid _ _ _].
  apply adds_bind; [apply adds_library | intros user_oid _ _ _].
  apply adds_bind; [apply adds_ask, Hnow | intros created _ _ _].
  apply adds_bind; [apply adds_ask, Hnow | intros updated _ _ _].
  apply adds_bind; [apply adds_ask, Hinsert | intros; apply adds_ret].
Qed.

(** What follows a lookup inside the [try] of a tool. *)
Lemma adds_after_lookup (P : request -> Prop) {A B} (m : Eff A) (k : A -> Eff B)
    (h : exception -> Eff B) :
  (forall a, adds_only P (k a)) -> (forall e, adds_only P (h e)) ->
  forall log, exists added,
    snd (try_except (bind m k) h log) = snd (m log) ++ added /\ Forall P added.
Proof.
  intros Hk Hh log. unfold try_except, bind.
  destruct (m log) as [[a|e] log1]; simpl.
  - destruct (Hk a log1) as (added & Hlog & Hadded).
    destruct (k a log1) as [[b|e] log2]; simpl in Hlog; subst log2.
    + exists added. split; [reflexivity | exact Hadded].
    + destruct (Hh e (log1 ++ added)) as (added' & Hlog' & Hadded').
      exists (added ++ added'). rewrite Hlog', app_assoc. split; [reflexivity|].
      apply Forall_app. split; assumption.
  - apply Hh.
Qed.

(** X21.  [update_application_status_by_reference] never reports success
    and never reaches the store: after the lookup it returns a failure,
    [No application found] when the lookup finds nothing, the text of the
    lookup's exception when it raises, and otherwise the text of the
    [TypeError] of its own call of [update_application_status], which
    passes two of the three required arguments (or of the exception of
    reading [_id]).  The log is the one the lookup leaves. *)
Theorem status_tool_never_succeeds (application_ref status_stage : json)
    (log : list request) :
  update_application_status_by_reference w find_application_by_reference
    application_ref status_stage log
  = (Returns
       (match fst (find_application_by_reference application_ref log) with
        | Returns application =>
            if truthy application then
              failure (describe w (Builtin (match getitem application "_id" with
                                            | Ok _ => TypeError
                                            | Raise e => e
                                            end)))
            else not_found w application_ref
        | Raises e => failure (str_exception w e)
        end),
     snd (find_application_by_reference application_ref log)).
Proof.
  unfold update_application_status_by_reference, try_except, bind.
  destruct (find_application_by_reference application_ref log) as [[application|e] log1];
    [|reflexivity].
  cbn [fst snd]. destruct (truthy application); cbn [negb]; [|reflexivity].
  unfold lift. destruct (getitem application "_id"); reflexivity.
Qed.

(** X22.  [create_application_with_dedup] on a duplicate.  When the query
    for a recent application of the same company and role finds a
    document, the function does not update it: its call of
    [update_application] names a parameter [updates] that the function
    does not have, so the call raises [TypeError] before the store is
    asked anything, and the function raises [Exception] with a message
    that begins [Failed to create application: ].  The log is the one the
    query leaves: nothing is written. *)
Theorem duplicate_application_raises (application_data user_id company role_title : json)
    (valid_user_id company_norm role_title_norm : string) (recent_app : json)
    (log log' : list request) :
  get_user_id user_id = Ok valid_user_id ->
  getitem application_data "company" = Ok company ->
  normalized w company = Ok company_norm ->
  getitem application_data "role_title" = Ok role_title ->
  normalized w role_title = Ok role_title_norm ->
  call (find_recent_application w) []
    [("user_id", JStr valid_user_id); ("company_norm", JStr company_norm);
     ("role_title_norm", JStr role_title_norm); ("days", JNum 14)] log
    = (Returns recent_app, log') ->
  truthy recent_app = true ->
  exists message,
    call (create_application_with_dedup w) [application_data; user_id] [] log
    = (Raises (Exception ("Failed to create application: " ++ message)), log') /\
    List.filter is_write log' = List.filter is_write log.
Proof.
  intros Huid Hc Hcn Hr Hrn Hrecent Htruthy.
  assert (Hwrites : List.filter is_write log' = List.filter is_write log).
  { destruct (adds_call (fun r => is_write r = false) (find_recent_application w) []
                [("user_id", JStr valid_user_id); ("company_norm", JStr company_norm);
                 ("role_title_norm", JStr role_title_norm); ("days", JNum 14)]
                (fun l => adds_find_recent_application _ l eq_refl (fun _ => eq_refl)) log)
      as (added & Hlog & Hadded).
    rewrite Hrecent in Hlog. simpl in Hlog. subst log'.
    rewrite List.filter_app.
    assert (Hnone : List.filter is_write added = []).
    { clear -Hadded. induction Hadded as [|r added Hr _ IH]; [reflexivity|].
      simpl. rewrite Hr. exact IH. }
    rewrite Hnone, app_nil_r. reflexivity. }
  set (locals := fun p => default JNull
                          (assoc p [("application_data", application_data);
                                    ("user_id", user_id)])).
  change (call (create_application_with_dedup w) [application_data; user_id] [] log)
    with (body (create_application_with_dedup w) locals log).
  cbn [body create_application_with_dedup].
  change (locals "user_id") with user_id.
  change (locals "application_data") with application_data.
  unfold try_except, bind at 1.
  unfold lift at 1. rewrite Huid. unfold bind at 1. unfold lift at 1.
  rewrite Hc. unfold bind at 1. unfold lift at 1. rewrite Hcn.
  unfold bind at 1. unfold lift at 1. rewrite Hr.
  unfold bind at 1. unfold lift at 1. rewrite Hrn.
  unfold bind at 1. rewrite Hrecent. rewrite Htruthy.
  unfold bind at 1, lift at 1.
  destruct (getitem recent_app "_id"); simpl; (eexists; split; [reflexivity | exact Hwrites]).
Qed.

Lemma create_application_with_dedup_returns (args : list json)
    (kwargs : list (string * json)) (result : json) (log log' : list request) :
  call (create_application_with_dedup w) args kwargs log = (Returns result, log') ->
  exists application_id message,
    result = JObj [("application_id", JStr application_id); ("message", JStr message);
                   ("updated", JBool false)].
Proof.
  unfold call. destruct (bind_arguments _ args kwargs) as [bound|]; [|discriminate].
  generalize (fun p => default JNull (assoc p bound)). intros locals.
  cbn [body create_application_with_dedup]. unfold try_except, bind at 1.
  intros H.
  match type of H with
  | context [match ?x with _ => _ end] => destruct x as [[r|e] log1] eqn:Hbody
  end; [|discriminate H].
  injection H; intros <- <-. clear H.
  unfold bind in Hbody.
  repeat (match type of Hbody with
          | context [let (_, _) := ?x in _] => destruct x as [[?|?] ?] eqn:?
          end; try discriminate Hbody).
  destruct (truthy _).
  - repeat (match type of Hbody with
            | context [let (_, _) := ?x in _] => destruct x as [[?|?] ?] eqn:?
            end; try discriminate Hbody).
  - repeat (match type of Hbody with
            | context [let (_, _) := ?x in _] => destruct x as [[?|?] ?] eqn:?
            end; try discriminate Hbody).
    injection Hbody; intros _ <-. eexists _, _. reflexivity.
Qed.

(** X23.  [add_job_application] never raises and never asks the store to
    update a document, and whenever it reports success its [updated]
    entry is [False]: an application is always added as a new document,
    never merged into a recent one. *)
Theorem add_job_application_never_updates
    (company role_title location source job_post_url status_stage salary_min
     salary_max currency remote_ok skills_required job_posted_date due_at channel
     note : json) (log : list request) :
  exists result added,
    add_job_application w company role_title location source job_post_url status_stage
      salary_min salary_max currency remote_ok skills_required job_posted_date due_at
      channel note log
    = (Returns result, log ++ added) /\
    Forall (fun r => ~ is_update r) added /\
    (getitem result "success" = Ok (JBool true) ->
     getitem result "updated" = Ok (JBool false)).
Proof.
  set (P := fun r => ~ is_update r).
  assert (Hnow : P utcnow) by (intros []).
  assert (Hfind : forall filter, P (find_one "applications" filter)) by (intros ? []).
  assert (Hins : forall c document, P (insert_one c document)) by (intros ? ? []).
  assert (Hadds : adds_only P
            (add_job_application w company role_title location source job_post_url
               status_stage salary_min salary_max currency remote_ok skills_required
               job_posted_date due_at channel note)).
  { unfold add_job_application.
    apply adds_try_except; [|intros e; apply adds_ret].
    apply adds_bind;
      [apply adds_call; intros l; apply adds_create_application_with_dedup; auto
      | intros result _ _ _].
    apply adds_bind.
    { destruct (truthy note); [|apply adds_ret].
      apply adds_bind; [apply adds_lift | intros id _ _ _].
      apply adds_call; intros l; apply adds_add_note_to_application; auto. }
    intros _ _ _ _. apply adds_bind.
    { destruct (truthy due_at && truthy channel); [|apply adds_ret].
      apply adds_bind; [apply adds_lift | intros id _ _ _].
      apply adds_call; intros l; apply adds_schedule_followup; auto. }
    intros _ _ _ _.
    apply adds_bind; [apply adds_lift | intros message _ _ _].
    apply adds_bind; [apply adds_lift | intros id _ _ _].
    apply adds_bind; [apply adds_lift | intros updated _ _ _].
    apply adds_ret. }
  destruct (Hadds log) as (added & Hlog & Hadded).
  destruct (add_job_application w company role_title location source job_post_url
              status_stage salary_min salary_max currency remote_ok skills_required
              job_posted_date due_at channel note log) as [r log'] eqn:Hrun.
  simpl in Hlog. subst log'.
  unfold add_job_application, try_except in Hrun.
  match type of Hrun with
  | context [match ?x with _ => _ end] => destruct x as [[r0|e] log1] eqn:Hbody
  end.
  - injection Hrun; intros _ <-. exists r0, added.
    split; [reflexivity|]. split; [exact Hadded|]. intros _.
    unfold bind at 1 in Hbody.
    match type of Hbody with
    | context [let (_, _) := ?x in _] => destruct x as [[result|?] log2] eqn:Hdedup
    end; [|discriminate Hbody].
    destruct (create_application_with_dedup_returns _ _ _ _ _ Hdedup)
      as (application_id & message & ->).
    unfold bind in Hbody.
    repeat (match type of Hbody with
            | context [let (_, _) := ?x in _] => destruct x as [[?|?] ?] eqn:?
            end; try discriminate Hbody).
    clear Hdedup Hadded Hadds.
    unfold ret in Hbody. injection Hbody; intros _ <-.
    repeat match goal with
           | H : lift _ _ = (Returns _, _) |- _ => apply lift_returns in H
           end.
    simpl in *.
    repeat match goal with
           | H : Ok _ = Ok _ |- _ => injection H; clear H; intros; subst
           end.
    reflexivity.
  - unfold ret in Hrun. injection Hrun; intros _ <-. exists (failure (str_exception w e)), added.
    split; [reflexivity|]. split; [exact Hadded|]. intros H. discriminate H.
Qed.

(** X24.  [schedule_followup_by_reference] passes its note as the fourth
    positional argument of [schedule_followup], which is [user_id]: the
    follow-up it stores never has a [note] entry, and it is filed under
    the user id computed from the note ([DEFAULT_USER_ID], unless the note
    is itself a valid id).  After the lookup nothing else is written. *)
Theorem followup_note_never_stored (application_ref due_at channel note : json)
    (log : list request) :
  exists added,
    snd (schedule_followup_by_reference w find_application_by_reference
           application_ref due_at channel note log)
    = snd (find_application_by_reference application_ref log) ++ added /\
    Forall (followup_request w note) added.
Proof.
  unfold schedule_followup_by_reference.
  apply (adds_after_lookup (followup_request w note)); [|intros e; apply adds_ret].
  intros application. destruct (negb (truthy application)); [apply adds_ret|].
  apply adds_bind; [apply adds_lift | intros app_id _ _ _].
  apply adds_bind.
  - unfold call.
    replace (bind_arguments (parameters (schedule_followup w))
               [JStr (py_str w app_id); due_at; channel; note] [])
      with (Some [("application_id", JStr (py_str w app_id)); ("due_at", due_at);
                  ("channel", channel); ("user_id", note); ("note", JNull)])
      by reflexivity.
    set (bound := [("application_id", JStr (py_str w app_id)); ("due_at", due_at);
                   ("channel", channel); ("user_id", note); ("note", JNull)]).
    cbn [body schedule_followup].
    change (default JNull (assoc "user_id" bound)) with note.
    change (default JNull (assoc "note" bound)) with JNull.
    apply adds_bind; [apply adds_lift | intros valid_user_id ? ? Huid].
    apply lift_returns in Huid.
    apply adds_bind; [apply adds_due_date; exact I | intros due _ _ _].
    apply adds_bind; [apply adds_library | intros app_oid _ _ _].
    apply adds_bind; [apply adds_library | intros user_oid ? ? Hoid].
    apply library_returns in Hoid.
    apply adds_bind; [apply adds_ask; exact I | intros created _ _ _].
    apply adds_bind; [apply adds_ask; exact I | intros updated _ _ _].
    apply adds_bind; [|intros; apply adds_ret].
    apply adds_ask. split; [reflexivity|]. split; [reflexivity|].
    exists valid_user_id, user_oid. split; [exact Huid|]. split; [exact Hoid | reflexivity].
  - intros followup_id _ _ _.
    apply adds_bind; [apply adds_lift | intros company _ _ _].
    apply adds_bind; [apply adds_lift | intros id _ _ _].
    apply adds_ret.
Qed.

(** X25.  [add_note_to_application_by_reference] never passes a user:
    after the lookup, the only write it can request is an insert into
    [notes] of a document whose [content] is the note as given and whose
    [user_id] is the id of [DEFAULT_USER_ID]; it never requests an
    update, and it never raises. *)
Theorem note_filed_under_default_user (application_ref note : json)
    (log : list request) :
  exists result added,
    add_note_to_application_by_reference w find_application_by_reference
      application_ref note log
    = (Returns result, snd (find_application_by_reference application_ref log) ++ added) /\
    Forall (note_request w note) added.
Proof.
  destruct (adds_after_lookup (note_request w note)
              (find_application_by_reference application_ref)
              (fun application =>
                 if negb (truthy application) then ret (not_found w application_ref)
                 else
                   do app_id <- lift (getitem application "_id");
                   do note_id <-
                     call (add_note_to_application w) [JStr (py_str w app_id); note] [];
                   do company <- lift (getitem application "company");
                   do role_title <- lift (getitem application "role_title");
                   do app_id <- lift (getitem application "_id");
                   ret (JObj [("success", JBool true);
                              ("message",
                               JStr ("Note added for " ++ py_str w company ++ " " ++
                                     py_str w role_title));
                              ("application_id", JStr (py_str w app_id));
                              ("note_id", note_id)]))
              (fun e => ret (failure (str_exception w e)))) with (log := log)
    as (added & Hlog & Hadded).
  - intros application. destruct (negb (truthy application)); [apply adds_ret|].
    apply adds_bind; [apply adds_lift | intros app_id _ _ _].
    apply adds_bind.
    + unfold call.
      replace (bind_arguments (parameters (add_note_to_application w))
                 [JStr (py_str w app_id); note] [])
        with (Some [("application_id", JStr (py_str w app_id)); ("content", note);
                    ("user_id", JNull)])
        by reflexivity.
      set (bound := [("application_id", JStr (py_str w app_id)); ("content", note);
                     ("user_id", JNull)]).
      cbn [body add_note_to_application].
      change (default JNull (assoc "user_id" bound)) with JNull.
      change (default JNull (assoc "content" bound)) with note.
      apply adds_bind; [apply adds_lift | intros valid_user_id ? ? Huid].
      apply lift_returns in Huid. injection Huid; intros <-.
      apply adds_bind; [apply adds_library | intros app_oid _ _ _].
      apply adds_bind; [apply adds_library | intros user_oid ? ? Hoid].
      apply library_returns in Hoid.
      apply adds_bind; [apply adds_ask; exact I | intros now _ _ _].
      apply adds_bind; [|intros; apply adds_ret].
      apply adds_ask. split; [reflexivity|]. split; [reflexivity|].
      exists user_oid. split; [exact Hoid | reflexivity].
    + intros note_id _ _ _.
      apply adds_bind; [apply adds_lift | intros company _ _ _].
      apply adds_bind; [apply adds_lift | intros role_title _ _ _].
      apply adds_bind; [apply adds_lift | intros id _ _ _].
      apply adds_ret.
  - intros e. apply adds_ret.
  - fold (add_note_to_application_by_reference w find_application_by_reference
            application_ref note) in Hlog.
    destruct (add_note_to_application_by_reference w find_application_by_reference
                application_ref note log) as [[result|e] log'] eqn:Hrun.
    + exists result, added. simpl in Hlog. rewrite Hlog. split; [reflexivity | exact Hadded].
    + exfalso. unfold add_note_to_application_by_reference, try_except in Hrun.
      destruct (bind _ _ log) as [[?|?] ?]; discriminate Hrun.
Qed.

End ToolFacts.

Lemma duplicate_application_raises_witness :
  exists message,
    Tools.call (Tools.create_application_with_dedup sample_world)
      [JObj [("company", JStr "Google"); ("role_title", JStr "Software Engineer")]; JNull]
      [] []
    = (Tools.Raises (Tools.Exception ("Failed to create application: " ++ message)),
       [Tools.utcnow;
        Tools.find_one "applications"
          (JObj [("user_id", JStr DEFAULT_USER_ID);
                 ("company_norm", JStr "google");
                 ("role_title_norm", JStr "software engineer");
                 ("created_at", JObj [("$gte", JStr "2025-06-02T08:00:00")])])]) /\
    List.filter is_write
      [Tools.utcnow;
       Tools.find_one "applications"
         (JObj [("user_id", JStr DEFAULT_USER_ID);
                ("company_norm", JStr "google");
                ("role_title_norm", JStr "software engineer");
                ("created_at", JObj [("$gte", JStr "2025-06-02T08:00:00")])])]
    = List.filter is_write [].
Proof.
  apply (duplicate_application_raises sample_world
           (JObj [("company", JStr "Google"); ("role_title", JStr "Software Engineer")])
           JNull (JStr "Google") (JStr "Software Engineer")
           DEFAULT_USER_ID "google" "software engineer"
           (JObj [("_id", JStr "65f000000000000000000001");
                  ("company_norm", JStr "google");
                  ("role_title_norm", JStr "software engineer")])
           []); reflexivity.
Defined.

(** On the sample store: a second application to the same company and
    role is refused, with the text of the [TypeError]; the status of the
    application found for [goo] is not updated; the follow-up for it is
    stored without its note. *)
Example add_job_application_duplicate :
  Tools.add_job_application sample_world (JStr "Google") (JStr "Software Engineer")
    JNull JNull JNull (JStr "applied") JNull JNull (JStr "USD") JNull JNull JNull
    JNull JNull (JStr "Referred by Ana") []
  = (Tools.Returns (Tools.failure "Failed to create application: TypeError"),
     [Tools.utcnow;
      Tools.find_one "applications"
        (JObj [("user_id", JStr DEFAULT_USER_ID);
               ("company_norm", JStr "google");
               ("role_title_norm", JStr "software engineer");
               ("created_at", JObj [("$gte", JStr "2025-06-02T08:00:00")])])]).
Proof. reflexivity. Qed.

Example status_tool_on_sample :
  Tools.update_application_status_by_reference sample_world sample_lookup
    (JStr "goo") (JStr "applied") []
  = (Tools.Returns (Tools.failure "TypeError"), []).
Proof. reflexivity. Qed.

Example followup_tool_on_sample :
  Tools.schedule_followup_by_reference sample_world sample_lookup
    (JStr "goo") (JStr "next friday") (JStr "email") (JStr "Send portfolio") []
  = (Tools.Returns
       (JObj [("success", JBool true);
              ("message", JStr "Follow-up scheduled for Google on next friday");
              ("application_id", JStr "65f000000000000000000003");
              ("followup_id", JStr "65f000000000000000000005")]),
     [Tools.utcnow; Tools.utcnow; Tools.utcnow;
      Tools.insert_one "followups"
        (JObj [("application_id", JStr "65f000000000000000000003");
               ("user_id", JStr DEFAULT_USER_ID);
               ("due_at", JStr "2025-06-02T08:00:00");
               ("channel", JStr "email"); ("status", JStr "pending");
               ("created_at", JStr "2025-06-02T08:00:00");
               ("updated_at", JStr "2025-06-02T08:00:00")])]).
Proof. reflexivity. Qed.

(** ** Language detection *)

Lemma max_key_cons (x : string * nat) (scores : list (string * nat)) :
  max_key (x :: scores) <> None.
Proof.
  destruct x as [k v]. simpl.
  destruct (max_key scores) as [[k' v']|]; [destruct (v <? v')%nat|]; discriminate.
Qed.

Lemma max_key_first (f : string -> nat) (codes : list string) (k : string) (v : nat) :
  max_key (map (fun c => (c, f c)) codes) = Some (k, v) ->
  v = f k /\
  exists before after,
    codes = before ++ k :: after /\
    Forall (fun c => f c < f k) before /\
    Forall (fun c => f c <= f k) after.
Proof.
  revert k v. induction codes as [|c codes IH]; intros k v H; simpl in H; [discriminate|].
  destruct (max_key (map (fun c => (c, f c)) codes)) as [[k' v']|] eqn:Hrest.
  - destruct (IH k' v' eq_refl) as (-> & before & after & -> & Hb & Ha).
    destruct (Nat.ltb_spec (f c) (f k')) as [Hlt | Hge].
    + injection H; intros <- <-. split; [reflexivity|].
      exists (c :: before), after. split; [reflexivity|].
      split; [constructor; assumption | exact Ha].
    + injection H; intros <- <-. split; [reflexivity|].
      exists [], (before ++ k' :: after). split; [reflexivity|].
      split; [constructor|]. apply Forall_app. split.
      * eapply Forall_impl; [exact Hb|]. intros x Hx. simpl in Hx. lia.
      * constructor; [exact Hge|].
        eapply Forall_impl; [exact Ha|]. intros x Hx. simpl in Hx. lia.
  - destruct codes as [|c' codes]; [|exfalso; exact (max_key_cons _ _ Hrest)].
    injection H; intros <- <-. split; [reflexivity|].
    exists [], []. repeat split; constructor.
Qed.

(** X26.  [detect_language] returns one of the four codes that
    [is_language_supported] accepts and that has a voice of its own.  On
    a text that is not a string, or is empty, it returns [en].  On any
    other text it returns either [en], when no pattern matches twice, or
    the first language in the order es, fr, de, en among those of
    greatest count, which is at least 2: a language wins a tie against
    those listed after it, so English wins only with strictly more
    matches than each of the others. *)
Theorem detect_language_decision (findall : string -> string -> nat) (text : json) :
  let detected := detect_language findall text in
  is_language_supported detected = true /\
  lookup_voice detected default_voices <> None /\
  match text with
  | JStr s =>
      if String.eqb s "" then detected = "en"
      else
        (detected = "en" /\ Forall (fun c => findall c s < 2) LANGUAGE_CODES) \/
        (2 <= findall detected s /\
         exists before after,
           LANGUAGE_CODES = before ++ detected :: after /\
           Forall (fun c => findall c s < findall detected s) before /\
           Forall (fun c => findall c s <= findall detected s) after)
  | _ => detected = "en"
  end.
Proof.
  cbv zeta.
  assert (Hcodes : forall c, In c LANGUAGE_CODES ->
            is_language_supported c = true /\ lookup_voice c default_voices <> None).
  { intros c Hc. simpl in Hc.
    destruct Hc as [<- | [<- | [<- | [<- | []]]]]; split; (reflexivity || discriminate). }
  assert (Hen : In "en" LANGUAGE_CODES) by (simpl; auto).
  destruct text as [| | |s| |]; try (split; [|split]; [apply Hcodes, Hen.. | reflexivity]).
  unfold detect_language. destruct (String.eqb s "") eqn:Hs.
  { split; [|split]; [apply Hcodes, Hen.. | reflexivity]. }
  cbv zeta.
  destruct (max_key (map (fun c => (c, findall c s)) LANGUAGE_CODES)) as [[k v]|] eqn:Hmax;
    [|exfalso; exact (max_key_cons _ _ Hmax)].
  destruct (max_key_first (fun c => findall c s) LANGUAGE_CODES k v Hmax)
    as (-> & before & after & Hsplit & Hb & Ha).
  destruct (Nat.leb_spec 2 (findall k s)) as [Hge | Hlt].
  - assert (Hk : In k LANGUAGE_CODES) by (rewrite Hsplit; apply in_elt).
    split; [|split]; [apply Hcodes, Hk.. |].
    right. split; [exact Hge|]. exists before, after. repeat split; assumption.
  - split; [|split]; [apply Hcodes, Hen.. |].
    left. split; [reflexivity|]. rewrite Hsplit. apply Forall_app. split.
    + eapply Forall_impl; [exact Hb|]. intros x Hx. simpl in Hx. lia.
    + constructor; [exact Hlt|].
      eapply Forall_impl; [exact Ha|]. intros x Hx. simpl in Hx. lia.
Qed.

(** A text with two English and two Spanish matches is taken as
    Spanish; with two German ones as well, still as Spanish. *)
Example detect_language_tie :
  detect_language
    (fun lang_code _ => if String.eqb lang_code "fr" then 0 else 2)
    (JStr "no software status")
  = "es".
Proof. reflexivity. Qed.

(** ** Time ranges *)

Section Calendar.

Local Open Scope N_scope.

Lemma days_in_month_bounds (y m : N) : 28 <= days_in_month y m <= 31.
Proof.
  unfold days_in_month. destruct (m =? 2); [destruct (is_leap y); lia|].
  destruct ((m =? 4) || (m =? 6) || (m =? 9) || (m =? 11)); lia.
Qed.

Lemma month_cases (m : N) :
  1 <= m <= 12 ->
  m = 1 \/ m = 2 \/ m = 3 \/ m = 4 \/ m = 5 \/ m = 6 \/
  m = 7 \/ m = 8 \/ m = 9 \/ m = 10 \/ m = 11 \/ m = 12.
Proof. lia. Qed.

Lemma days_before_next_month (y m : N) :
  1 <= m < 12 ->
  days_before_month y (m + 1) = (days_before_month y m + Z.of_N (days_in_month y m))%Z.
Proof.
  intros Hm. assert (H : 1 <= m <= 12) by lia.
  destruct (month_cases m H) as [-> | [-> | [-> | [-> | [-> | [-> |
                                [-> | [-> | [-> | [-> | [-> | ->]]]]]]]]]]];
    try lia; unfold days_before_month, days_in_month; simpl;
    destruct (is_leap y); reflexivity.
Qed.

Lemma days_before_next_year (y : N) :
  1 <= y ->
  days_before_year (y + 1) =
    (days_before_year y + days_before_month y 12 + 31)%Z.
Proof.
  intros Hy. unfold days_before_year, days_before_month, is_leap. simpl nth.
  change (2 <? 12) with true. cbn [andb].
  destruct (N.eqb_spec (y mod 4) 0); destruct (N.eqb_spec (y mod 100) 0);
    destruct (N.eqb_spec (y mod 400) 0); cbn [andb orb negb]; divmod.
Qed.

Lemma toordinal_last_day (t : datetime) :
  year t = 9999 -> month t = 12 -> day t = 31 -> toordinal t = 3652059%Z.
Proof. intros Hy Hm Hd. unfold toordinal. rewrite Hy, Hm, Hd. reflexivity. Qed.

Lemma toordinal_first_day (t : datetime) :
  year t = 1 -> month t = 1 -> day t = 1 -> toordinal t = 1%Z.
Proof. intros Hy Hm Hd. unfold toordinal. rewrite Hy, Hm, Hd. reflexivity. Qed.

Lemma next_day_spec (t : datetime) :
  valid_datetime t -> (toordinal t < 3652059)%Z ->
  exists t',
    next_day t = Some t' /\ valid_datetime t' /\ same_time t t' /\
    toordinal t' = (toordinal t + 1)%Z.
Proof.
  intros Hvalid Hord. pose proof Hvalid as (Hy & Hm & Hd & Hh & Hmi & Hs & Hus).
  pose proof (days_in_month_bounds (year t) (month t)) as Hdim.
  unfold next_day.
  destruct (N.ltb_spec (day t) (days_in_month (year t) (month t))) as [Hday | Hday].
  - eexists. split; [reflexivity|]. split; [|split].
    + unfold valid_datetime. simpl. lia.
    + repeat split.
    + unfold toordinal. simpl. lia.
  - assert (Hlast : day t = days_in_month (year t) (month t)) by lia.
    destruct (N.ltb_spec (month t) 12) as [Hmonth | Hmonth].
    + pose proof (days_in_month_bounds (year t) (month t + 1)) as Hdim'.
      eexists. split; [reflexivity|]. split; [|split].
      * unfold valid_datetime. simpl. lia.
      * repeat split.
      * unfold toordinal. simpl.
        rewrite days_before_next_month by lia. lia.
    + assert (Hdec : month t = 12) by lia.
      assert (H31 : day t = 31) by (rewrite Hlast, Hdec; reflexivity).
      destruct (N.ltb_spec (year t) 9999) as [Hlt | Hbad].
      * eexists. split; [reflexivity|]. split; [|split].
        -- unfold valid_datetime. simpl.
           assert (days_in_month (year t + 1) 1 = 31) by reflexivity. lia.
        -- repeat split.
        -- unfold toordinal. simpl.
           rewrite days_before_next_year by lia. rewrite Hdec, H31.
           change (days_before_month (year t + 1) 1) with 0%Z. lia.
      * rewrite (toordinal_last_day t) in Hord; lia.
Qed.

Lemma prev_day_spec (t : datetime) :
  valid_datetime t -> (1 < toordinal t)%Z ->
  exists t',
    prev_day t = Some t' /\ valid_datetime t' /\ same_time t t' /\
    toordinal t' = (toordinal t - 1)%Z.
Proof.
  intros Hvalid Hord. pose proof Hvalid as (Hy & Hm & Hd & Hh & Hmi & Hs & Hus).
  unfold prev_day.
  destruct (N.ltb_spec 1 (day t)) as [Hday | Hday].
  - eexists. split; [reflexivity|]. split; [|split].
    + unfold valid_datetime. simpl. lia.
    + repeat split.
    + unfold toordinal. simpl. lia.
  - assert (Hfirst : day t = 1) by lia.
    destruct (N.ltb_spec 1 (month t)) as [Hmonth | Hmonth].
    + pose proof (days_in_month_bounds (year t) (month t - 1)) as Hdim'.
      eexists. split; [reflexivity|]. split; [|split].
      * unfold valid_datetime. simpl. lia.
      * repeat split.
      * unfold toordinal. simpl.
        pose proof (days_before_next_month (year t) (month t - 1)) as Hnext.
        replace (month t - 1 + 1) with (month t) in Hnext by lia.
        rewrite Hnext by lia. lia.
    + assert (Hjan : month t = 1) by lia.
      destruct (N.ltb_spec 1 (year t)) as [Hlt | Hbad].
      * eexists. split; [reflexivity|]. split; [|split].
        -- unfold valid_datetime. simpl.
           assert (days_in_month (year t - 1) 12 = 31) by reflexivity. lia.
        -- repeat split.
        -- unfold toordinal. simpl.
           pose proof (days_before_next_year (year t - 1)) as Hnext.
           replace (year t - 1 + 1) with (year t) in Hnext by lia.
           rewrite Hnext by lia. rewrite Hjan, Hfirst.
           change (days_before_month (year t) 1) with 0%Z. lia.
      * rewrite (toordinal_first_day t) in Hord; lia.
Qed.

Lemma same_time_trans (a b c : datetime) :
  same_time a b -> same_time b c -> same_time a c.
Proof. unfold same_time. intros (? & ? & ? & ?) (? & ? & ? & ?). repeat split; congruence. Qed.

Lemma plus_days_spec (n : nat) :
  forall t, valid_datetime t -> (toordinal t + Z.of_nat n <= 3652059)%Z ->
  exists t',
    plus_days n t = Some t' /\ valid_datetime t' /\ same_time t t' /\
    toordinal t' = (toordinal t + Z.of_nat n)%Z.
Proof.
  induction n as [|n IH]; intros t Hvalid Hord.
  - exists t. split; [reflexivity|]. split; [exact Hvalid|].
    split; [repeat split | lia].
  - destruct (next_day_spec t Hvalid) as (t1 & Hstep & Hv1 & Hs1 & Ho1); [lia|].
    destruct (IH t1 Hv1) as (t' & Hrun & Hv' & Hs' & Ho'); [lia|].
    exists t'. simpl. rewrite Hstep. split; [exact Hrun|]. split; [exact Hv'|].
    split; [eapply same_time_trans; eassumption | lia].
Qed.

Lemma minus_days_spec (n : nat) :
  forall t, valid_datetime t -> (1 <= toordinal t - Z.of_nat n)%Z ->
  exists t',
    minus_days n t = Some t' /\ valid_datetime t' /\ same_time t t' /\
    toordinal t' = (toordinal t - Z.of_nat n)%Z.
Proof.
  induction n as [|n IH]; intros t Hvalid Hord.
  - exists t. split; [reflexivity|]. split; [exact Hvalid|].
    split; [repeat split | lia].
  - destruct (prev_day_spec t Hvalid) as (t1 & Hstep & Hv1 & Hs1 & Ho1); [lia|].
    destruct (IH t1 Hv1) as (t' & Hrun & Hv' & Hs' & Ho'); [lia|].
    exists t'. simpl. rewrite Hstep. split; [exact Hrun|]. split; [exact Hv'|].
    split; [eapply same_time_trans; eassumption | lia].
Qed.

(** The days of the years 2 to 9998 are far from both ends. *)
Lemma toordinal_bounds (t : datetime) :
  valid_datetime t -> 2 <= year t <= 9998 ->
  (366 <= toordinal t <= 3651695)%Z.
Proof.
  intros (Hy & Hm & Hd & _) Hyear.
  pose proof (days_in_month_bounds (year t) (month t)) as Hdim.
  assert (Hdby : (365 <= days_before_year (year t) <= 3651329)%Z).
  { unfold days_before_year. divmod. }
  assert (Hdbm : (0 <= days_before_month (year t) (month t)
                  /\ days_before_month (year t) (month t)
                       + Z.of_N (days_in_month (year t) (month t)) <= 366)%Z).
  { destruct (month_cases (month t) Hm)
      as [-> | [-> | [-> | [-> | [-> | [-> | [-> | [-> | [-> | [-> | [-> | ->]]]]]]]]]]];
      unfold days_before_month, days_in_month; simpl; destruct (is_leap (year t)); lia. }
  unfold toordinal. lia.
Qed.

Lemma weekday_lt (t : datetime) : (weekday t < 7)%nat.
Proof.
  unfold weekday. pose proof (Z.mod_pos_bound (toordinal t + 6) 7 ltac:(lia)). lia.
Qed.

Lemma weekday_monday (t : datetime) (k : Z) :
  (toordinal t = k - Z.of_nat (Z.to_nat ((k + 6) mod 7)))%Z -> weekday t = 0%nat.
Proof.
  intros H. unfold weekday. rewrite H.
  pose proof (Z.mod_pos_bound (k + 6) 7 ltac:(lia)).
  rewrite Z2Nat.id by lia.
  replace (k - (k + 6) mod 7 + 6)%Z with (7 * ((k + 6) / 7))%Z
    by (pose proof (Z.div_mod (k + 6) 7 ltac:(lia)); lia).
  rewrite Z.mul_comm, Z.mod_mul by lia. reflexivity.
Qed.

Lemma weekday_shift (t t' : datetime) (k : Z) :
  toordinal t' = (toordinal t + 7 * k)%Z -> weekday t' = weekday t.
Proof.
  intros H. unfold weekday. rewrite H.
  replace (toordinal t + 7 * k + 6)%Z with (toordinal t + 6 + k * 7)%Z by lia.
  rewrite Z.mod_add by lia. reflexivity.
Qed.

Lemma midnight_fixed (t t' : datetime) :
  same_time (midnight t) t' -> midnight t' = t'.
Proof.
  unfold same_time, midnight. destruct t'. simpl. intros (-> & -> & -> & ->). reflexivity.
Qed.

Lemma instant_midnight (t : datetime) :
  midnight t = t -> instant t = days (toordinal t - 1).
Proof.
  intros H. unfold instant, days. rewrite <- H. simpl.
  change (toordinal (midnight t)) with (toordinal t). lia.
Qed.

Lemma valid_midnight (t : datetime) : valid_datetime t -> valid_datetime (midnight t).
Proof. unfold valid_datetime. simpl. intros (? & ? & ? & _). repeat split; lia. Qed.

(** X27.  [get_time_range] on [this_week] and [last_week], for a time from
    the year 2 to the year 9998.  Both ranges start and end on a Monday at
    midnight and are seven days long; this week holds the time given,
    and last week ends at the instant this week starts. *)
Theorem get_time_range_weeks (now : datetime) :
  valid_datetime now -> 2 <= year now <= 9998 ->
  exists start_last end_last start_this end_this,
    get_time_range (JStr "last_week") now = Some (start_last, end_last) /\
    get_time_range (JStr "this_week") now = Some (start_this, end_this) /\
    Forall (fun t => weekday t = 0%nat /\ midnight t = t)
      [start_last; end_last; start_this; end_this] /\
    (instant end_last = instant start_last + days 7 /\
     instant start_this = instant end_last /\
     instant end_this = instant start_this + days 7 /\
     instant start_this <= instant now < instant end_this)%Z.
Proof.
  intros Hvalid Hyear.
  pose proof (toordinal_bounds now Hvalid Hyear) as Hord.
  pose proof (weekday_lt now) as Hwd.
  destruct (minus_days_spec (weekday now + 7) now Hvalid) as (s1 & Hs1 & Hv1 & _ & Ho1);
    [lia|].
  destruct (plus_days_spec 7 (midnight s1) (valid_midnight _ Hv1))
    as (e1 & He1 & Hve1 & Hte1 & Hoe1);
    [change (toordinal (midnight s1)) with (toordinal s1); lia|].
  destruct (minus_days_spec (weekday now) now Hvalid) as (s0 & Hs0 & Hv0 & _ & Ho0);
    [lia|].
  destruct (plus_days_spec 7 (midnight s0) (valid_midnight _ Hv0))
    as (e0 & He0 & Hve0 & Hte0 & Hoe0);
    [change (toordinal (midnight s0)) with (toordinal s0); lia|].
  change (toordinal (midnight s1)) with (toordinal s1) in Hoe1.
  change (toordinal (midnight s0)) with (toordinal s0) in Hoe0.
  exists (midnight s1), e1, (midnight s0), e0.
  unfold get_time_range. simpl eq_str. cbv iota.
  rewrite Hs1, He1, Hs0, He0.
  split; [reflexivity|]. split; [reflexivity|].
  assert (Hm0 : weekday s0 = 0%nat).
  { apply (weekday_monday s0 (toordinal now)). exact Ho0. }
  assert (Hfix1 : midnight e1 = e1) by (eapply midnight_fixed; exact Hte1).
  assert (Hfix0 : midnight e0 = e0) by (eapply midnight_fixed; exact Hte0).
  split.
  - repeat constructor.
    + rewrite <- Hm0. apply (weekday_shift s0 (midnight s1) (-1)).
      change (toordinal (midnight s1)) with (toordinal s1). lia.
    + rewrite <- Hm0. apply (weekday_shift s0 e1 0). lia.
    + exact Hfix1.
    + exact Hm0.
    + rewrite <- Hm0. apply (weekday_shift s0 e0 1). lia.
    + exact Hfix0.
  - rewrite (instant_midnight e1 Hfix1), (instant_midnight e0 Hfix0),
      (instant_midnight (midnight s1) eq_refl), (instant_midnight (midnight s0) eq_refl).
    change (toordinal (midnight s1)) with (toordinal s1).
    change (toordinal (midnight s0)) with (toordinal s0).
    destruct Hvalid as (_ & _ & _ & Hh & Hmi & Hs & Hus).
    unfold instant, days. lia.
Qed.

Lemma plus_days_within (n : nat) :
  forall t, day t + N.of_nat n <= days_in_month (year t) (month t) ->
    plus_days n t = Some (set_date (year t) (month t) (day t + N.of_nat n) t).
Proof.
  induction n as [|n IH]; intros t Hn.
  - simpl. rewrite N.add_0_r. destruct t; reflexivity.
  - simpl plus_days. unfold next_day.
    destruct (N.ltb_spec (day t) (days_in_month (year t) (month t))) as [_ | Hbad]; [|lia].
    rewrite IH by (simpl; lia).
    cbn [set_date year month day hour minute second microsecond].
    replace (day t + 1 + N.of_nat n) with (day t + N.of_nat (S n)) by lia. reflexivity.
Qed.

Lemma plus_days_add (a b : nat) (t : datetime) :
  plus_days (a + b) t =
    match plus_days a t with
    | Some t' => plus_days b t'
    | None => None
    end.
Proof.
  revert t. induction a as [|a IH]; intros t; simpl; [reflexivity|].
  destruct (next_day t); [apply IH | reflexivity].
Qed.

(** The day 32 days after the first of a month is in the next month. *)
Lemma plus_32_days (t : datetime) :
  1 <= month t <= 12 -> year t < 9999 -> day t = 1 ->
  exists t',
    plus_days 32 t = Some t' /\
    first_of_month t' =
      (if month t <? 12 then set_date (year t) (month t + 1) 1 t
       else set_date (year t + 1) 1 1 t).
Proof.
  intros Hm Hy Hd.
  pose proof (days_in_month_bounds (year t) (month t)) as Hdim.
  set (dim := days_in_month (year t) (month t)) in *.
  assert (Hsplit : (32 = (N.to_nat dim - 1) + (1 + (32 - N.to_nat dim)))%nat) by lia.
  rewrite Hsplit, plus_days_add.
  rewrite plus_days_within by (fold dim; lia).
  rewrite plus_days_add.
  change (plus_days 1 ?x) with (match next_day x with Some t' => Some t' | None => None end).
  unfold next_day at 1.
  cbn [day month year set_date hour minute second microsecond]. fold dim.
  destruct (N.ltb_spec (day t + N.of_nat (N.to_nat dim - 1)) dim) as [Hbad | _]; [lia|].
  destruct (N.ltb_spec (month t) 12) as [Hlt | Hge].
  - pose proof (days_in_month_bounds (year t) (month t + 1)) as Hdim'.
    rewrite plus_days_within by (simpl; lia).
    eexists. split; [reflexivity|]. reflexivity.
  - destruct (N.ltb_spec (year t) 9999) as [_ | Hbad]; [|lia].
    pose proof (days_in_month_bounds (year t + 1) 1) as Hdim'.
    rewrite plus_days_within by (simpl; lia).
    eexists. split; [reflexivity|]. reflexivity.
Qed.

(** X28.  [get_time_range] on [this_month] and [last_month], for a time
    from the year 2 to the year 9998.  This month runs from the first day
    of the month of the time given to the first day of the next month,
    last month from the first day of the month before to the start of
    this month, and every bound keeps the time of the day of the time
    given: the ranges do not start at midnight.  This month holds the
    time given. *)
Theorem get_time_range_months (now : datetime) :
  valid_datetime now -> 2 <= year now <= 9998 ->
  let start_this := set_date (year now) (month now) 1 now in
  let end_this :=
    if month now <? 12 then set_date (year now) (month now + 1) 1 now
    else set_date (year now + 1) 1 1 now in
  let start_last :=
    if 1 <? month now then set_date (year now) (month now - 1) 1 now
    else set_date (year now - 1) 12 1 now in
  get_time_range (JStr "this_month") now = Some (start_this, end_this) /\
  get_time_range (JStr "last_month") now = Some (start_last, start_this) /\
  (instant start_last < instant start_this <= instant now /\
   instant now < instant end_this)%Z.
Proof.
  intros Hvalid Hyear start_this end_this start_last.
  pose proof Hvalid as (Hy & Hm & Hd & _).
  split; [|split].
  - unfold get_time_range. simpl eq_str. cbv iota.
    destruct (plus_32_days (first_of_month now)) as (e & Hrun & Hfirst);
      [exact Hm | simpl; lia | reflexivity |].
    rewrite Hrun, Hfirst. reflexivity.
  - unfold get_time_range. simpl eq_str. cbv iota.
    simpl minus_days. unfold prev_day.
    cbn [first_of_month day month year set_date hour minute second microsecond].
    change (1 <? 1) with false. cbv iota.
    unfold start_last, start_this.
    destruct (N.ltb_spec 1 (month now)) as [Hlt | Hge]; [reflexivity|].
    destruct (N.ltb_spec 1 (year now)) as [_ | Hbad]; [reflexivity | lia].
  - pose proof (days_in_month_bounds (year now) (month now)) as Hdim.
    assert (Hlast : (instant start_last < instant start_this)%Z).
    { unfold start_last, start_this.
      destruct (N.ltb_spec 1 (month now)) as [Hlt | Hge].
      - pose proof (days_in_month_bounds (year now) (month now - 1)) as Hdim'.
        pose proof (days_before_next_month (year now) (month now - 1)) as Hnext.
        replace (month now - 1 + 1) with (month now) in Hnext by lia.
        unfold instant, toordinal. simpl. rewrite Hnext by lia. lia.
      - assert (Hjan : month now = 1) by lia.
        pose proof (days_before_next_year (year now - 1)) as Hnext.
        replace (year now - 1 + 1) with (year now) in Hnext by lia.
        unfold instant, toordinal. simpl. rewrite Hnext by lia. rewrite Hjan.
        change (days_before_month (year now) 1) with 0%Z. lia. }
    split; [split; [exact Hlast|]|]; unfold start_this, end_this.
    + unfold instant, toordinal. simpl. lia.
    + destruct (N.ltb_spec (month now) 12) as [Hlt | Hge].
      * unfold instant, toordinal. simpl.
        rewrite days_before_next_month by lia. lia.
      * assert (Hdec : month now = 12) by lia.
        assert (H31 : days_in_month (year now) 12 = 31) by reflexivity.
        unfold instant, toordinal. simpl.
        rewrite days_before_next_year by lia. rewrite Hdec in *.
        change (days_before_month (year now + 1) 1) with 0%Z. lia.
Qed.

(** X29.  Any other value of [time_range] gives the seven days that end at
    the time given. *)
Theorem get_time_range_default (time_range : json) (now : datetime) :
  valid_datetime now -> 2 <= year now <= 9998 ->
  eq_str time_range "last_week" = false ->
  eq_str time_range "this_week" = false ->
  eq_str time_range "last_month" = false ->
  eq_str time_range "this_month" = false ->
  exists start,
    get_time_range time_range now = Some (start, now) /\
    valid_datetime start /\ same_time now start /\
    (instant start = instant now - days 7)%Z.
Proof.
  intros Hvalid Hyear H1 H2 H3 H4.
  pose proof (toordinal_bounds now Hvalid Hyear) as Hord.
  destruct (minus_days_spec 7 now Hvalid) as (start & Hrun & Hv & Ht & Ho); [lia|].
  exists start. unfold get_time_range. rewrite H1, H2, H3, H4, Hrun.
  split; [reflexivity|]. split; [exact Hv|]. split; [exact Ht|].
  destruct Ht as (Hh & Hmi & Hs & Hus).
  unfold instant, days. rewrite Ho, Hh, Hmi, Hs, Hus. lia.
Qed.

End Calendar.

Lemma get_time_range_weeks_witness :
  exists start_last end_last start_this end_this,
    get_time_range (JStr "last_week") sample_now = Some (start_last, end_last) /\
    get_time_range (JStr "this_week") sample_now = Some (start_this, end_this) /\
    Forall (fun t => weekday t = 0%nat /\ midnight t = t)
      [start_last; end_last; start_this; end_this] /\
    (instant end_last = instant start_last + days 7 /\
     instant start_this = instant end_last /\
     instant end_this = instant start_this + days 7 /\
     instant start_this <= instant sample_now < instant end_this)%Z.
Proof.
  apply (get_time_range_weeks sample_now).
  - repeat split; vm_compute; congruence.
  - split; vm_compute; congruence.
Defined.

Lemma get_time_range_months_witness :
  let now := sample_now in
  let start_this := set_date (year now) (month now) 1 now in
  let end_this :=
    if (month now <? 12)%N then set_date (year now) (month now + 1) 1 now
    else set_date (year now + 1) 1 1 now in
  let start_last :=
    if (1 <? month now)%N then set_date (year now) (month now - 1) 1 now
    else set_date (year now - 1) 12 1 now in
  get_time_range (JStr "this_month") now = Some (start_this, end_this) /\
  get_time_range (JStr "last_month") now = Some (start_last, start_this) /\
  (instant start_last < instant start_this <= instant now /\
   instant now < instant end_this)%Z.
Proof.
  apply (get_time_range_months sample_now).
  - repeat split; vm_compute; congruence.
  - split; vm_compute; congruence.
Defined.

Lemma get_time_range_default_witness :
  exists start,
    get_time_range (JStr "last_7_days") sample_now = Some (start, sample_now) /\
    valid_datetime start /\ same_time sample_now start /\
    (instant start = instant sample_now - days 7)%Z.
Proof.
  apply (get_time_range_default (JStr "last_7_days") sample_now).
  - repeat split; vm_compute; congruence.
  - split; vm_compute; congruence.
  - reflexivity.
  - reflexivity.
  - reflexivity.
  - reflexivity.
Defined.

(** On Wednesday 4 June 2025 at 15:30: this week is from Monday 2 June
    to Monday 9 June, at midnight; this month is from 1 June 15:30 to
    1 July 15:30, so an application created on 1 June at 09:00 counts
    for last month. *)
Example get_time_range_sample :
  get_time_range (JStr "this_week") sample_now
    = Some (mkDatetime 2025 6 2 0 0 0 0, mkDatetime 2025 6 9 0 0 0 0) /\
  get_time_range (JStr "last_week") sample_now
    = Some (mkDatetime 2025 5 26 0 0 0 0, mkDatetime 2025 6 2 0 0 0 0) /\
  get_time_range (JStr "this_month") sample_now
    = Some (mkDatetime 2025 6 1 15 30 0 0, mkDatetime 2025 7 1 15 30 0 0) /\
  get_time_range (JStr "last_month") sample_now
    = Some (mkDatetime 2025 5 1 15 30 0 0, mkDatetime 2025 6 1 15 30 0 0) /\
  (instant (mkDatetime 2025 5 1 15 30 0 0) <= instant (mkDatetime 2025 6 1 9 0 0 0)
   < instant (mkDatetime 2025 6 1 15 30 0 0))%Z.
Proof. repeat split; vm_compute; congruence. Qed.
